(** * SSGS-Node: the SSGSCP codec and the gateway server core

    A shallow embedding of the class [SSGSCP] of [ssgscp.js] (packing,
    parsing and recognising SSGSCP datagrams) and of the class [SSGS] of
    [index.js] ([process], [sendMSG], [tickClients], [loadConfig] and their
    helpers), followed by the properties of the wire format, of the inbound
    dispatch, of the per-client reliability state and of the server over a
    sequence of events.

    Conventions of the embedding:
    - a [Buffer] is a [list Z] whose elements are bytes ([is_byte]); every
      write into a buffer goes through [to_uint8], as a [Uint8Array] does;
    - JavaScript's 32-bit operators ([<<], [>>], [|], [&]) are the [Z]
      operations wrapped by [to_int32];
    - the outside world is explicit: AES-256-CTR is its key stream,
      [crypto.randomBytes] and [Date.now] are oracles read through a cursor
      kept in the run-time state, [SSProtocols.parse] and the two string
      functions [loadConfig] decodes with are parameters, and
      everything the server does to the outside ([socket.send], application
      callbacks, [setTimeout], [console.assert]) is appended to a list of
      effects; the socket is bound and running, and [socket.send] throws
      where [dgram] throws synchronously: on a [null] message and on a port
      outside 1..65535 (a datagram can arrive from source port 0);
    - a function that can throw runs in the monad [M], whose result is a
      [completion]: a normal value or a thrown error;
    - a client object is its position in [connectedClients].

    The theorems named C1 to C10 settle the corresponding statements of the
    specification; each comes with an instance on the sample inputs below.
    The theorems named X1 to X19 are further properties of the code. *)

From Stdlib Require Import ZArith String Ascii Lia Floats.
From Stdlib.Strings Require Import Byte.
From stdpp Require Import base numbers option list.

(** ** JavaScript numbers and buffers *)

Definition to_uint8 (v : Z) : Z := (v mod 256)%Z.

Definition to_int32 (v : Z) : Z := ((v + 2 ^ 31) mod 2 ^ 32 - 2 ^ 31)%Z.

Definition is_byte (v : Z) : Prop := (0 ≤ v < 256)%Z.

#[global] Instance is_byte_dec v : Decision (is_byte v).
Proof. unfold is_byte. apply _. Defined.

(** The numeric value of a byte of an oracle. *)
Definition byte_val (b : byte) : Z := Z.of_N (Byte.to_N b).

(** [Buffer.alloc(n)]: [n] zero bytes. *)
Definition Buffer_alloc (n : nat) : list Z := replicate n 0%Z.

(** [Buffer.from(array)]: every element is stored as a byte. *)
Definition Buffer_from (values : list Z) : list Z := to_uint8 <$> values.

(** [target.set(source, offset)]: copies [source] into [target] at [offset];
    a [RangeError] ([None]) when [source] does not fit. *)
Definition Buffer_set (target source : list Z) (offset : nat) : option (list Z) :=
  if decide (offset + length source ≤ length target)
  then Some (take offset target ++ (to_uint8 <$> source)
               ++ drop (offset + length source) target)
  else None.

(** [buffer.subarray(start, end)] for non-negative indices: both ends are
    clamped to the length of the buffer. *)
Definition subarray (buffer : list Z) (start stop : nat) : list Z :=
  drop start (take stop buffer).

(** [buffer[i]] at an index inside the buffer. Outside it JavaScript reads
    [undefined], which the integer operators below take as 0. *)
Definition byteAt (buffer : list Z) (i : nat) : Z := default 0%Z (buffer !! i).

(** [bufferContainsValues(buffer, offset, array)]: the loop stops at the first
    [buffer[i + offset] != array[i]]; an index outside [buffer] reads
    [undefined], which differs from every number. *)
Fixpoint bufferContainsValues (buffer : list Z) (offset : nat) (array : list Z) : bool :=
  match array with
  | [] => true
  | v :: array' =>
      if decide (buffer !! offset = Some v)
      then bufferContainsValues buffer (S offset) array'
      else false
  end.

(** ** Completions and the run-time state *)

Inductive JSError : Type :=
  | TypeError
  | RangeError
  | InvalidKeyLength
  | InvalidIV
  | SocketBadPort.

Inductive completion (A : Type) : Type :=
  | Normal (a : A)
  | Thrown (e : JSError).
Arguments Normal {A} a.
Arguments Thrown {A} e.

(** *** Data of the protocol *)

(** The object handed to [packSSGSCP]; [gatewayUID] and [payload] may be
    absent. *)
Record Packet : Type := {
  packetType : Z;
  gatewayUID : option (list Z);
  packetID : Z;
  payload : option (list Z)
}.

(** The object returned by [parseSSGSCP]: either [{ authSuccess: false }] or
    all the fields with [authSuccess: true]. *)
Inductive ParsedSSGSCPPacket : Type :=
  | AuthFailed
  | Parsed (ptype : Z) (encryptionAuthenticationCode gatewayUID : list Z)
           (pid : Z) (payload : list Z).

Definition authSuccess (p : ParsedSSGSCPPacket) : bool :=
  match p with AuthFailed => false | Parsed _ _ _ _ _ => true end.

Record RemoteInfo : Type := { address : string; port : Z }.

Record AuthorizedGateway : Type := {
  ag_gatewayUID : list Z;
  ag_key : list Z
}.

(** An entry of [authorized_gateways] in the parsed configuration file. *)
Record GatewayConfig : Type := { cfg_uid : string; cfg_key : string }.

(** The two errors [loadConfig] throws. *)
Inductive ConfigError : Type :=
  | UidLengthMustBe4
  | GatewayKeyLengthMustBe32.

Record SentMessage : Type := {
  sm_packetID : Z;
  timestamp : Z;
  packet : list Z
}.

Record Client : Type := {
  c_gatewayUID : list Z;
  sourcePort : Z;
  remoteAddress : string;
  lastSeen : Z;
  sendPacketID : Z;
  retransmissionTimeout : Z;
  sentMessages : list SentMessage;
  receivedMessageIDsFIFO : list Z;
  key : list Z
}.

(** What [SSProtocols.parse] extracts from a payload; a measurement that the
    payload does not carry is absent. *)
Record SensorSealUpdateParams : Type := {
  p_sensorSealUID : option (list Z);
  p_temperature : option float;
  p_vibration : option float;
  p_rpm : option float;
  p_voltage : option float;
  p_msgID : option float
}.

(** The object given to [client.onmessage]; [None] is JavaScript's [null]
    (the [?? null] of the source maps an absent field to it). *)
Record SensorSealUpdate : Type := {
  u_gatewayUID : list Z;
  rawPayload : list Z;
  sensorSealUID : option (list Z);
  temperature : option float;
  vibration : option float;
  rpm : option float;
  voltage : option float;
  msgID : option float
}.

(** *** Effects on the outside world

    A client object is named by its position in [connectedClients]: the
    server only ever appends to that array, so the position is the identity
    of the object that the application and the timers hold. *)
Inductive Effect : Type :=
  | SocketSend (msg : list Z) (port : Z) (address : string)
  | CallOnConnection (client : nat)
  | CallOnMessage (client : nat) (update : SensorSealUpdate)
  | SetTimeoutOnReconnect (client : nat) (delay : Z)
  | AssertionFailed.

(** The server object ([authorizedGateways], [connectedClients]), the number
    of [Date.now()] calls and of random bytes consumed so far, and the
    effects performed so far, oldest first. [SSGSCP.errMsg] is left out: it
    is only read by the debug log, which [__SSGS_DEBUG = false] disables. *)
Record Runtime : Type := {
  authorizedGateways : list AuthorizedGateway;
  connectedClients : list Client;
  dateNowCalls : nat;
  randomBytesDrawn : nat;
  effects : list Effect
}.

Definition M (A : Type) : Type := Runtime → completion A * Runtime.

Definition ret {A} (a : A) : M A := λ rt, (Normal a, rt).

Definition throw {A} (e : JSError) : M A := λ rt, (Thrown e, rt).

Definition bind {A B} (m : M A) (k : A → M B) : M B :=
  λ rt, match m rt with
        | (Normal a, rt') => k a rt'
        | (Thrown e, rt') => (Thrown e, rt')
        end.

Notation "'let*' x ':=' m 'in' k" := (bind m (λ x, k))
  (at level 10, x pattern, m at level 100, k at level 200).
Notation "m ';;' k" := (bind m (λ _, k))
  (at level 100, k at level 200, right associativity).

(** Lifts a buffer write: a write that does not fit throws. *)
Definition orRangeError {A} (o : option A) : M A :=
  match o with Some a => ret a | None => throw RangeError end.

Definition gets {A} (f : Runtime → A) : M A := λ rt, (Normal (f rt), rt).

(** The run-time state with another array of clients, after one more
    reading of the clock, after [n] more random bytes, and after one more
    effect. *)
Definition with_clients (cs : list Client) (rt : Runtime) : Runtime :=
  {| authorizedGateways := authorizedGateways rt;
     connectedClients := cs;
     dateNowCalls := dateNowCalls rt;
     randomBytesDrawn := randomBytesDrawn rt;
     effects := effects rt |}.

Definition ticked (rt : Runtime) : Runtime :=
  {| authorizedGateways := authorizedGateways rt;
     connectedClients := connectedClients rt;
     dateNowCalls := S (dateNowCalls rt);
     randomBytesDrawn := randomBytesDrawn rt;
     effects := effects rt |}.

Definition drawn (n : nat) (rt : Runtime) : Runtime :=
  {| authorizedGateways := authorizedGateways rt;
     connectedClients := connectedClients rt;
     dateNowCalls := dateNowCalls rt;
     randomBytesDrawn := randomBytesDrawn rt + n;
     effects := effects rt |}.

Definition emitted (e : Effect) (rt : Runtime) : Runtime :=
  {| authorizedGateways := authorizedGateways rt;
     connectedClients := connectedClients rt;
     dateNowCalls := dateNowCalls rt;
     randomBytesDrawn := randomBytesDrawn rt;
     effects := effects rt ++ [e] |}.

Definition set_connectedClients (cs : list Client) : M unit :=
  λ rt, (Normal tt, with_clients cs rt).

Definition perform (e : Effect) : M unit :=
  λ rt, (Normal tt, emitted e rt).

(** The ports [socket.send] accepts: 0 is refused, as is anything outside
    16 bits. *)
Definition valid_port (port : Z) : Prop := (1 ≤ port ≤ 65535)%Z.

#[global] Instance valid_port_dec port : Decision (valid_port port).
Proof. unfold valid_port. apply _. Defined.

(** [this.socket.send(msg, port, address)] on the running, unconnected
    socket: the checks of [dgram] are synchronous; a [null] message is
    refused with a [TypeError] ([ERR_INVALID_ARG_TYPE]), then a port outside
    [valid_port] with [ERR_SOCKET_BAD_PORT]; otherwise the datagram is handed
    to the network. *)
Definition socket_send (msg : option (list Z)) (port : Z) (address : string) : M unit :=
  match msg with
  | Some bytes =>
      if decide (valid_port port) then perform (SocketSend bytes port address)
      else throw SocketBadPort
  | None => throw TypeError
  end.

(** JavaScript's integer operators on numbers: operands go through
    [ToInt32]. *)
Definition js_shl (a : Z) (n : Z) : Z := to_int32 (Z.shiftl (to_int32 a) n).
Definition js_sar (a : Z) (n : Z) : Z := Z.shiftr (to_int32 a) n.
Definition js_or (a b : Z) : Z := Z.lor (to_int32 a) (to_int32 b).
Definition js_and (a b : Z) : Z := Z.land (to_int32 a) (to_int32 b).

(** [SSGSCP.getU16BE(buffer)]: [buffer[0] << 8 | buffer[1]]. *)
Definition getU16BE (buffer : list Z) : Z :=
  js_or (js_shl (byteAt buffer 0) 8) (byteAt buffer 1).

(** [SSGSCP.setU16BE(value)]: [Buffer.from([value >> 8, value & 0xff])]. *)
Definition setU16BE (value : Z) : list Z :=
  Buffer_from [js_sar value 8; js_and value 255].

(** [SSGSCP.PACKET_IDENTIFIER], the characters of "SSGSCP". *)
Definition PACKET_IDENTIFIER : list Z := Buffer_from [83; 83; 71; 83; 67; 80]%Z.

(** [SSGSCP.isSSGSCP(datagram)]. *)
Definition isSSGSCP (datagram : list Z) : bool :=
  if decide (length datagram < 18 + 8) then false
  else if negb (bufferContainsValues datagram 0 PACKET_IDENTIFIER) then false
  else true.

(** [SSGSCP.parsePacketGatewayUID(datagram)]. *)
Definition parsePacketGatewayUID (datagram : list Z) : option (list Z) :=
  if negb (isSSGSCP datagram) then None
  else Some (subarray datagram 14 18).

(** [cipher.update(data)] of a CTR cipher that has produced no output yet:
    byte [i] of the data is xored with byte [i] of the key stream.
    [cipher.final()] is empty in CTR mode. *)
Definition cipher_update (stream : nat → Z) (data : list Z) : list Z :=
  imap (λ i b, Z.lxor b (stream i)) data.

Definition cipher_final : list Z := [].

(** [Buffer.concat(list)]. *)
Definition Buffer_concat (parts : list (list Z)) : list Z := concat parts.

(** ** Sample oracles and inputs

    Concrete stand-ins for the outside world, on which the model runs: a key
    stream that depends on the key, on the IV and on the position, a source
    of random bytes, a clock whose first readings are 5000, 5001, 7100 and
    7101 ms, and a payload parser that finds no measurement. *)

Definition sample_byte (n : nat) : byte :=
  default x00 (Byte.of_N (N.of_nat (n `mod` 256))).

Definition sample_keystream (key iv : list Z) (i : nat) : byte :=
  sample_byte (Z.to_nat (foldr Z.add 0%Z key + foldr Z.add 0%Z iv) + 7 * i + 13).

Definition sample_entropy (i : nat) : byte := sample_byte (17 * i + 5).

Definition sample_clock (i : nat) : Z :=
  default (9000 + Z.of_nat i)%Z ([5000; 5001; 7100; 7101]%Z !! i).

Definition sample_parse (payload : list Z) : SensorSealUpdateParams :=
  {| p_sensorSealUID := None; p_temperature := None; p_vibration := None;
     p_rpm := None; p_voltage := None; p_msgID := None |}.

Definition sample_uid : list Z := [170; 187; 204; 221]%Z.

Definition sample_key : list Z := replicate 32 17%Z.

Definition sample_gateways : list AuthorizedGateway :=
  [{| ag_gatewayUID := sample_uid; ag_key := sample_key |}].

(** A server that has loaded its configuration and seen no datagram yet. *)
Definition sample_start : Runtime :=
  {| authorizedGateways := sample_gateways;
     connectedClients := [];
     dateNowCalls := 0;
     randomBytesDrawn := 0;
     effects := [] |}.

Definition sample_packet (ptype pid : Z) (payload : option (list Z)) : Packet :=
  {| packetType := ptype; gatewayUID := Some sample_uid;
     packetID := pid; payload := payload |}.

Definition sample_rinfo : RemoteInfo := {| address := "10.0.0.2"; port := 40000 |}.

Definition sample_rinfo' : RemoteInfo := {| address := "10.0.0.2"; port := 40001 |}.

(** A datagram can arrive from source port 0, to which nothing can be sent. *)
Definition sample_rinfo0 : RemoteInfo := {| address := "10.0.0.2"; port := 0 |}.

(** The first client object of a state (a blank one if there is none). *)
Definition first_client (rt : Runtime) : Client :=
  default {| c_gatewayUID := []; sourcePort := 0; remoteAddress := "";
             lastSeen := 0; sendPacketID := 0; retransmissionTimeout := 0;
             sentMessages := []; receivedMessageIDsFIFO := []; key := [] |}
          (connectedClients rt !! 0).

(** The number of calls of [onmessage] among some effects. *)
Fixpoint onmessage_calls (es : list Effect) : nat :=
  match es with
  | [] => 0
  | CallOnMessage _ _ :: es' => S (onmessage_calls es')
  | _ :: es' => onmessage_calls es'
  end.

(** A connected client of the sample gateway whose next packet identifier is
    [next], with the given messages awaiting acknowledgement. *)
Definition sample_client (next : Z) (pending : list SentMessage) : Client :=
  {| c_gatewayUID := sample_uid; sourcePort := 40000; remoteAddress := "10.0.0.2";
     lastSeen := 5000; sendPacketID := next; retransmissionTimeout := 2000;
     sentMessages := pending; receivedMessageIDsFIFO := []; key := sample_key |}.

(** A server with that one client, at the [reads]-th reading of the clock. *)
Definition sample_serving (client : Client) (reads : nat) : Runtime :=
  {| authorizedGateways := sample_gateways;
     connectedClients := [client];
     dateNowCalls := reads;
     randomBytesDrawn := 8;
     effects := [] |}.

(** Stand-ins for the two string functions of [loadConfig], on strings in
    UTF-8: a decoder of hexadecimal strings that stops at the first pair that
    is not two digits, and a filter that drops every character [\s] matches
    (tab, line feed, vertical tab, form feed, carriage return, space,
    U+00A0 and the wide spaces below); then a configuration that gives the
    sample table. *)
Definition sample_unhex (c : ascii) : option Z :=
  let n := Z.of_nat (nat_of_ascii c) in
  if decide (48 ≤ n ≤ 57)%Z then Some (n - 48)%Z
  else if decide (97 ≤ n ≤ 102)%Z then Some (n - 87)%Z
  else if decide (65 ≤ n ≤ 70)%Z then Some (n - 55)%Z
  else None.

Fixpoint sample_Buffer_from_hex (s : string) : list Z :=
  match s with
  | String a (String b rest) =>
      match sample_unhex a, sample_unhex b with
      | Some hi, Some lo => (16 * hi + lo)%Z :: sample_Buffer_from_hex rest
      | _, _ => []
      end
  | _ => []
  end.

(** The three-byte UTF-8 forms of the characters [\s] matches beyond Latin-1:
    U+1680, U+2000 to U+200A, U+2028, U+2029, U+202F, U+205F, U+3000 and
    U+FEFF. *)
Definition sample_wide_space (a b c : nat) : bool :=
  bool_decide ((a = 225 ∧ b = 154 ∧ c = 128)
               ∨ (a = 226 ∧ b = 128 ∧ (128 ≤ c ≤ 138 ∨ c = 168 ∨ c = 169 ∨ c = 175))
               ∨ (a = 226 ∧ b = 129 ∧ c = 159)
               ∨ (a = 227 ∧ b = 128 ∧ c = 128)
               ∨ (a = 239 ∧ b = 187 ∧ c = 191)).

Fixpoint sample_remove_whitespace (s : string) : string :=
  match s with
  | EmptyString => EmptyString
  | String a s1 =>
      if bool_decide (nat_of_ascii a ∈ [9; 10; 11; 12; 13; 32])
      then sample_remove_whitespace s1
      else
        match s1 with
        | EmptyString => String a EmptyString
        | String b s2 =>
            if bool_decide (nat_of_ascii a = 194 ∧ nat_of_ascii b = 160)
            then sample_remove_whitespace s2
            else
              match s2 with
              | EmptyString => String a (sample_remove_whitespace s1)
              | String c s3 =>
                  if sample_wide_space (nat_of_ascii a) (nat_of_ascii b) (nat_of_ascii c)
                  then sample_remove_whitespace s3
                  else String a (sample_remove_whitespace s1)
              end
        end
  end.

Definition sample_config : list GatewayConfig :=
  [{| cfg_uid := "aa bb cc dd";
      cfg_key := "11 11 11 11 11 11 11 11 11 11 11 11 11 11 11 11
                  11 11 11 11 11 11 11 11 11 11 11 11 11 11 11 11" |}].

Section Model.

(** The key stream of AES-256 in CTR mode for a key and a 16-byte IV. *)
Variable keystream : list Z → list Z → nat → byte.
(** The bytes [crypto.randomBytes] hands out, in order. *)
Variable entropy : nat → byte.
(** The successive readings of [Date.now()]. *)
Variable clock : nat → Z.
(** [SSProtocols.parse], the payload parser (not part of these sources). *)
Variable SSProtocols_parse : list Z → SensorSealUpdateParams.

(** [Date.now()]: the next reading of the clock. *)
Definition Date_now : M Z :=
  λ rt, (Normal (clock (dateNowCalls rt)), ticked rt).

(** [crypto.randomBytes(n)]: the next [n] bytes of the source. *)
Definition randomBytes (n : nat) : M (list Z) :=
  λ rt, (Normal ((λ i, byte_val (entropy (randomBytesDrawn rt + i))) <$> seq 0 n),
         drawn n rt).

(** [crypto.createCipheriv('aes-256-ctr', key, iv)] and
    [crypto.createDecipheriv('aes-256-ctr', key, iv)]: in CTR mode both are
    the xor with the same key stream. Node refuses a key that is not 32 bytes
    and an IV that is not 16 bytes. *)
Definition createCipheriv (key iv : list Z) : M (nat → Z) :=
  if decide (length key ≠ 32) then throw InvalidKeyLength
  else if decide (length iv ≠ 16) then throw InvalidIV
  else ret (λ i, byte_val (keystream key iv i)).

Definition createDecipheriv (key iv : list Z) : M (nat → Z) := createCipheriv key iv.

(** [SSGSCP.packSSGSCP(packet, key)]; [None] is the [null] it returns for a
    field of the wrong width. *)
Definition packSSGSCP (packet : Packet) (key : list Z) : M (option (list Z)) :=
  if decide (packetType packet < 0 ∨ packetType packet > 255)%Z then ret None
  else if match gatewayUID packet with
          | Some uid => bool_decide (length uid ≠ 4)
          | None => false
          end then ret None
  else if decide (packetID packet < 0 ∨ packetID packet > 65535)%Z then ret None
  else
    let payload := default (Buffer_alloc 0) (payload packet) in
    let encryptedPortionPlaintextUnpaddedLength := 8 + length payload in
    let encryptedPortionPlaintext :=
      Buffer_alloc (encryptedPortionPlaintextUnpaddedLength
                    + (4 - encryptedPortionPlaintextUnpaddedLength `mod` 4)) in
    let* plaintext := orRangeError (Buffer_set encryptedPortionPlaintext [packetType packet] 0) in
    let* plaintext := orRangeError (Buffer_set plaintext [0; 1; 2; 3]%Z 1) in
    let* plaintext := orRangeError (Buffer_set plaintext (setU16BE (packetID packet)) 5) in
    let* plaintext := orRangeError (Buffer_set plaintext [Z.of_nat (length payload)] 7) in
    let* plaintext := orRangeError (Buffer_set plaintext payload 8) in
    let* random := randomBytes 8 in
    let* iv := orRangeError (Buffer_set (Buffer_alloc 16) random 0) in
    let* cipher := createCipheriv key iv in
    let encryptedPortion := Buffer_concat [cipher_update cipher plaintext; cipher_final] in
    let packedPacket := Buffer_alloc (18 + length encryptedPortion) in
    let* packedPacket := orRangeError (Buffer_set packedPacket PACKET_IDENTIFIER 0) in
    let* packedPacket := orRangeError (Buffer_set packedPacket iv 6) in
    let* packedPacket :=
      match gatewayUID packet with
      | Some uid => orRangeError (Buffer_set packedPacket uid 14)
      | None => throw TypeError
      end in
    let* packedPacket := orRangeError (Buffer_set packedPacket encryptedPortion 18) in
    ret (Some packedPacket).

(** [SSGSCP.parseSSGSCP(datagram, key)]; [None] is the [null] returned for a
    datagram that is not SSGSCP. *)
Definition parseSSGSCP (datagram key : list Z) : M (option ParsedSSGSCPPacket) :=
  if negb (isSSGSCP datagram) then ret None
  else
    let iv8 := subarray datagram 6 14 in
    let gatewayUID := subarray datagram 14 18 in
    let encryptedPortion := drop 18 datagram in
    let* iv16 := orRangeError (Buffer_set (Buffer_alloc 16) iv8 0) in
    let* decipher := createDecipheriv key iv16 in
    let decrypted := cipher_update decipher encryptedPortion in
    let final := cipher_final in
    let decryptedPortion := Buffer_concat [decrypted; final] in
    let packetType := byteAt decryptedPortion 0 in
    let encryptionAuthenticationCode := subarray decryptedPortion 1 (1 + 4) in
    let packetID := getU16BE (subarray decryptedPortion 5 (5 + 2)) in
    let payloadLength := byteAt decryptedPortion 7 in
    let payload := subarray decryptedPortion 8 (8 + Z.to_nat payloadLength) in
    if negb (bufferContainsValues encryptionAuthenticationCode 0 [0; 1; 2; 3]%Z)
    then ret (Some AuthFailed)
    else ret (Some (Parsed packetType encryptionAuthenticationCode gatewayUID
                           packetID payload)).

(** ** The server *)

Definition RECV_MSG_FIFO_MAX_LEN : nat := 100.
Definition SENT_MSG_LIST_MAX_LEN : nat := 100.

(** The [PacketType] enumeration. *)
Definition CONN : Z := 1.
Definition CONNACPT : Z := 2.
Definition CONNFAIL : Z := 3.
Definition RCPTOK : Z := 10.
Definition MSGCONF : Z := 20.
Definition MSGSTATUS : Z := 21.

(** [Buffer.from(buffer)]: a copy, byte for byte. *)
Definition Buffer_copy (buffer : list Z) : list Z := buffer.

(** [SSGS.gatewayUIDsMatch(gatewayUID1, gatewayUID2)] on two buffers (the
    null test of the source never fires on a buffer). Two indices that are
    both outside their buffers read [undefined] on both sides and compare
    equal. *)
Definition gatewayUIDsMatch (gatewayUID1 gatewayUID2 : list Z) : bool :=
  if decide (length gatewayUID1 ≠ 4 ∧ length gatewayUID2 ≠ 4) then false
  else forallb (λ i, bool_decide (gatewayUID1 !! i = gatewayUID2 !! i)) (seq 0 4).

(** [isAuthorizedGateway(gatewayUID)]: the loop visits every entry. *)
Definition isAuthorizedGateway (gateways : list AuthorizedGateway) (gatewayUID : list Z) : bool :=
  foldl (λ matchingUIDFound authorizedGateway,
           if gatewayUIDsMatch (ag_gatewayUID authorizedGateway) gatewayUID
           then true else matchingUIDFound)
        false gateways.

(** [getGatewayKey(gatewayUID)]: the key of the first matching entry. *)
Fixpoint getGatewayKey (gateways : list AuthorizedGateway) (gatewayUID : list Z)
  : option (list Z) :=
  match gateways with
  | [] => None
  | authorizedGateway :: gateways' =>
      if gatewayUIDsMatch (ag_gatewayUID authorizedGateway) gatewayUID
      then Some (ag_key authorizedGateway)
      else getGatewayKey gateways' gatewayUID
  end.

(** [sendCONNFAIL(rinfo, gatewayUID)]: packed with a key of 32 zero bytes. *)
Definition sendCONNFAIL (rinfo : RemoteInfo) (uid : list Z) : M unit :=
  let fields := {| packetType := CONNFAIL; packetID := 0;
                   gatewayUID := Some uid; payload := None |} in
  let* packedPacket := packSSGSCP fields (Buffer_alloc 32) in
  socket_send packedPacket (port rinfo) (address rinfo).

(** [sendCONNACPT(rinfo, key, gatewayUID)]. *)
Definition sendCONNACPT (rinfo : RemoteInfo) (key uid : list Z) : M unit :=
  let fields := {| packetType := CONNACPT; packetID := 0;
                   gatewayUID := Some uid; payload := None |} in
  let* packedPacket := packSSGSCP fields key in
  socket_send packedPacket (port rinfo) (address rinfo).

(** [sendRCPTOK(packetID, rinfo, key, gatewayUID)]. *)
Definition sendRCPTOK (pid : Z) (rinfo : RemoteInfo) (key uid : list Z) : M unit :=
  let fields := {| packetType := RCPTOK; packetID := pid;
                   gatewayUID := Some uid; payload := None |} in
  let* packedPacket := packSSGSCP fields key in
  socket_send packedPacket (port rinfo) (address rinfo).

(** Writes back the client object at position [ci]. *)
Definition store_client (ci : nat) (client : Client) : M unit :=
  let* clients := gets connectedClients in
  set_connectedClients (<[ci := client]> clients).

(** The end of [sendMSG]: the message is pushed on [client.sentMessages],
    [client.sendPacketID] is incremented modulo 65536 (JavaScript's [%] is the
    remainder of the truncated division), and the head of the list is shifted
    out when it has grown beyond [SENT_MSG_LIST_MAX_LEN]. *)
Definition enqueue_sent (client : Client) (sentMessage : SentMessage) : Client :=
  let pushed := sentMessages client ++ [sentMessage] in
  {| c_gatewayUID := c_gatewayUID client;
     sourcePort := sourcePort client;
     remoteAddress := remoteAddress client;
     lastSeen := lastSeen client;
     sendPacketID := Z.rem (sendPacketID client + 1) 65536;
     retransmissionTimeout := retransmissionTimeout client;
     sentMessages :=
       if decide (SENT_MSG_LIST_MAX_LEN < length pushed)
       then drop 1 pushed else pushed;
     receivedMessageIDsFIFO := receivedMessageIDsFIFO client;
     key := key client |}.

(** [sendMSG(client, packetType, payload)], [client] being the object at
    position [ci]. An application that calls [client.send(payload)] runs
    [sendMSG ci MSGCONF payload]. *)
Definition sendMSG (ci : nat) (ptype : Z) (payload : option (list Z)) : M unit :=
  let* clients := gets connectedClients in
  match (clients : list Client) !! ci with
  | None => throw TypeError
  | Some client =>
      let packet := {| packetType := ptype;
                       gatewayUID := Some (c_gatewayUID client);
                       packetID := sendPacketID client;
                       payload := payload |} in
      let* packedPacket := packSSGSCP packet (key client) in
      match packedPacket with
      | None => ret tt
      | Some bytes =>
          socket_send (Some bytes) (sourcePort client) (remoteAddress client);;
          let* now := Date_now in
          let sentMessage := {| sm_packetID := sendPacketID client;
                                timestamp := now;
                                packet := bytes |} in
          store_client ci (enqueue_sent client sentMessage)
      end
  end.

(** [client.send(payload)] as installed by [process] on a new client. *)
Definition client_send (ci : nat) (payload : option (list Z)) : M unit :=
  sendMSG ci MSGCONF payload.

(** The assignments [process] makes to the fields of a client object. *)
Definition with_lastSeen (client : Client) (now : Z) : Client :=
  {| c_gatewayUID := c_gatewayUID client;
     sourcePort := sourcePort client;
     remoteAddress := remoteAddress client;
     lastSeen := now;
     sendPacketID := sendPacketID client;
     retransmissionTimeout := retransmissionTimeout client;
     sentMessages := sentMessages client;
     receivedMessageIDsFIFO := receivedMessageIDsFIFO client;
     key := key client |}.

Definition with_sentMessages (client : Client) (messages : list SentMessage) : Client :=
  {| c_gatewayUID := c_gatewayUID client;
     sourcePort := sourcePort client;
     remoteAddress := remoteAddress client;
     lastSeen := lastSeen client;
     sendPacketID := sendPacketID client;
     retransmissionTimeout := retransmissionTimeout client;
     sentMessages := messages;
     receivedMessageIDsFIFO := receivedMessageIDsFIFO client;
     key := key client |}.

Definition with_receivedMessageIDsFIFO (client : Client) (fifo : list Z) : Client :=
  {| c_gatewayUID := c_gatewayUID client;
     sourcePort := sourcePort client;
     remoteAddress := remoteAddress client;
     lastSeen := lastSeen client;
     sendPacketID := sendPacketID client;
     retransmissionTimeout := retransmissionTimeout client;
     sentMessages := sentMessages client;
     receivedMessageIDsFIFO := fifo;
     key := key client |}.

(** A sent message with a new time stamp. *)
Definition restamp (sentMessage : SentMessage) (stamp : Z) : SentMessage :=
  {| sm_packetID := sm_packetID sentMessage;
     timestamp := stamp;
     packet := packet sentMessage |}.

(** [sentMessage.timestamp = stamp], [sentMessage] being entry [j] of the
    [sentMessages] of the client at position [ci]: the object is shared
    with the server's state, so the assignment is visible there at once. *)
Definition set_timestamp (ci j : nat) (stamp : Z) : M unit :=
  let* clients := gets connectedClients in
  set_connectedClients
    (alter (λ client,
              with_sentMessages client
                (alter (λ sentMessage, restamp sentMessage stamp) j
                       (sentMessages client)))
           ci (clients : list Client)).

(** The inner loop of [tickClients] for the client at position [ci], from
    entry [j] of [client.sentMessages] on; [messages] are the entries from
    [j] on. The loop changes no entry it has not visited yet, and none of
    the other fields of the client. *)
Fixpoint tickSentMessages (ci : nat) (client : Client) (now : Z) (j : nat)
    (messages : list SentMessage) (retransmittedCount : nat) : M unit :=
  match messages with
  | [] => ret tt
  | sentMessage :: messages' =>
      if decide (retransmittedCount < 10
                 ∧ (now - timestamp sentMessage > retransmissionTimeout client)%Z)
      then
        socket_send (Some (packet sentMessage)) (sourcePort client) (remoteAddress client);;
        let* stamp := Date_now in
        set_timestamp ci j stamp;;
        tickSentMessages ci client now (S j) messages' (S retransmittedCount)
      else tickSentMessages ci client now (S j) messages' retransmittedCount
  end.

(** The body of the outer loop for the client at position [ci]. *)
Definition tickClient (now : Z) (ci : nat) (client : Client) : M unit :=
  tickSentMessages ci client now 0 (sentMessages client) 0.

(** The outer loop of [tickClients] over [this.connectedClients], from
    position [ci] on. *)
Fixpoint tickEach (now : Z) (ci : nat) (clients : list Client) : M unit :=
  match clients with
  | [] => ret tt
  | client :: clients' => tickClient now ci client;; tickEach now (S ci) clients'
  end.

(** [tickClients()]. *)
Definition tickClients : M unit :=
  let* now := Date_now in
  let* clients := gets connectedClients in
  tickEach now 0 clients.

(** The six assignments of the [CONN] case for a client that is already
    connected. *)
Definition restarted (client : Client) (rinfo : RemoteInfo) : Client :=
  {| c_gatewayUID := c_gatewayUID client;
     sourcePort := port rinfo;
     remoteAddress := address rinfo;
     lastSeen := lastSeen client;
     sendPacketID := 0;
     retransmissionTimeout := 2000;
     sentMessages := [];
     receivedMessageIDsFIFO := [];
     key := key client |}.

(** The [update] object built in the [MSGSTATUS] case. *)
Definition make_update (uid payload : list Z) : SensorSealUpdate :=
  let sensorSealUpdateParams := SSProtocols_parse payload in
  {| u_gatewayUID := uid;
     rawPayload := payload;
     sensorSealUID := p_sensorSealUID sensorSealUpdateParams;
     temperature := p_temperature sensorSealUpdateParams;
     vibration := p_vibration sensorSealUpdateParams;
     rpm := p_rpm sensorSealUpdateParams;
     voltage := p_voltage sensorSealUpdateParams;
     msgID := p_msgID sensorSealUpdateParams |}.

(** The [switch] of [process] for a client that is connected, after
    [lastSeen] has been written. *)
Definition dispatch (ci : nat) (client : Client) (rinfo : RemoteInfo) (key : list Z)
    (ptype : Z) (uid : list Z) (pid : Z) (payload : list Z) : M unit :=
  if decide (ptype = CONN) then
    let client := restarted client rinfo in
    store_client ci client;;
    sendCONNACPT rinfo (Buffer_copy key) uid;;
    perform (SetTimeoutOnReconnect ci (retransmissionTimeout client))
  else if decide (ptype = RCPTOK) then
    match list_find (λ m, sm_packetID m = pid) (sentMessages client) with
    | Some (index, _) =>
        store_client ci (with_sentMessages client (delete index (sentMessages client)))
    | None => ret tt
    end
  else if decide (ptype = MSGSTATUS) then
    if bool_decide (pid ∈ receivedMessageIDsFIFO client) then
      sendRCPTOK pid rinfo (Buffer_copy key) uid
    else
      let pushed := receivedMessageIDsFIFO client ++ [pid] in
      store_client ci
        (with_receivedMessageIDsFIFO client
           (if decide (RECV_MSG_FIFO_MAX_LEN < length pushed)
            then drop 1 pushed else pushed));;
      sendRCPTOK pid rinfo (Buffer_copy key) uid;;
      perform (CallOnMessage ci (make_update uid payload))
  else if decide (ptype = MSGCONF) then ret tt
  else if decide (ptype = CONNACPT) then ret tt
  else if decide (ptype = CONNFAIL) then ret tt
  else perform AssertionFailed.

(** [process(datagram, rinfo)]. *)
Definition process (datagram : list Z) (rinfo : RemoteInfo) : M unit :=
  match parsePacketGatewayUID datagram with
  | None => ret tt
  | Some gatewayUID =>
      let* gateways := gets authorizedGateways in
      if negb (isAuthorizedGateway gateways gatewayUID) then ret tt
      else
        match getGatewayKey gateways gatewayUID with
        | None => ret tt
        | Some key =>
            let* parsedPacket := parseSSGSCP datagram key in
            match parsedPacket with
            | None => sendCONNFAIL rinfo gatewayUID
            | Some AuthFailed => sendCONNFAIL rinfo gatewayUID
            | Some (Parsed ptype _ uid pid payload) =>
                let* clients := gets connectedClients in
                match list_find (λ c, Is_true (gatewayUIDsMatch (c_gatewayUID c) uid))
                                (clients : list Client) with
                | None =>
                    if decide (ptype = CONN) then
                      sendCONNACPT rinfo (Buffer_copy key) uid;;
                      let* now := Date_now in
                      let client_1 :=
                        {| c_gatewayUID := uid;
                           sourcePort := port rinfo;
                           remoteAddress := address rinfo;
                           lastSeen := now;
                           sendPacketID := 0;
                           retransmissionTimeout := 2000;
                           sentMessages := [];
                           receivedMessageIDsFIFO := [];
                           key := Buffer_copy key |} in
                      set_connectedClients (clients ++ [client_1]);;
                      perform (CallOnConnection (length clients))
                    else sendCONNFAIL rinfo uid
                | Some (ci, client) =>
                    let* now := Date_now in
                    let client := with_lastSeen client now in
                    store_client ci client;;
                    dispatch ci client rinfo key ptype uid pid payload
                end
            end
        end
  end.

(** ** Wire image of a packet

    What [packSSGSCP] computes, written as one expression; [packSSGSCP_run]
    below proves that the code produces exactly this. *)

(** The padded plaintext of the encrypted portion. *)
Definition plaintext_of (packet : Packet) : list Z :=
  let payload := default [] (payload packet) in
  [to_uint8 (packetType packet); 0; 1; 2; 3]%Z
    ++ setU16BE (packetID packet)
    ++ [to_uint8 (Z.of_nat (length payload))]
    ++ (to_uint8 <$> payload)
    ++ replicate (4 - (8 + length payload) `mod` 4) 0%Z.

(** The key stream a cipher created from [key] and the 8 IV bytes uses. *)
Definition stream_of (key iv8 : list Z) : nat → Z :=
  λ i, byte_val (keystream key (iv8 ++ Buffer_alloc 8) i).

Definition wire_of (packet : Packet) (uid key iv8 : list Z) : list Z :=
  PACKET_IDENTIFIER ++ iv8 ++ (to_uint8 <$> uid)
    ++ cipher_update (stream_of key iv8) (plaintext_of packet).

(** The 8 IV bytes drawn when [randomBytesDrawn] is [n]. *)
Definition iv_at (n : nat) : list Z :=
  (λ i, byte_val (entropy (n + i))) <$> seq 0 8.

(** The plaintext [parseSSGSCP] recovers from a datagram. *)
Definition decryptedPortion_of (datagram key : list Z) : list Z :=
  cipher_update (stream_of key (to_uint8 <$> subarray datagram 6 14)) (drop 18 datagram).

(** A packet whose fields have the widths of the wire format. *)
Definition valid_fields (packet : Packet) (uid : list Z) : Prop :=
  (0 ≤ packetType packet ≤ 255)%Z
  ∧ gatewayUID packet = Some uid ∧ length uid = 4
  ∧ (0 ≤ packetID packet ≤ 65535)%Z.

(** What [parseSSGSCP] returns for a datagram that passes [isSSGSCP]. *)
Definition parsed_of (datagram key : list Z) : ParsedSSGSCPPacket :=
  let decryptedPortion := decryptedPortion_of datagram key in
  if bufferContainsValues (subarray decryptedPortion 1 5) 0 [0; 1; 2; 3]%Z
  then Parsed (byteAt decryptedPortion 0)
              (subarray decryptedPortion 1 5)
              (subarray datagram 14 18)
              (getU16BE (subarray decryptedPortion 5 7))
              (subarray decryptedPortion 8 (8 + Z.to_nat (byteAt decryptedPortion 7)))
  else AuthFailed.

(** The [fields] object of [sendCONNFAIL], [sendCONNACPT] and [sendRCPTOK]. *)
Definition fields_of (ptype : Z) (uid : list Z) (pid : Z) : Packet :=
  {| packetType := ptype; packetID := pid; gatewayUID := Some uid; payload := None |}.

(** A datagram that, arriving in state [rt], passes the checks of [process]:
    it is a buffer, its UID is authorized with key [key], and it parses under
    that key to [parsed]. *)
Definition authenticated (rt : Runtime) (datagram key : list Z)
    (parsed : ParsedSSGSCPPacket) : Prop :=
  Forall is_byte datagram
  ∧ ∃ gw, parsePacketGatewayUID datagram = Some gw
          ∧ isAuthorizedGateway (authorizedGateways rt) gw = true
          ∧ getGatewayKey (authorizedGateways rt) gw = Some key
          ∧ (parseSSGSCP datagram key rt).1 = Normal (Some parsed).

(** The client object that [process] finds for a UID. *)
Definition connected (rt : Runtime) (uid : list Z) (ci : nat) (client : Client) : Prop :=
  list_find (λ c, Is_true (gatewayUIDsMatch (c_gatewayUID c) uid)) (connectedClients rt)
  = Some (ci, client).


(** The packet [sendMSG] builds for a client. *)
Definition outbound (client : Client) (ptype : Z) (payload : option (list Z)) : Packet :=
  {| packetType := ptype;
     gatewayUID := Some (c_gatewayUID client);
     packetID := sendPacketID client;
     payload := payload |}.

(** A client object whose UID and key have the widths [process] gives them
    and whose next packet identifier fits 16 bits. *)
Definition client_ok (client : Client) : Prop :=
  length (c_gatewayUID client) = 4
  ∧ Forall is_byte (c_gatewayUID client)
  ∧ length (key client) = 32
  ∧ (0 ≤ sendPacketID client ≤ 65535)%Z.

(** The test of [tickClients] on a sent message, [now] being the reading of
    the clock taken when the tick starts. *)
Definition due (now : Z) (client : Client) (sentMessage : SentMessage) : Prop :=
  (now - timestamp sentMessage > retransmissionTimeout client)%Z.

#[global] Instance due_dec now client sentMessage : Decision (due now client sentMessage).
Proof. unfold due. apply _. Defined.


(** The transmission of a stored message to a client's endpoint. *)
Definition resend (client : Client) (sentMessage : SentMessage) : Effect :=
  SocketSend (packet sentMessage) (sourcePort client) (remoteAddress client).

(** The messages one tick retransmits to a client: the first ten that are
    due. *)
Definition retransmissions (now : Z) (client : Client) : list SentMessage :=
  take 10 (filter (due now client) (sentMessages client)).

(** A client the socket can send to. *)
Definition reachable (client : Client) : Prop := valid_port (sourcePort client).

(** The entries [messages] of a client after its loop has passed them,
    [retransmittedCount] retransmissions having been made before and the
    clock having been read [reads] times. *)
Fixpoint restamped_from (now : Z) (client : Client) (retransmittedCount reads : nat)
    (messages : list SentMessage) : list SentMessage :=
  match messages with
  | [] => []
  | sentMessage :: messages' =>
      if decide (retransmittedCount < 10 ∧ due now client sentMessage)
      then restamp sentMessage (clock reads)
             :: restamped_from now client (S retransmittedCount) (S reads) messages'
      else sentMessage :: restamped_from now client retransmittedCount reads messages'
  end.

(** A client after its loop of a tick that started it at the [reads]-th
    reading of the clock. *)
Definition ticked_client (now : Z) (reads : nat) (client : Client) : Client :=
  with_sentMessages client (restamped_from now client 0 reads (sentMessages client)).

(** The clients after the loops of a tick over them, in order. *)
Fixpoint ticked_clients (now : Z) (reads : nat) (clients : list Client) : list Client :=
  match clients with
  | [] => []
  | client :: clients' =>
      ticked_client now reads client
        :: ticked_clients now (reads + length (retransmissions now client)) clients'
  end.

(** The retransmissions of one tick to each of [clients], in order. *)
Definition all_retransmissions (now : Z) (clients : list Client) : list Effect :=
  concat ((λ client, resend client <$> retransmissions now client) <$> clients).

(** What a tick may change in a client object: the time stamps of its sent
    messages. *)
Definition restamped (client client' : Client) : Prop :=
  client' = with_sentMessages client (sentMessages client')
  ∧ length (sentMessages client') = length (sentMessages client)
  ∧ ∀ i m, sentMessages client !! i = Some m →
      ∃ m', sentMessages client' !! i = Some m'
            ∧ sm_packetID m' = sm_packetID m ∧ packet m' = packet m.

(** The bounds on the two queues of a client. *)
Definition queues_bounded (client : Client) : Prop :=
  length (sentMessages client) ≤ SENT_MSG_LIST_MAX_LEN
  ∧ length (receivedMessageIDsFIFO client) ≤ RECV_MSG_FIFO_MAX_LEN.

Definition bounded (rt : Runtime) : Prop :=
  Forall queues_bounded (connectedClients rt).

(** The events the server reacts to: the application calls [client.send] on
    the client at position [ci], a datagram arrives, the timer fires. *)
Inductive Operation : Type :=
  | Send (ci : nat) (payload : option (list Z))
  | Receive (datagram : list Z) (rinfo : RemoteInfo)
  | Tick.

Definition react (op : Operation) : M unit :=
  match op with
  | Send ci payload => client_send ci payload
  | Receive datagram rinfo => process datagram rinfo
  | Tick => tickClients
  end.

(** The state after a sequence of events; an event whose handler throws
    leaves the state it had reached. *)
Fixpoint run_operations (ops : list Operation) (rt : Runtime) : Runtime :=
  match ops with
  | [] => rt
  | op :: ops' => run_operations ops' (react op rt).2
  end.

(** A computation that does not touch [connectedClients]. *)
Definition keeps_clients {A} (m : M A) : Prop :=
  ∀ rt, connectedClients (m rt).2 = connectedClients rt.

(** A computation that changes at most time stamps of sent messages,
    whether it returns or throws. *)
Definition restamps {A} (m : M A) : Prop :=
  ∀ rt, Forall2 restamped (connectedClients rt) (connectedClients (m rt).2).

(** A computation that keeps the queues of all clients bounded, whether it
    returns or throws. *)
Definition maintains {A} (m : M A) : Prop :=
  ∀ rt, bounded rt → bounded (m rt).2.

(** ** The configuration file and the printed form of a UID *)

(** [String.prototype.replace(/\s/g, '')] and [Buffer.from(string, 'hex')],
    the two library calls [loadConfig] decodes a field with. *)
Variable remove_whitespace : string → string.

Variable Buffer_from_hex : string → list Z.

Definition with_authorizedGateways (gateways : list AuthorizedGateway) (rt : Runtime)
  : Runtime :=
  {| authorizedGateways := gateways;
     connectedClients := connectedClients rt;
     dateNowCalls := dateNowCalls rt;
     randomBytesDrawn := randomBytesDrawn rt;
     effects := effects rt |}.

(** The loop of [loadConfig] over [configFile.authorized_gateways]; a throw
    leaves [this.authorizedGateways] as the loop had built it. *)
Fixpoint loadGateways (entries : list GatewayConfig) (rt : Runtime)
  : option ConfigError * Runtime :=
  match entries with
  | [] => (None, rt)
  | gateway :: entries' =>
      let uid := Buffer_from_hex (remove_whitespace (cfg_uid gateway)) in
      if decide (length uid ≠ 4) then (Some UidLengthMustBe4, rt)
      else
        let key := Buffer_from_hex (remove_whitespace (cfg_key gateway)) in
        if decide (length key ≠ 32) then (Some GatewayKeyLengthMustBe32, rt)
        else
          loadGateways entries'
            (with_authorizedGateways
               (authorizedGateways rt ++ [{| ag_gatewayUID := uid; ag_key := key |}]) rt)
  end.

(** [loadConfig(configFilePath)] once the file has been read and parsed:
    [authorized_gateways] is the array of the parsed file. *)
Definition loadConfig (authorized_gateways : list GatewayConfig) (rt : Runtime)
  : option ConfigError * Runtime :=
  loadGateways authorized_gateways (with_authorizedGateways [] rt).

(** A digit of [Number.prototype.toString(16)]. *)
Definition hex_digit (d : Z) : ascii :=
  match d with
  | 0 => "0" | 1 => "1" | 2 => "2" | 3 => "3" | 4 => "4" | 5 => "5"
  | 6 => "6" | 7 => "7" | 8 => "8" | 9 => "9" | 10 => "a" | 11 => "b"
  | 12 => "c" | 13 => "d" | 14 => "e" | 15 => "f" | _ => "?"
  end%Z%char.

(** [v.toString(16)] for an element [v] of a buffer. *)
Definition toString16 (v : Z) : string :=
  if decide (v < 16)%Z then String (hex_digit v) EmptyString
  else String (hex_digit (v / 16)) (String (hex_digit (v mod 16)) EmptyString).

(** [s.padStart(targetLength, c)] for a one-character [c]. *)
Definition padStart (targetLength : nat) (c : ascii) (s : string) : string :=
  String.append
    (string_of_list_ascii (replicate (targetLength - String.length s) c)) s.

(** The loop of [uidToString]: two digits per byte, a space between bytes. *)
Fixpoint uidString_of (uid : list Z) : string :=
  match uid with
  | [] => EmptyString
  | v :: rest =>
      String.append (padStart 2 "0" (toString16 v))
        (String.append (match rest with [] => EmptyString | _ => " " end)
                       (uidString_of rest))
  end.

(** [SSGS.uidToString(uid)] on a buffer. *)
Definition uidToString (uid : list Z) : string :=
  if decide (length uid ≠ 4) then "Invalid UID"
  else String.append "[" (String.append (uidString_of uid) "]").

(** The table entry [loadConfig] builds from an entry of the file, and the
    sizes it checks. *)
Definition decoded (gateway : GatewayConfig) : AuthorizedGateway :=
  {| ag_gatewayUID := Buffer_from_hex (remove_whitespace (cfg_uid gateway));
     ag_key := Buffer_from_hex (remove_whitespace (cfg_key gateway)) |}.

Definition well_sized (authorizedGateway : AuthorizedGateway) : Prop :=
  length (ag_gatewayUID authorizedGateway) = 4
  ∧ length (ag_key authorizedGateway) = 32.

(** ** The server over time *)

(** What the server may do to a client object it holds: the UID and the key
    stay, and a next packet identifier of 16 bits stays one. *)
Definition evolved (client client' : Client) : Prop :=
  c_gatewayUID client' = c_gatewayUID client
  ∧ key client' = key client
  ∧ ((0 ≤ sendPacketID client ≤ 65535)%Z → (0 ≤ sendPacketID client' ≤ 65535)%Z).

(** A state with the same table and the same clients, each evolved. *)
Definition updated (rt rt' : Runtime) : Prop :=
  authorizedGateways rt' = authorizedGateways rt
  ∧ Forall2 evolved (connectedClients rt) (connectedClients rt').

(** A later state of the server: the same table, the same clients, each
    evolved, followed by the clients that have connected since. *)
Definition grown (rt rt' : Runtime) : Prop :=
  authorizedGateways rt' = authorizedGateways rt
  ∧ ∃ clients' added,
      connectedClients rt' = clients' ++ added
      ∧ Forall2 evolved (connectedClients rt) clients'.

(** Every client is well formed and no two clients have the same UID. *)
Definition consistent (rt : Runtime) : Prop :=
  Forall client_ok (connectedClients rt)
  ∧ NoDup (c_gatewayUID <$> connectedClients rt).

(** The datagrams the socket delivers are buffers. *)
Definition from_socket (op : Operation) : Prop :=
  match op with
  | Receive datagram _ => Forall is_byte datagram
  | _ => True
  end.

(** The datagrams the socket delivers are buffers, and these come from a
    port the socket can answer to. *)
Definition answerable (op : Operation) : Prop :=
  match op with
  | Receive datagram rinfo => Forall is_byte datagram ∧ valid_port (port rinfo)
  | _ => True
  end.

(** A computation after which the socket can still send to every client,
    whether it returns or throws. *)
Definition stays_reachable {A} (m : M A) : Prop :=
  ∀ rt, Forall reachable (connectedClients rt) →
        Forall reachable (connectedClients (m rt).2).

(** A computation that does not touch [authorizedGateways]. *)
Definition keeps_gateways {A} (m : M A) : Prop :=
  ∀ rt, authorizedGateways (m rt).2 = authorizedGateways rt.

(** ** Bytes *)

Lemma byte_val_is_byte (b : byte) : is_byte (byte_val b).
Proof.
  unfold is_byte, byte_val.
  pose proof (Byte.to_N_bounded b) as Hb.
  lia.
Qed.

Lemma to_uint8_is_byte (v : Z) : is_byte (to_uint8 v).
Proof. unfold is_byte, to_uint8. apply Z.mod_pos_bound. lia. Qed.

Lemma to_uint8_byte (v : Z) : is_byte v → to_uint8 v = v.
Proof. unfold is_byte, to_uint8. intros Hv. apply Z.mod_small. lia. Qed.

Lemma to_uint8_bytes (b : list Z) : Forall is_byte b → to_uint8 <$> b = b.
Proof.
  induction 1 as [|v b Hv _ IH]; [done|].
  cbn. by rewrite to_uint8_byte, IH.
Qed.

Lemma to_int32_small (v : Z) : (- 2 ^ 31 ≤ v < 2 ^ 31)%Z → to_int32 v = v.
Proof.
  intros Hv. unfold to_int32.
  rewrite Z.mod_small; lia.
Qed.

Lemma lxor_is_byte (a b : Z) : is_byte a → is_byte b → is_byte (Z.lxor a b).
Proof.
  unfold is_byte. intros [Ha0 Ha] [Hb0 Hb].
  split; [by apply Z.lxor_nonneg|].
  destruct (Z.eq_dec (Z.lxor a b) 0%Z) as [->|Hne]; [lia|].
  assert (0 < Z.lxor a b)%Z as Hpos.
  { pose proof (proj2 (Z.lxor_nonneg a b)) as H. lia. }
  apply (Z.log2_lt_cancel _ (2 ^ 8)%Z).
  rewrite Z.log2_pow2 by lia.
  eapply Z.le_lt_trans; [apply Z.log2_lxor; lia|].
  apply Z.max_lub_lt.
  - destruct (Z.eq_dec a 0%Z) as [->|]; [cbn; lia|].
    apply Z.log2_lt_pow2; lia.
  - destruct (Z.eq_dec b 0%Z) as [->|]; [cbn; lia|].
    apply Z.log2_lt_pow2; lia.
Qed.

Lemma lxor_cancel (a k : Z) : Z.lxor (Z.lxor a k) k = a.
Proof. by rewrite Z.lxor_assoc, Z.lxor_nilpotent, Z.lxor_0_r. Qed.

(** ** 16-bit packet identifiers *)

Lemma lor_shiftl_8 (hi lo : Z) :
  (0 ≤ hi)%Z → (0 ≤ lo < 256)%Z → Z.lor (Z.shiftl hi 8) lo = (hi * 256 + lo)%Z.
Proof.
  intros Hhi Hlo.
  assert (Z.land (Z.shiftl hi 8) lo = 0%Z) as Hdisjoint.
  { apply Z.bits_inj'. intros n Hn.
    rewrite Z.land_spec, Z.bits_0.
    destruct (Z.lt_ge_cases n 8) as [Hlt|Hge].
    - by rewrite Z.shiftl_spec_low.
    - rewrite (Z.bits_above_log2 lo n); [by rewrite andb_false_r|lia|].
      destruct (Z.eq_dec lo 0%Z) as [->|]; [change (Z.log2 0) with 0%Z; lia|].
      assert (Z.log2 lo < 8)%Z by (apply Z.log2_lt_pow2; lia).
      lia. }
  rewrite <- Z.lxor_lor by done.
  rewrite <- Z.add_nocarry_lxor by done.
  rewrite Z.shiftl_mul_pow2 by lia. reflexivity.
Qed.

Lemma getU16BE_bytes (hi lo : Z) :
  is_byte hi → is_byte lo → getU16BE [hi; lo] = (hi * 256 + lo)%Z.
Proof.
  unfold is_byte. intros Hhi Hlo.
  unfold getU16BE.
  change (byteAt [hi; lo] 0) with hi. change (byteAt [hi; lo] 1) with lo.
  unfold js_or, js_shl.
  assert (Z.shiftl hi 8 = hi * 256)%Z as Hshift
    by (rewrite Z.shiftl_mul_pow2; lia).
  rewrite (to_int32_small hi) by lia.
  rewrite (to_int32_small lo) by lia.
  rewrite !(to_int32_small (Z.shiftl hi 8)) by (rewrite Hshift; lia).
  apply lor_shiftl_8; lia.
Qed.

Lemma setU16BE_spec (v : Z) :
  (0 ≤ v ≤ 65535)%Z → setU16BE v = [(v / 256)%Z; (v mod 256)%Z].
Proof.
  intros Hv. unfold setU16BE, Buffer_from, js_sar, js_and.
  rewrite to_int32_small by lia.
  rewrite Z.shiftr_div_pow2 by lia. change (2 ^ 8)%Z with 256%Z.
  change (to_int32 255) with (Z.ones 8). rewrite Z.land_ones by lia.
  change (2 ^ 8)%Z with 256%Z.
  cbn [fmap list_fmap]. unfold to_uint8.
  rewrite Z.mod_mod by lia.
  rewrite (Z.mod_small (v / 256)); [done|].
  split; [apply Z.div_pos; lia|apply Z.div_lt_upper_bound; lia].
Qed.

Lemma getU16BE_setU16BE (v : Z) : (0 ≤ v ≤ 65535)%Z → getU16BE (setU16BE v) = v.
Proof.
  intros Hv. rewrite setU16BE_spec by done.
  rewrite getU16BE_bytes.
  - symmetry. rewrite Z.mul_comm. apply Z.div_mod. lia.
  - split; [apply Z.div_pos; lia|apply Z.div_lt_upper_bound; lia].
  - apply Z.mod_pos_bound. lia.
Qed.

Lemma setU16BE_is_bytes (v : Z) : Forall is_byte (setU16BE v).
Proof.
  unfold setU16BE, Buffer_from. cbn [fmap list_fmap].
  repeat (apply Forall_cons_2; [apply to_uint8_is_byte|]). apply Forall_nil_2.
Qed.

Lemma getU16BE_range (b : list Z) :
  Forall is_byte b → (0 ≤ getU16BE b ≤ 65535)%Z.
Proof.
  intros Hb.
  assert (is_byte (byteAt b 0) ∧ is_byte (byteAt b 1)) as [H0 H1].
  { unfold byteAt. split.
    - destruct (b !! 0) as [x|] eqn:Hx; cbn; [|unfold is_byte; lia].
      eapply Forall_lookup_1; eauto.
    - destruct (b !! 1) as [x|] eqn:Hx; cbn; [|unfold is_byte; lia].
      eapply Forall_lookup_1; eauto. }
  assert (getU16BE b = getU16BE [byteAt b 0; byteAt b 1]) as -> by done.
  rewrite getU16BE_bytes by done.
  unfold is_byte in *. lia.
Qed.

(** ** Buffers *)

Lemma Buffer_set_fits (target source : list Z) (offset : nat) :
  offset + length source ≤ length target →
  Buffer_set target source offset
  = Some (take offset target ++ (to_uint8 <$> source)
            ++ drop (offset + length source) target).
Proof. intros Hfits. unfold Buffer_set. by rewrite decide_True. Qed.

Lemma bind_ret {A B} (a : A) (k : A → M B) (rt : Runtime) :
  bind (ret a) k rt = k a rt.
Proof. reflexivity. Qed.

Lemma bind_Buffer_set {B} (target source : list Z) (offset : nat)
    (k : list Z → M B) (rt : Runtime) :
  offset + length source ≤ length target →
  bind (orRangeError (Buffer_set target source offset)) k rt
  = k (take offset target ++ (to_uint8 <$> source)
         ++ drop (offset + length source) target) rt.
Proof. intros Hfits. by rewrite Buffer_set_fits. Qed.

Lemma subarray_length (b : list Z) (start stop : nat) :
  stop ≤ length b → length (subarray b start stop) = stop - start.
Proof.
  intros Hstop. unfold subarray.
  rewrite length_drop, length_take. lia.
Qed.

Lemma bufferContainsValues_spec (buffer array : list Z) (offset : nat) :
  bufferContainsValues buffer offset array = true
  ↔ take (length array) (drop offset buffer) = array.
Proof.
  revert offset. induction array as [|v array IH]; intros offset.
  - cbn. by rewrite take_0.
  - cbn [bufferContainsValues length].
    destruct (drop offset buffer) as [|x rest] eqn:Hdrop.
    + assert (buffer !! offset = None) as Hnone.
      { apply lookup_ge_None.
        apply (f_equal length) in Hdrop. rewrite length_drop in Hdrop.
        cbn in Hdrop. lia. }
      rewrite decide_False by (rewrite Hnone; discriminate).
      split; discriminate.
    + assert (buffer !! offset = Some x) as Hsome.
      { rewrite <- (Nat.add_0_r offset), <- lookup_drop, Hdrop. reflexivity. }
      assert (drop (S offset) buffer = rest) as Hrest.
      { change (S offset) with (1 + offset).
        rewrite Nat.add_comm, <- drop_drop, Hdrop. reflexivity. }
      rewrite Hsome. cbn [take].
      destruct (decide (Some x = Some v)) as [[= ->]|Hne].
      * rewrite IH, Hrest. split; [by intros ->|by intros [= ->]].
      * split; [discriminate|intros [= -> _]; done].
Qed.

Lemma cipher_update_length (stream : nat → Z) (data : list Z) :
  length (cipher_update stream data) = length data.
Proof. apply length_imap. Qed.

Lemma cipher_update_involutive (stream : nat → Z) (data : list Z) :
  cipher_update stream (cipher_update stream data) = data.
Proof.
  apply list_eq. intros i. unfold cipher_update.
  rewrite !list_lookup_imap.
  destruct (data !! i) as [b|]; [|done].
  cbn. by rewrite lxor_cancel.
Qed.

Lemma cipher_update_is_bytes (stream : nat → Z) (data : list Z) :
  (∀ i, is_byte (stream i)) → Forall is_byte data →
  Forall is_byte (cipher_update stream data).
Proof.
  intros Hstream Hdata. apply Forall_lookup. intros i x.
  unfold cipher_update. rewrite list_lookup_imap.
  destruct (data !! i) as [b|] eqn:Hb; [|done].
  intros [= <-]. apply lxor_is_byte; [|done].
  eapply Forall_lookup_1; eauto.
Qed.

Lemma stream_of_is_byte (key iv8 : list Z) (i : nat) : is_byte (stream_of key iv8 i).
Proof. apply byte_val_is_byte. Qed.

Lemma iv_at_length (n : nat) : length (iv_at n) = 8.
Proof. reflexivity. Qed.

Lemma iv_at_is_bytes (n : nat) : Forall is_byte (iv_at n).
Proof.
  unfold iv_at. apply Forall_fmap, Forall_forall.
  intros i _. apply byte_val_is_byte.
Qed.

Lemma plaintext_of_length (packet : Packet) :
  length (plaintext_of packet)
  = 8 + length (default [] (payload packet))
    + (4 - (8 + length (default [] (payload packet))) `mod` 4).
Proof.
  unfold plaintext_of.
  rewrite !length_app, length_fmap, length_replicate.
  change (length (setU16BE (packetID packet))) with 2.
  cbn [length]. lia.
Qed.

Lemma plaintext_of_is_bytes (packet : Packet) : Forall is_byte (plaintext_of packet).
Proof.
  unfold plaintext_of.
  repeat apply Forall_app_2.
  - repeat (apply Forall_cons_2;
              [first [apply to_uint8_is_byte | unfold is_byte; lia]|]).
    apply Forall_nil_2.
  - apply setU16BE_is_bytes.
  - apply Forall_cons_2; [apply to_uint8_is_byte|apply Forall_nil_2].
  - apply Forall_fmap, Forall_forall. intros v _. apply to_uint8_is_byte.
  - apply Forall_replicate. unfold is_byte. lia.
Qed.

(** ** [packSSGSCP] computes the wire image *)

Ltac list_length :=
  unfold Buffer_alloc, cipher_update;
  repeat first
    [ rewrite length_app | rewrite length_take | rewrite length_drop
    | rewrite length_fmap | rewrite length_replicate | rewrite length_imap ];
  cbn [length]; try lia.

Lemma plaintext_writes (t L : Z) (id payload : list Z) (pad : nat) :
  length id = 2 →
  let b0 := Buffer_alloc (8 + length payload + pad) in
  let b1 := take 0 b0 ++ (to_uint8 <$> [t]) ++ drop (0 + length [t]) b0 in
  let b2 := take 1 b1 ++ (to_uint8 <$> [0; 1; 2; 3]%Z) ++ drop (1 + length [0; 1; 2; 3]%Z) b1 in
  let b3 := take 5 b2 ++ (to_uint8 <$> id) ++ drop (5 + length id) b2 in
  let b4 := take 7 b3 ++ (to_uint8 <$> [L]) ++ drop (7 + length [L]) b3 in
  take 8 b4 ++ (to_uint8 <$> payload) ++ drop (8 + length payload) b4
  = [to_uint8 t; 0; 1; 2; 3]%Z ++ (to_uint8 <$> id) ++ [to_uint8 L]
      ++ (to_uint8 <$> payload) ++ replicate pad 0%Z.
Proof.
  intros Hid. destruct id as [|i0 [|i1 [|]]]; try discriminate Hid.
  unfold Buffer_alloc.
  replace (8 + length payload + pad) with (8 + (length payload + pad)) by lia.
  cbn [replicate Nat.add take drop fmap list_fmap length app].
  rewrite !drop_0, take_0, drop_replicate_add. reflexivity.
Qed.

Lemma packet_writes (iv8 uid enc : list Z) :
  length iv8 = 8 → length uid = 4 → 4 ≤ length enc →
  let iv := take 0 (Buffer_alloc 16) ++ (to_uint8 <$> iv8)
              ++ drop (0 + length iv8) (Buffer_alloc 16) in
  let p0 := Buffer_alloc (18 + length enc) in
  let p1 := take 0 p0 ++ (to_uint8 <$> PACKET_IDENTIFIER)
              ++ drop (0 + length PACKET_IDENTIFIER) p0 in
  let p2 := take 6 p1 ++ (to_uint8 <$> iv) ++ drop (6 + length iv) p1 in
  let p3 := take 14 p2 ++ (to_uint8 <$> uid) ++ drop (14 + length uid) p2 in
  take 18 p3 ++ (to_uint8 <$> enc) ++ drop (18 + length enc) p3
  = PACKET_IDENTIFIER ++ (to_uint8 <$> (to_uint8 <$> iv8)) ++ (to_uint8 <$> uid)
      ++ (to_uint8 <$> enc).
Proof.
  intros Hiv Huid Henc.
  destruct iv8 as [|e0 [|e1 [|e2 [|e3 [|e4 [|e5 [|e6 [|e7 [|]]]]]]]]];
    try discriminate Hiv.
  destruct uid as [|u0 [|u1 [|u2 [|u3 [|]]]]]; try discriminate Huid.
  destruct enc as [|c0 [|c1 [|c2 [|c3 enc]]]]; try (cbn in Henc; lia).
  unfold Buffer_alloc.
  cbn [replicate Nat.add take drop fmap list_fmap length app PACKET_IDENTIFIER Buffer_from].
  rewrite drop_0, drop_ge, app_nil_r by (rewrite length_replicate; lia).
  reflexivity.
Qed.

Lemma Buffer_concat_final (data : list Z) : Buffer_concat [data; cipher_final] = data.
Proof. unfold Buffer_concat, cipher_final. cbn. by rewrite app_nil_r. Qed.

Lemma bind_randomBytes {B} (n : nat) (k : list Z → M B) (rt : Runtime) :
  bind (randomBytes n) k rt
  = k ((λ i, byte_val (entropy (randomBytesDrawn rt + i))) <$> seq 0 n) (drawn n rt).
Proof. reflexivity. Qed.

Lemma bind_createCipheriv {B} (key iv : list Z) (k : (nat → Z) → M B) (rt : Runtime) :
  length key = 32 → length iv = 16 →
  bind (createCipheriv key iv) k rt = k (λ i, byte_val (keystream key iv i)) rt.
Proof.
  intros Hkey Hiv. unfold createCipheriv.
  rewrite decide_False by (intros H; by apply H).
  rewrite decide_False by (intros H; by apply H).
  reflexivity.
Qed.

Lemma iv16_of_iv8 (iv8 : list Z) :
  length iv8 = 8 →
  take 0 (Buffer_alloc 16) ++ (to_uint8 <$> iv8) ++ drop (0 + length iv8) (Buffer_alloc 16)
  = (to_uint8 <$> iv8) ++ Buffer_alloc 8.
Proof. intros ->. reflexivity. Qed.

Lemma packSSGSCP_run (packet : Packet) (uid key : list Z) (rt : Runtime) :
  valid_fields packet uid → length key = 32 →
  packSSGSCP packet key rt
  = (Normal (Some (wire_of packet uid key (iv_at (randomBytesDrawn rt)))), drawn 8 rt).
Proof.
  intros (Htype & Huid & Hlen & Hid) Hkey.
  unfold packSSGSCP.
  rewrite decide_False by lia.
  rewrite Huid, bool_decide_false by (intros H; by apply H).
  rewrite decide_False by lia.
  cbv zeta.
  set (pl := default (Buffer_alloc 0) (payload packet)).
  set (pad := 4 - (8 + length pl) `mod` 4).
  assert (length (setU16BE (packetID packet)) = 2) as Hid2 by reflexivity.
  do 5 (rewrite bind_Buffer_set by (rewrite ?Hid2; list_length); cbv beta).
  rewrite (plaintext_writes _ _ _ pl pad Hid2).
  rewrite (to_uint8_bytes _ (setU16BE_is_bytes _)).
  change ([to_uint8 (packetType packet); 0; 1; 2; 3]%Z ++ _)
    with (plaintext_of packet).
  rewrite bind_randomBytes. fold (iv_at (randomBytesDrawn rt)).
  set (iv8 := iv_at (randomBytesDrawn rt)).
  assert (length iv8 = 8) as Hiv8 by reflexivity.
  rewrite bind_Buffer_set by (rewrite Hiv8; list_length). cbv beta.
  rewrite bind_createCipheriv by (rewrite ?Hiv8; list_length; done). cbv beta.
  rewrite !Buffer_concat_final.
  set (enc := cipher_update _ (plaintext_of packet)).
  assert (length enc = 8 + length pl + pad) as Henc.
  { unfold enc. rewrite cipher_update_length. apply plaintext_of_length. }
  assert (length PACKET_IDENTIFIER = 6) as Hmagic by reflexivity.
  do 4 (rewrite bind_Buffer_set
          by (list_length; rewrite ?Hiv8, ?Hlen, ?Henc, ?Hmagic; cbn [length]; lia);
        cbv beta).
  rewrite (packet_writes iv8 uid enc Hiv8 Hlen) by lia.
  assert (to_uint8 <$> iv8 = iv8) as Hiv by apply to_uint8_bytes, iv_at_is_bytes.
  unfold enc. rewrite iv16_of_iv8, !Hiv by done.
  rewrite (to_uint8_bytes (cipher_update _ _))
    by (apply cipher_update_is_bytes;
        [intros i; apply byte_val_is_byte|apply plaintext_of_is_bytes]).
  reflexivity.
Qed.

(** ** [parseSSGSCP] on an arbitrary datagram *)

Lemma isSSGSCP_spec (datagram : list Z) :
  isSSGSCP datagram = true
  ↔ 26 ≤ length datagram ∧ take 6 datagram = PACKET_IDENTIFIER.
Proof.
  unfold isSSGSCP.
  destruct (decide (length datagram < 18 + 8)) as [Hshort|Hlong].
  - split; [discriminate|intros [Hlen _]; cbn in Hshort; lia].
  - pose proof (bufferContainsValues_spec datagram PACKET_IDENTIFIER 0) as Hmagic.
    rewrite drop_0 in Hmagic. change (length PACKET_IDENTIFIER) with 6 in Hmagic.
    destruct (bufferContainsValues datagram 0 PACKET_IDENTIFIER); cbn [negb].
    + split; [intros _|done]. split; [cbn in Hlong; lia|by apply Hmagic].
    + split; [discriminate|]. intros [_ Htake]. by apply Hmagic.
Qed.

Lemma parseSSGSCP_null (datagram key : list Z) (rt : Runtime) :
  isSSGSCP datagram = false → parseSSGSCP datagram key rt = (Normal None, rt).
Proof. intros Hno. unfold parseSSGSCP. by rewrite Hno. Qed.

Lemma parseSSGSCP_run (datagram key : list Z) (rt : Runtime) :
  isSSGSCP datagram = true → length key = 32 →
  parseSSGSCP datagram key rt = (Normal (Some (parsed_of datagram key)), rt).
Proof.
  intros Hyes Hkey. unfold parseSSGSCP. rewrite Hyes. cbn [negb]. cbv zeta.
  apply isSSGSCP_spec in Hyes as [Hlen _].
  assert (length (subarray datagram 6 14) = 8) as Hiv8
    by (rewrite subarray_length; lia).
  rewrite bind_Buffer_set by (rewrite Hiv8; list_length). cbv beta.
  unfold createDecipheriv.
  rewrite bind_createCipheriv by (rewrite ?Hiv8; list_length; rewrite ?Hiv8; done).
  cbv beta. rewrite !Buffer_concat_final, iv16_of_iv8 by done.
  unfold parsed_of, decryptedPortion_of, stream_of.
  by destruct (bufferContainsValues _ 0 [0; 1; 2; 3]%Z).
Qed.

Lemma parseSSGSCP_keeps_state (datagram key : list Z) (rt : Runtime) :
  (parseSSGSCP datagram key rt).2 = rt.
Proof.
  unfold parseSSGSCP. destruct (isSSGSCP datagram); cbn [negb]; [|done].
  cbv zeta. unfold orRangeError.
  destruct (Buffer_set _ _ 0) as [iv16|]; [|done].
  rewrite bind_ret. unfold createDecipheriv, createCipheriv.
  repeat case_decide; try done.
  rewrite bind_ret. by destruct (negb _).
Qed.

(** ** [parseSSGSCP] on the wire image of a packet *)

Lemma subarray_app_mid (l1 l2 l3 : list Z) (start stop : nat) :
  start = length l1 → stop = length l1 + length l2 →
  subarray (l1 ++ l2 ++ l3) start stop = l2.
Proof.
  intros -> ->. unfold subarray.
  rewrite app_assoc, take_app_length' by (rewrite length_app; lia).
  apply drop_app_length.
Qed.

Lemma subarray_take_drop (b : list Z) (start n : nat) :
  subarray b start (start + n) = take n (drop start b).
Proof. unfold subarray. symmetry. apply take_drop_commute. Qed.

Lemma wire_of_isSSGSCP (packet : Packet) (uid key iv8 : list Z) :
  length iv8 = 8 → length uid = 4 → isSSGSCP (wire_of packet uid key iv8) = true.
Proof.
  intros Hiv Huid. apply isSSGSCP_spec. unfold wire_of. split.
  - rewrite !length_app, length_fmap, cipher_update_length, plaintext_of_length.
    change (length PACKET_IDENTIFIER) with 6. lia.
  - by apply take_app_length'.
Qed.

Lemma wire_of_decrypted (packet : Packet) (uid key iv8 : list Z) :
  length iv8 = 8 → Forall is_byte iv8 → length uid = 4 →
  decryptedPortion_of (wire_of packet uid key iv8) key = plaintext_of packet.
Proof.
  intros Hiv Hbytes Huid. unfold decryptedPortion_of, wire_of.
  rewrite (subarray_app_mid PACKET_IDENTIFIER iv8) by (rewrite ?Hiv; done).
  rewrite to_uint8_bytes by done.
  rewrite !app_assoc, drop_app_length'
    by (rewrite !length_app, length_fmap, Hiv, Huid; done).
  apply cipher_update_involutive.
Qed.

Lemma wire_of_gatewayUID (packet : Packet) (uid key iv8 : list Z) :
  length iv8 = 8 → length uid = 4 →
  subarray (wire_of packet uid key iv8) 14 18 = to_uint8 <$> uid.
Proof.
  intros Hiv Huid. unfold wire_of.
  rewrite (app_assoc PACKET_IDENTIFIER).
  apply subarray_app_mid; rewrite ?length_app, ?length_fmap, ?Hiv, ?Huid; done.
Qed.

Lemma parsed_of_wire (packet : Packet) (uid key iv8 : list Z) :
  valid_fields packet uid → length iv8 = 8 → Forall is_byte iv8 →
  parsed_of (wire_of packet uid key iv8) key
  = Parsed (packetType packet) [0; 1; 2; 3]%Z (to_uint8 <$> uid) (packetID packet)
      (take (Z.to_nat (to_uint8 (Z.of_nat (length (default [] (payload packet))))))
            (to_uint8 <$> default [] (payload packet))).
Proof.
  intros (Htype & Huid & Hlen & Hid) Hiv Hbytes.
  unfold parsed_of.
  rewrite wire_of_decrypted, wire_of_gatewayUID by done.
  set (pl := default [] (payload packet)).
  assert (plaintext_of packet
          = to_uint8 (packetType packet) :: 0 :: 1 :: 2 :: 3
            :: (packetID packet / 256) :: (packetID packet `mod` 256)
            :: to_uint8 (Z.of_nat (length pl))
            :: (to_uint8 <$> pl) ++ replicate (4 - (8 + length pl) `mod` 4) 0)%Z
    as ->.
  { unfold plaintext_of. by rewrite setU16BE_spec. }
  change (subarray (_ :: _) 1 5) with [0; 1; 2; 3]%Z.
  change (bufferContainsValues [0; 1; 2; 3]%Z 0 [0; 1; 2; 3]%Z) with true.
  cbv iota.
  change (subarray (_ :: _) 5 7)
    with [packetID packet / 256; packetID packet `mod` 256]%Z.
  rewrite <- setU16BE_spec, getU16BE_setU16BE by done.
  change (byteAt (_ :: _) 0) with (to_uint8 (packetType packet)).
  change (byteAt (_ :: _) 7) with (to_uint8 (Z.of_nat (length pl))).
  rewrite subarray_take_drop. cbn [drop].
  rewrite to_uint8_byte by (unfold is_byte; lia).
  f_equal. apply take_app_le.
  rewrite length_fmap. unfold to_uint8.
  pose proof (Z.mod_le (Z.of_nat (length pl)) 256). 
  pose proof (Z.mod_pos_bound (Z.of_nat (length pl)) 256). lia.
Qed.

(** ** The codec: length, round trip, outcomes of parsing *)

(** C1: the length of the datagram [packSSGSCP] returns, for a packet with
    fields of valid width and a 32-byte key: [18 + (8 + L) + (4 - (8 + L) mod
    4)] bytes, [L] being the length of the payload. This is
    [18 + ceil((8 + L) / 4) * 4], the length of the wire format, exactly when
    [8 + L] is not a multiple of 4. When it is one, [4 - (8 + L) mod 4] is 4
    and not 0: the plaintext, already padded to 4 bytes, gets four more zero
    bytes, and an empty payload gives an encrypted portion of 12 bytes
    instead of 8. *)
Theorem packSSGSCP_length (packet : Packet) (uid key : list Z) (rt : Runtime) :
  valid_fields packet uid → length key = 32 →
  ∃ datagram,
    (packSSGSCP packet key rt).1 = Normal (Some datagram)
    ∧ let L := length (default [] (payload packet)) in
      length datagram = 18 + (8 + L + (4 - (8 + L) `mod` 4))
      ∧ length datagram = 18 + ((8 + L) `div` 4 + 1) * 4
      ∧ ((8 + L) `mod` 4 ≠ 0 → length datagram = 18 + ((8 + L + 3) `div` 4) * 4)
      ∧ (L = 0 → length (drop 18 datagram) = 12).
Proof.
  intros Hvalid Hkey.
  rewrite (packSSGSCP_run packet uid key rt Hvalid Hkey).
  eexists. split; [reflexivity|]. cbv zeta.
  set (L := length (default [] (payload packet))).
  destruct Hvalid as (_ & _ & Huid & _).
  assert (length (wire_of packet uid key (iv_at (randomBytesDrawn rt)))
          = 18 + (8 + L + (4 - (8 + L) `mod` 4))) as Hlen.
  { unfold wire_of.
    rewrite !length_app, length_fmap, cipher_update_length, plaintext_of_length.
    change (length PACKET_IDENTIFIER) with 6. rewrite iv_at_length, Huid.
    fold L. lia. }
  pose proof (Nat.div_mod_eq (8 + L) 4) as Hdiv.
  pose proof (Nat.mod_upper_bound (8 + L) 4) as Hmod.
  split; [exact Hlen|]. split; [lia|]. split.
  - intros Hrem. rewrite Hlen. f_equal.
    assert ((8 + L + 3) `div` 4 = (8 + L) `div` 4 + 1) as ->; [|lia].
    symmetry. apply Nat.div_unique with ((8 + L) `mod` 4 - 1); lia.
  - intros HL. rewrite length_drop, Hlen, HL. reflexivity.
Qed.

(** C2: for a packet with [packetType] in [0,255], a 4-byte [gatewayUID],
    [packetID] in [0,65535], a payload of at most 255 bytes, and a 32-byte
    key, parsing the packed datagram with the same key succeeds with
    [authSuccess = true] and gives back the type, the UID, the packet
    identifier and the payload. *)
Theorem codec_roundtrip (packet : Packet) (uid key : list Z) (rt rt' : Runtime) :
  valid_fields packet uid → Forall is_byte uid →
  Forall is_byte (default [] (payload packet)) →
  length (default [] (payload packet)) ≤ 255 →
  length key = 32 →
  ∃ datagram parsed,
    (packSSGSCP packet key rt).1 = Normal (Some datagram)
    ∧ (parseSSGSCP datagram key rt').1 = Normal (Some parsed)
    ∧ authSuccess parsed = true
    ∧ parsed = Parsed (packetType packet) [0; 1; 2; 3]%Z uid (packetID packet)
                      (default [] (payload packet)).
Proof.
  intros Hvalid Huid Hpayload Hshort Hkey.
  rewrite (packSSGSCP_run packet uid key rt Hvalid Hkey).
  eexists. eexists. split; [reflexivity|].
  rewrite parseSSGSCP_run;
    [|apply wire_of_isSSGSCP; [apply iv_at_length|apply Hvalid]|done].
  rewrite parsed_of_wire by (auto using iv_at_length, iv_at_is_bytes).
  rewrite !to_uint8_bytes by done.
  rewrite to_uint8_byte by (unfold is_byte; lia).
  rewrite Nat2Z.id, take_ge by lia.
  done.
Qed.

(** C3: [parseSSGSCP] returns [null] exactly when the datagram is shorter than
    26 bytes or does not start with "SSGSCP". Otherwise, when the four
    decrypted bytes at offset 1 are not [0, 1, 2, 3] it returns
    [{ authSuccess: false }], and when they are it returns all the fields, the
    payload being the bytes after offset 8 cut at the declared length. *)
Theorem parseSSGSCP_outcomes (datagram key : list Z) (rt : Runtime) :
  length key = 32 →
  let malformed :=
    length datagram < 26 ∨ take 6 datagram ≠ [83; 83; 71; 83; 67; 80]%Z in
  let decrypted := decryptedPortion_of datagram key in
  ((parseSSGSCP datagram key rt).1 = Normal None ↔ malformed)
  ∧ (¬ malformed → subarray decrypted 1 5 ≠ [0; 1; 2; 3]%Z →
     (parseSSGSCP datagram key rt).1 = Normal (Some AuthFailed))
  ∧ (¬ malformed → subarray decrypted 1 5 = [0; 1; 2; 3]%Z →
     (parseSSGSCP datagram key rt).1
     = Normal (Some (Parsed (byteAt decrypted 0) [0; 1; 2; 3]%Z
                            (subarray datagram 14 18)
                            (getU16BE (subarray decrypted 5 7))
                            (take (Z.to_nat (byteAt decrypted 7)) (drop 8 decrypted))))).
Proof.
  intros Hkey malformed decrypted.
  assert (isSSGSCP datagram = true ↔ ¬ malformed) as Hwell.
  { rewrite isSSGSCP_spec. unfold malformed.
    change PACKET_IDENTIFIER with [83; 83; 71; 83; 67; 80]%Z.
    destruct (decide (take 6 datagram = [83; 83; 71; 83; 67; 80]%Z)); split;
      [intros [? _] [?|?]; [lia|done] | intros Hn; split; [lia|done]
      | intros [_ ?]; done | intros Hn; exfalso; apply Hn; by right]. }
  destruct (isSSGSCP datagram) eqn:Hmagic.
  - assert (¬ malformed) as Hok by by apply Hwell.
    rewrite parseSSGSCP_run by done. cbn [fst].
    assert (bufferContainsValues (subarray decrypted 1 5) 0 [0; 1; 2; 3]%Z = true
            ↔ subarray decrypted 1 5 = [0; 1; 2; 3]%Z) as Hauth.
    { rewrite bufferContainsValues_spec, drop_0.
      rewrite take_ge; [done|].
      unfold subarray. rewrite length_drop, length_take. cbn [length]. lia. }
    unfold parsed_of. fold decrypted.
    split; [split; [discriminate|done]|].
    destruct (bufferContainsValues (subarray decrypted 1 5) 0 [0; 1; 2; 3]%Z).
    + assert (subarray decrypted 1 5 = [0; 1; 2; 3]%Z) as Heq by by apply Hauth.
      split; [done|]. intros _ _.
      by rewrite Heq, (subarray_take_drop decrypted 8).
    + split; [done|]. intros _ Heq. apply Hauth in Heq. discriminate.
  - assert (malformed) as Hbad.
    { destruct (decide malformed) as [|Hn]; [done|].
      apply Hwell in Hn. discriminate. }
    rewrite parseSSGSCP_null by done. cbn [fst].
    split; [done|]. split; intros Hn; by destruct Hn.
Qed.

(** C10: [packSSGSCP] accepts a payload of more than 255 bytes. The datagram
    it returns declares the payload length [L mod 256], and parsing it
    succeeds with the first [L mod 256] bytes of the payload, which is not
    the payload that was packed. *)
Theorem packSSGSCP_long_payload (packet : Packet) (uid key pl : list Z)
    (rt rt' : Runtime) :
  valid_fields packet uid → Forall is_byte uid →
  payload packet = Some pl → Forall is_byte pl → 255 < length pl →
  length key = 32 →
  ∃ datagram,
    (packSSGSCP packet key rt).1 = Normal (Some datagram)
    ∧ byteAt (decryptedPortion_of datagram key) 7 = (Z.of_nat (length pl) `mod` 256)%Z
    ∧ (parseSSGSCP datagram key rt').1
      = Normal (Some (Parsed (packetType packet) [0; 1; 2; 3]%Z uid (packetID packet)
                             (take (length pl `mod` 256) pl)))
    ∧ take (length pl `mod` 256) pl ≠ pl.
Proof.
  intros Hvalid Huid Hpayload Hbytes Hlong Hkey.
  rewrite (packSSGSCP_run packet uid key rt Hvalid Hkey).
  eexists. split; [reflexivity|].
  pose proof (Nat.mod_upper_bound (length pl) 256) as Hmod.
  assert (Z.to_nat (to_uint8 (Z.of_nat (length pl))) = length pl `mod` 256) as Hdeclared.
  { unfold to_uint8. change 256%Z with (Z.of_nat 256).
    rewrite <- Nat2Z.inj_mod. apply Nat2Z.id. }
  split; [|split].
  - rewrite wire_of_decrypted
      by (destruct Hvalid as (_ & _ & ? & _); auto using iv_at_length, iv_at_is_bytes).
    unfold plaintext_of. rewrite Hpayload.
    reflexivity.
  - rewrite parseSSGSCP_run;
      [|apply wire_of_isSSGSCP; [apply iv_at_length|apply Hvalid]|done].
    rewrite parsed_of_wire by (auto using iv_at_length, iv_at_is_bytes).
    rewrite Hpayload. cbn [default from_option id].
    by rewrite Hdeclared, !to_uint8_bytes.
  - intros Heq. apply (f_equal length) in Heq.
    rewrite length_take in Heq. lia.
Qed.

(** ** Running the server's primitives *)

Lemma bind_gets {A B} (f : Runtime → A) (k : A → M B) (rt : Runtime) :
  bind (gets f) k rt = k (f rt) rt.
Proof. reflexivity. Qed.

Lemma bind_Date_now {B} (k : Z → M B) (rt : Runtime) :
  bind Date_now k rt = k (clock (dateNowCalls rt)) (ticked rt).
Proof. reflexivity. Qed.

Lemma bind_perform {B} (e : Effect) (k : unit → M B) (rt : Runtime) :
  bind (perform e) k rt = k tt (emitted e rt).
Proof. reflexivity. Qed.

Lemma bind_socket_send {B} (msg : list Z) (p : Z) (a : string) (k : unit → M B)
    (rt : Runtime) :
  valid_port p →
  bind (socket_send (Some msg) p a) k rt = k tt (emitted (SocketSend msg p a) rt).
Proof. intros Hport. unfold socket_send. by rewrite decide_True. Qed.

Lemma bind_socket_send_bad_port {B} (msg : list Z) (p : Z) (a : string) (k : unit → M B)
    (rt : Runtime) :
  ¬ valid_port p →
  bind (socket_send (Some msg) p a) k rt = (Thrown SocketBadPort, rt).
Proof. intros Hport. unfold socket_send. by rewrite decide_False. Qed.

Lemma bind_store_client {B} (ci : nat) (client : Client) (k : unit → M B)
    (rt : Runtime) :
  bind (store_client ci client) k rt
  = k tt (with_clients (<[ci := client]> (connectedClients rt)) rt).
Proof. reflexivity. Qed.

Lemma bind_packSSGSCP {B} (packet : Packet) (uid key : list Z)
    (k : option (list Z) → M B) (rt : Runtime) :
  valid_fields packet uid → length key = 32 →
  bind (packSSGSCP packet key) k rt
  = k (Some (wire_of packet uid key (iv_at (randomBytesDrawn rt)))) (drawn 8 rt).
Proof.
  intros Hvalid Hkey. unfold bind at 1.
  by rewrite (packSSGSCP_run packet uid key rt Hvalid Hkey).
Qed.

Lemma bind_parseSSGSCP {B} (datagram key : list Z)
    (k : option ParsedSSGSCPPacket → M B) (rt : Runtime) :
  isSSGSCP datagram = true → length key = 32 →
  bind (parseSSGSCP datagram key) k rt = k (Some (parsed_of datagram key)) rt.
Proof.
  intros Hmagic Hkey. unfold bind at 1.
  by rewrite parseSSGSCP_run.
Qed.

(** The datagram a [send...] helper transmits when [n] random bytes have been
    drawn so far. *)
Lemma fields_of_valid (ptype : Z) (uid : list Z) (pid : Z) :
  (0 ≤ ptype ≤ 255)%Z → length uid = 4 → (0 ≤ pid ≤ 65535)%Z →
  valid_fields (fields_of ptype uid pid) uid.
Proof. intros. unfold valid_fields, fields_of. cbn. auto. Qed.

Lemma send_fields_run (ptype : Z) (rinfo : RemoteInfo) (key uid : list Z) (pid : Z)
    (rt : Runtime) :
  (0 ≤ ptype ≤ 255)%Z → length uid = 4 → (0 ≤ pid ≤ 65535)%Z → length key = 32 →
  valid_port (port rinfo) →
  (let* packedPacket := packSSGSCP (fields_of ptype uid pid) key in
   socket_send packedPacket (port rinfo) (address rinfo)) rt
  = (Normal tt,
     emitted (SocketSend (wire_of (fields_of ptype uid pid) uid key
                                  (iv_at (randomBytesDrawn rt)))
                         (port rinfo) (address rinfo))
             (drawn 8 rt)).
Proof.
  intros Htype Huid Hpid Hkey Hport.
  rewrite (bind_packSSGSCP _ uid) by auto using fields_of_valid.
  unfold socket_send. by rewrite decide_True.
Qed.

(** A reply to a port the socket refuses: the packet is packed, then
    [socket.send] throws. *)
Lemma send_fields_bad_port (ptype : Z) (rinfo : RemoteInfo) (key uid : list Z) (pid : Z)
    (rt : Runtime) :
  (0 ≤ ptype ≤ 255)%Z → length uid = 4 → (0 ≤ pid ≤ 65535)%Z → length key = 32 →
  ¬ valid_port (port rinfo) →
  (let* packedPacket := packSSGSCP (fields_of ptype uid pid) key in
   socket_send packedPacket (port rinfo) (address rinfo)) rt
  = (Thrown SocketBadPort, drawn 8 rt).
Proof.
  intros Htype Huid Hpid Hkey Hport.
  rewrite (bind_packSSGSCP _ uid) by auto using fields_of_valid.
  unfold socket_send. by rewrite decide_False.
Qed.

Lemma sendCONNFAIL_run (rinfo : RemoteInfo) (uid : list Z) (rt : Runtime) :
  length uid = 4 → valid_port (port rinfo) →
  sendCONNFAIL rinfo uid rt
  = (Normal tt,
     emitted (SocketSend (wire_of (fields_of CONNFAIL uid 0) uid (Buffer_alloc 32)
                                  (iv_at (randomBytesDrawn rt)))
                         (port rinfo) (address rinfo))
             (drawn 8 rt)).
Proof. intros Huid Hport. by apply send_fields_run. Qed.

Lemma sendCONNFAIL_bad_port (rinfo : RemoteInfo) (uid : list Z) (rt : Runtime) :
  length uid = 4 → ¬ valid_port (port rinfo) →
  sendCONNFAIL rinfo uid rt = (Thrown SocketBadPort, drawn 8 rt).
Proof. intros Huid Hport. by apply send_fields_bad_port. Qed.

Lemma sendCONNACPT_run (rinfo : RemoteInfo) (key uid : list Z) (rt : Runtime) :
  length uid = 4 → length key = 32 → valid_port (port rinfo) →
  sendCONNACPT rinfo key uid rt
  = (Normal tt,
     emitted (SocketSend (wire_of (fields_of CONNACPT uid 0) uid key
                                  (iv_at (randomBytesDrawn rt)))
                         (port rinfo) (address rinfo))
             (drawn 8 rt)).
Proof. intros Huid Hkey Hport. by apply send_fields_run. Qed.

Lemma sendCONNACPT_bad_port (rinfo : RemoteInfo) (key uid : list Z) (rt : Runtime) :
  length uid = 4 → length key = 32 → ¬ valid_port (port rinfo) →
  sendCONNACPT rinfo key uid rt = (Thrown SocketBadPort, drawn 8 rt).
Proof. intros Huid Hkey Hport. by apply send_fields_bad_port. Qed.

Lemma sendRCPTOK_run (pid : Z) (rinfo : RemoteInfo) (key uid : list Z) (rt : Runtime) :
  length uid = 4 → length key = 32 → (0 ≤ pid ≤ 65535)%Z → valid_port (port rinfo) →
  sendRCPTOK pid rinfo key uid rt
  = (Normal tt,
     emitted (SocketSend (wire_of (fields_of RCPTOK uid pid) uid key
                                  (iv_at (randomBytesDrawn rt)))
                         (port rinfo) (address rinfo))
             (drawn 8 rt)).
Proof. intros Huid Hkey Hpid Hport. by apply send_fields_run. Qed.

Lemma sendRCPTOK_bad_port (pid : Z) (rinfo : RemoteInfo) (key uid : list Z)
    (rt : Runtime) :
  length uid = 4 → length key = 32 → (0 ≤ pid ≤ 65535)%Z → ¬ valid_port (port rinfo) →
  sendRCPTOK pid rinfo key uid rt = (Thrown SocketBadPort, drawn 8 rt).
Proof. intros Huid Hkey Hpid Hport. by apply send_fields_bad_port. Qed.

(** What the peer reads in such a datagram. *)
Lemma parse_sent_fields (ptype : Z) (uid key : list Z) (pid : Z) (n : nat)
    (rt : Runtime) :
  (0 ≤ ptype ≤ 255)%Z → length uid = 4 → Forall is_byte uid →
  (0 ≤ pid ≤ 65535)%Z → length key = 32 →
  (parseSSGSCP (wire_of (fields_of ptype uid pid) uid key (iv_at n)) key rt).1
  = Normal (Some (Parsed ptype [0; 1; 2; 3]%Z uid pid [])).
Proof.
  intros Htype Huid Hbytes Hpid Hkey.
  rewrite parseSSGSCP_run by (auto using wire_of_isSSGSCP, iv_at_length).
  rewrite parsed_of_wire
    by (auto using fields_of_valid, iv_at_length, iv_at_is_bytes).
  by rewrite to_uint8_bytes.
Qed.

(** ** What a successful parse tells about the datagram *)

Lemma parseSSGSCP_bad_key (datagram key : list Z) (rt : Runtime) :
  isSSGSCP datagram = true → length key ≠ 32 →
  (parseSSGSCP datagram key rt).1 = Thrown InvalidKeyLength.
Proof.
  intros Hmagic Hkey. unfold parseSSGSCP. rewrite Hmagic. cbn [negb]. cbv zeta.
  apply isSSGSCP_spec in Hmagic as [Hlen _].
  rewrite bind_Buffer_set by (rewrite subarray_length by lia; list_length).
  unfold createDecipheriv, createCipheriv. by rewrite decide_True.
Qed.

Lemma parseSSGSCP_Some_inv (datagram key : list Z) (rt : Runtime)
    (parsed : ParsedSSGSCPPacket) :
  (parseSSGSCP datagram key rt).1 = Normal (Some parsed) →
  isSSGSCP datagram = true ∧ length key = 32 ∧ parsed_of datagram key = parsed.
Proof.
  intros Hparse.
  destruct (isSSGSCP datagram) eqn:Hmagic;
    [|by rewrite parseSSGSCP_null in Hparse].
  destruct (decide (length key = 32)) as [Hkey|Hkey].
  - rewrite parseSSGSCP_run in Hparse by done.
    cbn in Hparse. by injection Hparse as ->.
  - by rewrite parseSSGSCP_bad_key in Hparse.
Qed.

Lemma subarray_is_bytes (b : list Z) (start stop : nat) :
  Forall is_byte b → Forall is_byte (subarray b start stop).
Proof. intros Hb. unfold subarray. by apply Forall_drop, Forall_take. Qed.

Lemma decryptedPortion_of_is_bytes (datagram key : list Z) :
  Forall is_byte datagram → Forall is_byte (decryptedPortion_of datagram key).
Proof.
  intros Hd. unfold decryptedPortion_of.
  apply cipher_update_is_bytes; [intros i; apply stream_of_is_byte|].
  by apply Forall_drop.
Qed.

Lemma parsed_of_inv (datagram key : list Z) (ptype : Z) (code uid : list Z)
    (pid : Z) (payload : list Z) :
  isSSGSCP datagram = true → Forall is_byte datagram →
  parsed_of datagram key = Parsed ptype code uid pid payload →
  uid = subarray datagram 14 18 ∧ length uid = 4 ∧ Forall is_byte uid
  ∧ (0 ≤ pid ≤ 65535)%Z.
Proof.
  intros Hmagic Hbytes. unfold parsed_of.
  destruct (bufferContainsValues _ 0 [0; 1; 2; 3]%Z); [|discriminate].
  intros [= _ _ <- <- _].
  apply isSSGSCP_spec in Hmagic as [Hlen _].
  split; [done|]. split; [rewrite subarray_length; lia|].
  split; [by apply subarray_is_bytes|].
  by apply getU16BE_range, subarray_is_bytes, decryptedPortion_of_is_bytes.
Qed.

(** ** Inbound datagrams that are refused *)

Lemma parsePacketGatewayUID_Some (datagram gw : list Z) :
  parsePacketGatewayUID datagram = Some gw →
  isSSGSCP datagram = true ∧ gw = subarray datagram 14 18.
Proof.
  unfold parsePacketGatewayUID.
  destruct (isSSGSCP datagram); cbn [negb]; [|discriminate].
  by intros [= <-].
Qed.


(** A buffer given by its elements is checked by computation. *)
Lemma is_bytes_check (b : list Z) :
  forallb (λ v, bool_decide (is_byte v)) b = true → Forall is_byte b.
Proof.
  intros Hall. apply Forall_forall. intros v Hv.
  apply list_elem_of_In in Hv.
  pose proof (proj1 (forallb_forall _ b) Hall v Hv) as Hb.
  by apply bool_decide_eq_true_1 in Hb.
Qed.

(** ** Datagrams of a connected client *)

Lemma authenticated_inv (rt : Runtime) (datagram key : list Z) (ptype : Z)
    (code uid : list Z) (pid : Z) (payload : list Z) :
  authenticated rt datagram key (Parsed ptype code uid pid payload) →
  isSSGSCP datagram = true ∧ length key = 32
  ∧ parsed_of datagram key = Parsed ptype code uid pid payload
  ∧ length uid = 4 ∧ Forall is_byte uid ∧ (0 ≤ pid ≤ 65535)%Z.
Proof.
  intros (Hbytes & gw & Hgw & _ & _ & Hparse).
  apply parseSSGSCP_Some_inv in Hparse as (Hmagic & Hkey & Hparsed).
  pose proof (parsed_of_inv _ _ _ _ _ _ _ Hmagic Hbytes Hparsed) as (_ & ? & ? & ?).
  split_and!; try done; lia.
Qed.

Lemma authenticated_later (rt rt' : Runtime) (datagram key : list Z)
    (parsed : ParsedSSGSCPPacket) :
  authorizedGateways rt' = authorizedGateways rt →
  authenticated rt datagram key parsed → authenticated rt' datagram key parsed.
Proof.
  intros Hsame (Hbytes & gw & Hgw & Hauth & Hkey & Hparse).
  split; [done|]. exists gw. rewrite Hsame. repeat split; try done.
  apply parseSSGSCP_Some_inv in Hparse as (Hmagic & Hlen & <-).
  by rewrite parseSSGSCP_run.
Qed.

(** [process] up to the [switch]: the client is found, [lastSeen] is written,
    and the [switch] runs. *)
Lemma process_connected (datagram : list Z) (rinfo : RemoteInfo) (rt : Runtime)
    (key : list Z) (ptype : Z) (code uid : list Z) (pid : Z) (payload : list Z)
    (ci : nat) (client : Client) :
  authenticated rt datagram key (Parsed ptype code uid pid payload) →
  connected rt uid ci client →
  let client' := with_lastSeen client (clock (dateNowCalls rt)) in
  process datagram rinfo rt
  = dispatch ci client' rinfo key ptype uid pid payload
      (with_clients (<[ci := client']> (connectedClients rt)) (ticked rt)).
Proof.
  intros Hauth Hfind client'.
  pose proof (authenticated_inv _ _ _ _ _ _ _ _ Hauth) as (Hmagic & Hkey & Hparsed & _).
  destruct Hauth as (_ & gw & Hgw & Hyes & Hgetkey & _).
  unfold process. rewrite Hgw, bind_gets, Hyes. cbn [negb]. rewrite Hgetkey.
  rewrite bind_parseSSGSCP, Hparsed by done.
  rewrite bind_gets. unfold connected in Hfind. rewrite Hfind.
  by rewrite bind_Date_now, bind_store_client.
Qed.

Lemma connected_lookup (rt : Runtime) (uid : list Z) (ci : nat) (client : Client) :
  connected rt uid ci client → connectedClients rt !! ci = Some client.
Proof. intros Hfind. by apply list_find_Some in Hfind as (? & _). Qed.

(** Rewriting the found client leaves it the one that is found, as long as
    its UID is kept. *)
Lemma connected_insert (rt : Runtime) (uid : list Z) (ci : nat) (client client' : Client)
    (rt' : Runtime) :
  connected rt uid ci client →
  c_gatewayUID client' = c_gatewayUID client →
  connectedClients rt' = <[ci := client']> (connectedClients rt) →
  connected rt' uid ci client'.
Proof.
  unfold connected. intros Hfind Huid ->.
  apply list_find_Some in Hfind as (Hlookup & Hmatch & Hfirst).
  apply list_find_Some. split; [|split].
  - apply list_lookup_insert_eq. by eapply lookup_lt_Some.
  - by rewrite Huid.
  - intros j y Hj Hlt. rewrite list_lookup_insert_ne in Hj by lia. eauto.
Qed.


(** ** MSGSTATUS: acknowledgement and delivery *)

(** A MSGSTATUS whose identifier is in the FIFO is acknowledged and not
    delivered. *)
Lemma process_MSGSTATUS_duplicate (datagram : list Z) (rinfo : RemoteInfo)
    (rt : Runtime) (key code uid : list Z) (pid : Z) (payload : list Z)
    (ci : nat) (client : Client) :
  authenticated rt datagram key (Parsed MSGSTATUS code uid pid payload) →
  connected rt uid ci client →
  pid ∈ receivedMessageIDsFIFO client →
  valid_port (port rinfo) →
  ∃ rt' ack,
    process datagram rinfo rt = (Normal tt, rt')
    ∧ authorizedGateways rt' = authorizedGateways rt
    ∧ connectedClients rt'
      = <[ci := with_lastSeen client (clock (dateNowCalls rt))]> (connectedClients rt)
    ∧ effects rt' = effects rt ++ [SocketSend ack (port rinfo) (address rinfo)]
    ∧ (parseSSGSCP ack key rt').1
      = Normal (Some (Parsed RCPTOK [0; 1; 2; 3]%Z uid pid [])).
Proof.
  intros Hauth Hfind Hseen Hport.
  pose proof (authenticated_inv _ _ _ _ _ _ _ _ Hauth)
    as (Hmagic & Hkey & Hparsed & Hlen & Hbytes & Hpid).
  rewrite (process_connected _ rinfo _ _ _ _ _ _ _ _ _ Hauth Hfind). cbv zeta.
  unfold dispatch.
  rewrite decide_False, decide_False, decide_True by done.
  rewrite bool_decide_eq_true_2 by done.
  rewrite sendRCPTOK_run by done.
  eexists. eexists. split; [reflexivity|].
  do 3 (split; [reflexivity|]).
  apply parse_sent_fields; unfold RCPTOK; try done; lia.
Qed.

(** A MSGSTATUS whose identifier is not in the FIFO is recorded,
    acknowledged and, when the acknowledgement can be sent, delivered. *)
Lemma process_MSGSTATUS_fresh (datagram : list Z) (rinfo : RemoteInfo)
    (rt : Runtime) (key code uid : list Z) (pid : Z) (payload : list Z)
    (ci : nat) (client : Client) :
  authenticated rt datagram key (Parsed MSGSTATUS code uid pid payload) →
  connected rt uid ci client →
  pid ∉ receivedMessageIDsFIFO client →
  valid_port (port rinfo) →
  ∃ rt' ack client',
    process datagram rinfo rt = (Normal tt, rt')
    ∧ authorizedGateways rt' = authorizedGateways rt
    ∧ connectedClients rt' = <[ci := client']> (connectedClients rt)
    ∧ c_gatewayUID client' = c_gatewayUID client
    ∧ receivedMessageIDsFIFO client'
      = (let pushed := receivedMessageIDsFIFO client ++ [pid] in
         if decide (RECV_MSG_FIFO_MAX_LEN < length pushed) then drop 1 pushed else pushed)
    ∧ sentMessages client' = sentMessages client
    ∧ effects rt'
      = effects rt ++ [SocketSend ack (port rinfo) (address rinfo);
                       CallOnMessage ci (make_update uid payload)]
    ∧ (parseSSGSCP ack key rt').1
      = Normal (Some (Parsed RCPTOK [0; 1; 2; 3]%Z uid pid [])).
Proof.
  intros Hauth Hfind Hfresh Hport.
  pose proof (authenticated_inv _ _ _ _ _ _ _ _ Hauth)
    as (Hmagic & Hkey & Hparsed & Hlen & Hbytes & Hpid).
  rewrite (process_connected _ rinfo _ _ _ _ _ _ _ _ _ Hauth Hfind). cbv zeta.
  unfold dispatch.
  rewrite decide_False, decide_False, decide_True by done.
  rewrite bool_decide_eq_false_2 by done.
  cbv zeta. rewrite bind_store_client.
  unfold bind at 1. rewrite sendRCPTOK_run by done.
  eexists. eexists. eexists. split; [reflexivity|].
  cbn [connectedClients with_clients emitted drawn ticked effects authorizedGateways].
  rewrite list_insert_insert_eq.
  do 5 (split; [reflexivity|]).
  split; [by rewrite <- app_assoc|].
  apply parse_sent_fields; unfold RCPTOK; try done; lia.
Qed.

(** The identifier that was just pushed is still in the FIFO after the
    eviction of the head. *)
Lemma pushed_in_fifo (fifo : list Z) (pid : Z) :
  let pushed := fifo ++ [pid] in
  pid ∈ (if decide (RECV_MSG_FIFO_MAX_LEN < length pushed) then drop 1 pushed else pushed).
Proof.
  cbv zeta.
  assert (pid ∈ fifo ++ [pid]) as Hlast
    by (apply elem_of_app; right; by apply list_elem_of_singleton).
  case_decide as Hfull; [|done].
  destruct fifo as [|x fifo]; [cbn in Hfull; unfold RECV_MSG_FIFO_MAX_LEN in Hfull; lia|].
  cbn [app drop].
  apply elem_of_app; right; by apply list_elem_of_singleton.
Qed.

(** C4 (amended): for a connected client and an authenticated MSGSTATUS
    datagram whose [packetID] is not in [receivedMessageIDsFIFO] when it first
    arrives, both deliveries coming from source ports in 1..65535, the first
    delivery sends a RCPTOK for that [packetID] and calls [onmessage] once;
    it leaves the [packetID] in the FIFO. Every later delivery of the
    datagram, in a state [later] where the [packetID] is still in the FIFO,
    sends a RCPTOK for it and does not call [onmessage]; the state right
    after the first delivery is such a state. *)
Theorem duplicate_MSGSTATUS (datagram : list Z) (rinfo rinfo' : RemoteInfo)
    (rt later : Runtime) (key code uid : list Z) (pid : Z) (payload : list Z)
    (ci ci' : nat) (client client' : Client) :
  authenticated rt datagram key (Parsed MSGSTATUS code uid pid payload) →
  connected rt uid ci client →
  pid ∉ receivedMessageIDsFIFO client →
  authenticated later datagram key (Parsed MSGSTATUS code uid pid payload) →
  connected later uid ci' client' →
  pid ∈ receivedMessageIDsFIFO client' →
  valid_port (port rinfo) → valid_port (port rinfo') →
  ∃ rt1 ack1 client1 rt2 ack2,
    process datagram rinfo rt = (Normal tt, rt1)
    ∧ effects rt1
      = effects rt ++ [SocketSend ack1 (port rinfo) (address rinfo);
                       CallOnMessage ci (make_update uid payload)]
    ∧ (parseSSGSCP ack1 key rt1).1 = Normal (Some (Parsed RCPTOK [0; 1; 2; 3]%Z uid pid []))
    ∧ authenticated rt1 datagram key (Parsed MSGSTATUS code uid pid payload)
    ∧ connected rt1 uid ci client1
    ∧ pid ∈ receivedMessageIDsFIFO client1
    ∧ process datagram rinfo' later = (Normal tt, rt2)
    ∧ effects rt2 = effects later ++ [SocketSend ack2 (port rinfo') (address rinfo')]
    ∧ (parseSSGSCP ack2 key rt2).1 = Normal (Some (Parsed RCPTOK [0; 1; 2; 3]%Z uid pid [])).
Proof.
  intros Hauth Hfind Hfresh Hauth' Hfind' Hseen Hport Hport'.
  destruct (process_MSGSTATUS_fresh _ rinfo _ _ _ _ _ _ _ _ Hauth Hfind Hfresh Hport)
    as (rt1 & ack1 & client1 & Hrun1 & Hgw1 & Hcs1 & Huid1 & Hfifo1 & _ & Heff1 & Hack1).
  destruct (process_MSGSTATUS_duplicate _ rinfo' _ _ _ _ _ _ _ _ Hauth' Hfind' Hseen Hport')
    as (rt2 & ack2 & Hrun2 & _ & _ & Heff2 & Hack2).
  exists rt1, ack1, client1, rt2, ack2.
  split_and!; try done.
  - by eapply authenticated_later.
  - by eapply connected_insert.
  - rewrite Hfifo1. apply pushed_in_fifo.
Qed.

(** ** Outbound messages *)

Lemma sendMSG_run (ci : nat) (ptype : Z) (payload : option (list Z)) (rt : Runtime)
    (client : Client) :
  connectedClients rt !! ci = Some client → client_ok client → reachable client →
  (0 ≤ ptype ≤ 255)%Z →
  let bytes := wire_of (outbound client ptype payload) (c_gatewayUID client) (key client)
                       (iv_at (randomBytesDrawn rt)) in
  let sentMessage := {| sm_packetID := sendPacketID client;
                        timestamp := clock (dateNowCalls rt);
                        packet := bytes |} in
  sendMSG ci ptype payload rt
  = (Normal tt,
     with_clients (<[ci := enqueue_sent client sentMessage]> (connectedClients rt))
       (ticked (emitted (SocketSend bytes (sourcePort client) (remoteAddress client))
                        (drawn 8 rt)))).
Proof.
  intros Hlookup (Huid & _ & Hkey & Hid) Hport Htype. cbv zeta.
  unfold sendMSG. rewrite bind_gets, Hlookup. cbv zeta.
  rewrite (bind_packSSGSCP _ (c_gatewayUID client)) by done.
  rewrite bind_socket_send, bind_Date_now by done.
  reflexivity.
Qed.

(** A send to a client whose port the socket refuses: the packet is packed,
    [socket.send] throws, and nothing is queued. *)
Lemma sendMSG_bad_port (ci : nat) (ptype : Z) (payload : option (list Z)) (rt : Runtime)
    (client : Client) :
  connectedClients rt !! ci = Some client → client_ok client → ¬ reachable client →
  (0 ≤ ptype ≤ 255)%Z →
  sendMSG ci ptype payload rt = (Thrown SocketBadPort, drawn 8 rt).
Proof.
  intros Hlookup (Huid & _ & Hkey & Hid) Hport Htype.
  unfold sendMSG. rewrite bind_gets, Hlookup. cbv zeta.
  rewrite (bind_packSSGSCP _ (c_gatewayUID client)) by done.
  by rewrite bind_socket_send_bad_port.
Qed.




(** ** The periodic tick *)



Lemma bind_set_timestamp {B} (ci j : nat) (stamp : Z) (k : unit → M B) (rt : Runtime) :
  bind (set_timestamp ci j stamp) k rt
  = k tt (with_clients
            (alter (λ client,
                      with_sentMessages client
                        (alter (λ sentMessage, restamp sentMessage stamp) j
                               (sentMessages client)))
                   ci (connectedClients rt)) rt).
Proof. reflexivity. Qed.

Lemma insert_alter_eq {A} (f : A → A) (l : list A) (i : nat) (x : A) :
  <[i := x]> (alter f i l) = <[i := x]> l.
Proof.
  revert i. induction l as [|y l IH]; intros [|i]; cbn; [done..|].
  f_equal. apply IH.
Qed.

(** The inner loop for a client the socket can send to, started at entry
    [length visited] of the list [visited ++ messages] that the client
    [current] of the state holds. *)
Lemma tickSentMessages_run (ci : nat) (client current : Client) (now : Z)
    (visited messages : list SentMessage) (retransmittedCount : nat) (rt : Runtime) :
  connectedClients rt !! ci = Some current →
  sentMessages current = visited ++ messages →
  reachable client →
  let resent := take (10 - retransmittedCount) (filter (due now client) messages) in
  ∃ rt',
    tickSentMessages ci client now (length visited) messages retransmittedCount rt
    = (Normal tt, rt')
    ∧ connectedClients rt'
      = <[ci := with_sentMessages current
                  (visited ++ restamped_from now client retransmittedCount
                                             (dateNowCalls rt) messages)]>
          (connectedClients rt)
    ∧ authorizedGateways rt' = authorizedGateways rt
    ∧ dateNowCalls rt' = dateNowCalls rt + length resent
    ∧ randomBytesDrawn rt' = randomBytesDrawn rt
    ∧ effects rt' = effects rt ++ (resend client <$> resent).
Proof.
  intros Hlookup Hsent Hport. cbv zeta.
  revert visited retransmittedCount current rt Hlookup Hsent.
  induction messages as [|m messages IH]; intros visited count current rt Hlookup Hsent.
  - exists rt. rewrite filter_nil, take_nil. cbn [tickSentMessages restamped_from].
    split; [done|]. split.
    { rewrite <- Hsent. symmetry. apply list_insert_id.
      rewrite Hlookup. f_equal. by destruct current. }
    cbn. rewrite Nat.add_0_r, app_nil_r. done.
  - cbn [tickSentMessages restamped_from].
    destruct (decide (count < 10 ∧ (now - timestamp m > retransmissionTimeout client)%Z))
      as [[Hcount Hdue]|Hnot].
    + rewrite (decide_True (P := count < 10 ∧ due now client m)) by done.
      rewrite bind_socket_send, bind_Date_now, bind_set_timestamp by done.
      set (stamp := clock (dateNowCalls rt)).
      set (current' :=
             with_sentMessages current ((visited ++ [restamp m stamp]) ++ messages)).
      set (rt1 := with_clients _ _).
      assert (connectedClients rt1 !! ci = Some current') as Hlookup1.
      { unfold rt1. cbn [connectedClients with_clients ticked emitted].
        rewrite list_lookup_alter_eq, Hlookup. cbn [fmap option_fmap option_map].
        unfold current'. rewrite Hsent.
        replace (length visited) with (length visited + 0) by lia.
        by rewrite alter_app_r, <- app_assoc. }
      destruct (IH (visited ++ [restamp m stamp]) (S count) current' rt1 Hlookup1 eq_refl)
        as (rt' & Hrun & Hclients & Htable & Hreads & Hrandom & Heffects).
      rewrite length_app, Nat.add_1_r in Hrun.
      exists rt'. split; [exact Hrun|].
      rewrite Hclients, Htable, Hreads, Hrandom, Heffects.
      rewrite filter_cons_True by done.
      replace (10 - count) with (S (10 - S count)) by lia.
      cbn [take length fmap list_fmap].
      unfold rt1. cbn [connectedClients with_clients ticked emitted dateNowCalls
                       authorizedGateways randomBytesDrawn effects].
      split_and!.
      * rewrite insert_alter_eq. unfold current', with_sentMessages.
        cbn. by rewrite <- app_assoc.
      * done.
      * lia.
      * done.
      * by rewrite <- app_assoc.
    + rewrite (decide_False (P := count < 10 ∧ due now client m)) by done.
      assert (sentMessages current = (visited ++ [m]) ++ messages) as Hsent'
        by by rewrite <- app_assoc.
      destruct (IH (visited ++ [m]) count current rt Hlookup Hsent')
        as (rt' & Hrun & Hclients & Htable & Hreads & Hrandom & Heffects).
      rewrite length_app, Nat.add_1_r in Hrun.
      exists rt'. split; [exact Hrun|].
      assert (take (10 - count) (filter (due now client) (m :: messages))
              = take (10 - count) (filter (due now client) messages)) as ->.
      { destruct (decide (due now client m)) as [Hdue|Hdue].
        - assert (10 - count = 0) as -> by (unfold due in Hdue; lia).
          by rewrite !take_0.
        - by rewrite filter_cons_False. }
      rewrite Hclients, <- app_assoc. done.
Qed.

Lemma tickClient_run (now : Z) (ci : nat) (client : Client) (rt : Runtime) :
  connectedClients rt !! ci = Some client →
  reachable client →
  ∃ rt',
    tickClient now ci client rt = (Normal tt, rt')
    ∧ connectedClients rt'
      = <[ci := ticked_client now (dateNowCalls rt) client]> (connectedClients rt)
    ∧ authorizedGateways rt' = authorizedGateways rt
    ∧ dateNowCalls rt' = dateNowCalls rt + length (retransmissions now client)
    ∧ randomBytesDrawn rt' = randomBytesDrawn rt
    ∧ effects rt' = effects rt ++ (resend client <$> retransmissions now client).
Proof.
  intros Hlookup Hport.
  apply (tickSentMessages_run ci client client now [] (sentMessages client) 0 rt);
    done.
Qed.

Lemma tickEach_run (now : Z) (before clients : list Client) (rt : Runtime) :
  connectedClients rt = before ++ clients →
  Forall reachable clients →
  ∃ rt',
    tickEach now (length before) clients rt = (Normal tt, rt')
    ∧ connectedClients rt' = before ++ ticked_clients now (dateNowCalls rt) clients
    ∧ authorizedGateways rt' = authorizedGateways rt
    ∧ randomBytesDrawn rt' = randomBytesDrawn rt
    ∧ effects rt' = effects rt ++ all_retransmissions now clients.
Proof.
  revert before rt.
  induction clients as [|client clients IH]; intros before rt Hclients Hports.
  - exists rt. cbn [tickEach ticked_clients]. unfold all_retransmissions.
    cbn [fmap list_fmap concat]. rewrite Hclients, !app_nil_r. done.
  - apply Forall_cons in Hports as [Hport Hports].
    cbn [tickEach ticked_clients].
    assert (connectedClients rt !! length before = Some client) as Hlookup.
    { rewrite Hclients. by rewrite lookup_app_r, Nat.sub_diag. }
    destruct (tickClient_run now (length before) client rt Hlookup Hport)
      as (rt1 & Hrun1 & Hclients1 & Htable1 & Hreads1 & Hrandom1 & Heffects1).
    unfold bind at 1. rewrite Hrun1.
    assert (connectedClients rt1
            = (before ++ [ticked_client now (dateNowCalls rt) client]) ++ clients)
      as Hclients1'.
    { rewrite Hclients1, Hclients.
      replace (length before) with (length before + 0) by lia.
      rewrite insert_app_r. cbn. by rewrite <- app_assoc. }
    destruct (IH _ rt1 Hclients1' Hports)
      as (rt' & Hrun & Hclients' & Htable & Hrandom & Heffects).
    rewrite length_app, Nat.add_1_r in Hrun.
    exists rt'. split; [exact Hrun|].
    rewrite Hclients', Htable, Hrandom, Heffects, Hreads1, Htable1, Hrandom1, Heffects1.
    unfold all_retransmissions. cbn [fmap list_fmap concat].
    rewrite <- !app_assoc. done.
Qed.

Lemma tickClients_run (rt : Runtime) :
  Forall reachable (connectedClients rt) →
  ∃ rt',
    tickClients rt = (Normal tt, rt')
    ∧ connectedClients rt'
      = ticked_clients (clock (dateNowCalls rt)) (S (dateNowCalls rt)) (connectedClients rt)
    ∧ authorizedGateways rt' = authorizedGateways rt
    ∧ randomBytesDrawn rt' = randomBytesDrawn rt
    ∧ effects rt'
      = effects rt ++ all_retransmissions (clock (dateNowCalls rt)) (connectedClients rt).
Proof.
  intros Hports. unfold tickClients. rewrite bind_Date_now, bind_gets.
  apply (tickEach_run (clock (dateNowCalls rt)) [] (connectedClients rt) (ticked rt));
    done.
Qed.





(** ** Bounded queues *)

Lemma keeps_ret {A} (a : A) : keeps_clients (ret a).
Proof. done. Qed.

Lemma keeps_throw {A} (e : JSError) : keeps_clients (@throw A e).
Proof. done. Qed.

Lemma keeps_bind {A B} (m : M A) (k : A → M B) :
  keeps_clients m → (∀ a, keeps_clients (k a)) → keeps_clients (bind m k).
Proof.
  intros Hm Hk rt. unfold bind. specialize (Hm rt).
  destruct (m rt) as [[a|e] rt1]; cbn in *; [by rewrite Hk|done].
Qed.

Lemma keeps_orRangeError {A} (o : option A) : keeps_clients (orRangeError o).
Proof. by destruct o. Qed.

Lemma keeps_randomBytes (n : nat) : keeps_clients (randomBytes n).
Proof. done. Qed.

Lemma keeps_Date_now : keeps_clients Date_now.
Proof. done. Qed.

Lemma keeps_perform (e : Effect) : keeps_clients (perform e).
Proof. done. Qed.

Lemma keeps_socket_send (msg : option (list Z)) (p : Z) (a : string) :
  keeps_clients (socket_send msg p a).
Proof. destruct msg; [|done]. unfold socket_send. by case_decide. Qed.

Lemma keeps_createCipheriv (key iv : list Z) : keeps_clients (createCipheriv key iv).
Proof. unfold createCipheriv. by repeat case_decide. Qed.

Ltac keeps_step :=
  repeat first
    [ apply keeps_ret | apply keeps_throw | apply keeps_orRangeError
    | apply keeps_randomBytes | apply keeps_Date_now | apply keeps_perform
    | apply keeps_socket_send | apply keeps_createCipheriv
    | apply keeps_bind; [|intros ?] ].

Lemma keeps_packSSGSCP (packet : Packet) (key : list Z) :
  keeps_clients (packSSGSCP packet key).
Proof.
  unfold packSSGSCP.
  case_decide; [keeps_step|].
  destruct (match gatewayUID packet with
            | Some uid => bool_decide (length uid ≠ 4)
            | None => false
            end); [keeps_step|].
  case_decide; [keeps_step|].
  cbv zeta. keeps_step. destruct (gatewayUID packet); keeps_step.
Qed.

Lemma keeps_sendCONNFAIL (rinfo : RemoteInfo) (uid : list Z) :
  keeps_clients (sendCONNFAIL rinfo uid).
Proof. unfold sendCONNFAIL. cbv zeta. keeps_step. apply keeps_packSSGSCP. Qed.

Lemma keeps_sendCONNACPT (rinfo : RemoteInfo) (key uid : list Z) :
  keeps_clients (sendCONNACPT rinfo key uid).
Proof. unfold sendCONNACPT. cbv zeta. keeps_step. apply keeps_packSSGSCP. Qed.

Lemma keeps_sendRCPTOK (pid : Z) (rinfo : RemoteInfo) (key uid : list Z) :
  keeps_clients (sendRCPTOK pid rinfo key uid).
Proof. unfold sendRCPTOK. cbv zeta. keeps_step. apply keeps_packSSGSCP. Qed.

Ltac keeps :=
  repeat first
    [ apply keeps_sendCONNFAIL | apply keeps_sendCONNACPT | apply keeps_sendRCPTOK
    | apply keeps_packSSGSCP | apply keeps_ret | apply keeps_throw
    | apply keeps_Date_now | apply keeps_perform | apply keeps_socket_send
    | apply keeps_bind; [|intros ?] ].

Lemma maintains_keeps {A} (m : M A) : keeps_clients m → maintains m.
Proof. intros Hm rt Hb. unfold bounded. by rewrite Hm. Qed.

Lemma maintains_bind {A B} (m : M A) (k : A → M B) :
  maintains m → (∀ a, maintains (k a)) → maintains (bind m k).
Proof.
  intros Hm Hk rt Hb. unfold bind. specialize (Hm rt Hb).
  destruct (m rt) as [[a|e] rt1]; cbn in *; [by apply Hk|done].
Qed.

Lemma maintains_store_client (ci : nat) (client : Client) :
  queues_bounded client → maintains (store_client ci client).
Proof. intros Hc rt Hb. by apply Forall_insert. Qed.

Lemma enqueue_sent_bounded (client : Client) (sentMessage : SentMessage) :
  queues_bounded client → queues_bounded (enqueue_sent client sentMessage).
Proof.
  intros [Hsent Hfifo]. split; [|done]. cbn.
  case_decide as Hfull.
  - rewrite length_drop, length_app. cbn [length]. lia.
  - lia.
Qed.

Lemma length_delete_le {A} (l : list A) (i : nat) : length (delete i l) ≤ length l.
Proof.
  revert i. induction l as [|x l IH]; intros [|i]; simpl; try lia.
  specialize (IH i). lia.
Qed.

Lemma dispatch_maintains (ci : nat) (client : Client) (rinfo : RemoteInfo)
    (key : list Z) (ptype : Z) (uid : list Z) (pid : Z) (payload : list Z) :
  queues_bounded client →
  maintains (dispatch ci client rinfo key ptype uid pid payload).
Proof.
  intros [Hsent Hfifo]. unfold dispatch.
  case_decide.
  { cbv zeta. apply maintains_bind.
    - apply maintains_store_client. split; cbn; lia.
    - intros _. apply maintains_keeps. keeps. }
  case_decide.
  { destruct (list_find _ (sentMessages client)) as [[index m]|];
      [|apply maintains_keeps; keeps].
    apply maintains_store_client. split; [|done]. cbn.
    pose proof (length_delete_le (sentMessages client) index). lia. }
  case_decide.
  { case_bool_decide; [apply maintains_keeps; keeps|].
    cbv zeta. apply maintains_bind.
    - apply maintains_store_client. split; [done|]. cbn.
      case_decide as Hfull.
      + rewrite length_drop, length_app. cbn [length]. lia.
      + lia.
    - intros _. apply maintains_keeps. keeps. }
  repeat case_decide; apply maintains_keeps; keeps.
Qed.

Lemma process_maintains (datagram : list Z) (rinfo : RemoteInfo) :
  maintains (process datagram rinfo).
Proof.
  intros rt Hb. unfold process.
  destruct (parsePacketGatewayUID datagram) as [gw|]; [|done].
  rewrite bind_gets.
  destruct (isAuthorizedGateway (authorizedGateways rt) gw); cbn [negb]; [|done].
  destruct (getGatewayKey (authorizedGateways rt) gw) as [key|]; [|done].
  unfold bind at 1.
  pose proof (parseSSGSCP_keeps_state datagram key rt) as Hsame.
  destruct (parseSSGSCP datagram key rt) as [[parsed|e] rt1]; cbn in Hsame; subst rt1;
    [|done].
  destruct parsed as [[|ptype code uid pid payload]|];
    [by apply (maintains_keeps _ (keeps_sendCONNFAIL _ _))| |by apply (maintains_keeps _ (keeps_sendCONNFAIL _ _))].
  rewrite bind_gets.
  destruct (list_find _ (connectedClients rt)) as [[ci client]|] eqn:Hfind.
  - rewrite bind_Date_now, bind_store_client.
    apply list_find_Some in Hfind as (Hlookup & _).
    assert (queues_bounded client) as Hclient by by eapply Forall_lookup_1.
    apply dispatch_maintains; [done|].
    by apply Forall_insert.
  - case_decide; [|by apply (maintains_keeps _ (keeps_sendCONNFAIL _ _))].
    unfold bind at 1.
    pose proof (keeps_sendCONNACPT rinfo (Buffer_copy key) uid rt) as Hkeeps.
    destruct (sendCONNACPT rinfo (Buffer_copy key) uid rt) as [[[]|e] rt1];
      cbn [snd] in Hkeeps; [|cbn [snd]; unfold bounded; by rewrite Hkeeps].
    rewrite bind_Date_now. cbv zeta.
    unfold bind at 1. cbn [set_connectedClients perform snd connectedClients
                           with_clients emitted].
    apply Forall_app. split; [done|].
    apply Forall_cons_2; [|apply Forall_nil_2].
    split; cbn; lia.
Qed.

Lemma sendMSG_maintains (ci : nat) (ptype : Z) (payload : option (list Z)) :
  maintains (sendMSG ci ptype payload).
Proof.
  intros rt Hb. unfold sendMSG. rewrite bind_gets.
  destruct (connectedClients rt !! ci) as [client|] eqn:Hlookup; [|done].
  assert (queues_bounded client) as Hclient by by eapply Forall_lookup_1.
  cbv zeta. clear Hlookup. revert rt Hb.
  apply maintains_bind; [apply maintains_keeps; keeps|].
  intros [bytes|]; [|apply maintains_keeps; keeps].
  apply maintains_bind; [apply maintains_keeps; keeps|intros _].
  apply maintains_bind; [apply maintains_keeps; keeps|intros now].
  by apply maintains_store_client, enqueue_sent_bounded.
Qed.

Lemma restamped_bounded (client client' : Client) :
  restamped client client' → queues_bounded client → queues_bounded client'.
Proof.
  intros (Hsame & Hlen & _) [Hsent Hfifo]. rewrite Hsame. split; cbn; [lia|done].
Qed.

Lemma restamped_refl (client : Client) : restamped client client.
Proof. split_and!; [by destruct client|done|]. intros i m Hm. by exists m. Qed.

Lemma restamped_trans (c1 c2 c3 : Client) :
  restamped c1 c2 → restamped c2 c3 → restamped c1 c3.
Proof.
  intros (Hsame & Hlen & Hat) (Hsame' & Hlen' & Hat').
  split_and!.
  - rewrite Hsame', Hsame. reflexivity.
  - congruence.
  - intros i m Hm. destruct (Hat i m Hm) as (m' & Hm' & Hid & Hpacket).
    destruct (Hat' i m' Hm') as (m'' & Hm'' & Hid' & Hpacket').
    exists m''. split_and!; congruence.
Qed.

Lemma restamps_keeps {A} (m : M A) : keeps_clients m → restamps m.
Proof.
  intros Hm rt. rewrite Hm.
  induction (connectedClients rt); constructor; [apply restamped_refl|done].
Qed.

Lemma restamps_bind {A B} (m : M A) (k : A → M B) :
  restamps m → (∀ a, restamps (k a)) → restamps (bind m k).
Proof.
  intros Hm Hk rt. unfold bind. specialize (Hm rt).
  destruct (m rt) as [[a|e] rt1]; cbn [snd] in *; [|done].
  eapply Forall2_trans; [apply restamped_trans|exact Hm|apply Hk].
Qed.

Lemma restamps_set_timestamp (ci j : nat) (stamp : Z) : restamps (set_timestamp ci j stamp).
Proof.
  intros rt. cbn. generalize ci. clear ci.
  induction (connectedClients rt) as [|client clients IH]; intros [|ci]; cbn.
  - constructor.
  - constructor.
  - constructor.
    + split_and!; [reflexivity|cbn; apply length_alter|].
      intros i m Hm. cbn. rewrite list_lookup_alter.
      case_decide as Hi.
      * subst i. rewrite Hm. eexists. split; [reflexivity|done].
      * by exists m.
    + clear IH. induction clients; constructor; [apply restamped_refl|done].
  - constructor; [apply restamped_refl|apply IH].
Qed.

Lemma restamps_tickSentMessages (ci : nat) (client : Client) (now : Z) (j : nat)
    (messages : list SentMessage) (retransmittedCount : nat) :
  restamps (tickSentMessages ci client now j messages retransmittedCount).
Proof.
  revert j retransmittedCount.
  induction messages as [|m messages IH]; intros j count; cbn [tickSentMessages].
  - apply restamps_keeps, keeps_ret.
  - case_decide; [|apply IH].
    apply restamps_bind; [apply restamps_keeps, keeps_socket_send|intros _].
    apply restamps_bind; [apply restamps_keeps, keeps_Date_now|intros stamp].
    apply restamps_bind; [apply restamps_set_timestamp|intros _]. apply IH.
Qed.

Lemma restamps_tickEach (now : Z) (ci : nat) (clients : list Client) :
  restamps (tickEach now ci clients).
Proof.
  revert ci. induction clients as [|client clients IH]; intros ci; cbn [tickEach].
  - apply restamps_keeps, keeps_ret.
  - apply restamps_bind; [apply restamps_tickSentMessages|intros _; apply IH].
Qed.

(** A tick changes time stamps only, also when it throws half way. *)
Lemma restamps_tickClients : restamps tickClients.
Proof.
  unfold tickClients.
  apply restamps_bind; [apply restamps_keeps, keeps_Date_now|intros now].
  apply restamps_bind; [by apply restamps_keeps|intros clients].
  apply restamps_tickEach.
Qed.

Lemma tickClients_maintains : maintains tickClients.
Proof.
  intros rt Hb. pose proof (restamps_tickClients rt) as Hall.
  unfold bounded in *.
  induction Hall as [|client client' clients clients' Hone _ IH]; [done|].
  apply Forall_cons in Hb as [Hclient Hrest].
  apply Forall_cons_2; [by eapply restamped_bounded|by apply IH].
Qed.

Lemma react_maintains (op : Operation) : maintains (react op).
Proof.
  destruct op; [apply sendMSG_maintains|apply process_maintains|apply tickClients_maintains].
Qed.

(** A MSGSTATUS whose identifier is not in the FIFO is recorded before it is
    acknowledged: the identifier is in the FIFO whether or not the
    acknowledgement can be sent. *)
Lemma process_MSGSTATUS_pushed (datagram : list Z) (rinfo : RemoteInfo)
    (rt : Runtime) (key code uid : list Z) (pid : Z) (payload : list Z)
    (ci : nat) (client : Client) :
  authenticated rt datagram key (Parsed MSGSTATUS code uid pid payload) →
  connected rt uid ci client →
  pid ∉ receivedMessageIDsFIFO client →
  connectedClients (process datagram rinfo rt).2
  = <[ci := with_receivedMessageIDsFIFO
              (with_lastSeen client (clock (dateNowCalls rt)))
              (let pushed := receivedMessageIDsFIFO client ++ [pid] in
               if decide (RECV_MSG_FIFO_MAX_LEN < length pushed)
               then drop 1 pushed else pushed)]> (connectedClients rt).
Proof.
  intros Hauth Hfind Hfresh.
  rewrite (process_connected _ rinfo _ _ _ _ _ _ _ _ _ Hauth Hfind). cbv zeta.
  unfold dispatch.
  rewrite decide_False, decide_False, decide_True by done.
  rewrite bool_decide_eq_false_2 by done.
  cbv zeta. rewrite bind_store_client.
  match goal with
  | |- connectedClients ((?m) ?rt0).2 = _ =>
      assert (keeps_clients m) as Hkeeps
  end.
  { apply keeps_bind; [apply keeps_sendRCPTOK|intros ?; apply keeps_perform]. }
  rewrite Hkeeps. cbn [connectedClients with_clients ticked with_lastSeen
                       receivedMessageIDsFIFO].
  by rewrite list_insert_insert_eq.
Qed.

(** C6: whatever the sequence of sends, inbound datagrams and ticks, every
    client has at most 100 sent messages and at most 100 received identifiers
    after each of them, provided it was so before (a server without clients
    is such a state, and [process] creates clients with empty queues). When a
    queue holds 100 entries, pushing one more removes its head: a send (to a
    client the socket can send to, so that the message is transmitted and
    queued) leaves [sentMessages] without its first entry and with the new
    message at the end, and a MSGSTATUS with a new identifier does the same
    to [receivedMessageIDsFIFO], whatever port it comes from. *)
Theorem queues_stay_bounded (ops : list Operation) (rt : Runtime) :
  bounded rt →
  bounded (run_operations ops rt)
  ∧ (∀ (ci : nat) (payload : option (list Z)) (client : Client),
       connectedClients rt !! ci = Some client → client_ok client →
       reachable client →
       length (sentMessages client) = SENT_MSG_LIST_MAX_LEN →
       ∃ client' sentMessage,
         connectedClients (client_send ci payload rt).2 !! ci = Some client'
         ∧ sm_packetID sentMessage = sendPacketID client
         ∧ sentMessages client' = drop 1 (sentMessages client) ++ [sentMessage])
  ∧ (∀ (datagram : list Z) (rinfo : RemoteInfo) (key code uid : list Z) (pid : Z)
        (payload : list Z) (ci : nat) (client : Client),
       authenticated rt datagram key (Parsed MSGSTATUS code uid pid payload) →
       connected rt uid ci client →
       pid ∉ receivedMessageIDsFIFO client →
       length (receivedMessageIDsFIFO client) = RECV_MSG_FIFO_MAX_LEN →
       ∃ client',
         connectedClients (process datagram rinfo rt).2 !! ci = Some client'
         ∧ receivedMessageIDsFIFO client'
           = drop 1 (receivedMessageIDsFIFO client) ++ [pid]).
Proof.
  intros Hb. split_and!.
  - revert rt Hb. induction ops as [|op ops IH]; intros rt Hb; [done|].
    cbn [run_operations]. by apply IH, react_maintains.
  - intros ci payload client Hlookup Hok Hport Hfull.
    unfold client_send.
    rewrite (sendMSG_run ci MSGCONF payload rt client Hlookup Hok Hport)
      by (unfold MSGCONF; lia).
    cbv zeta. set (sentMessage := Build_SentMessage _ _ _).
    exists (enqueue_sent client sentMessage), sentMessage.
    split; [apply list_lookup_insert_eq; by eapply lookup_lt_Some|].
    split; [reflexivity|]. cbn [sentMessages enqueue_sent].
    unfold SENT_MSG_LIST_MAX_LEN in *.
    rewrite decide_True by (rewrite length_app, Hfull; cbn [length]; lia).
    destruct (sentMessages client) as [|m0 pending]; [discriminate Hfull|].
    reflexivity.
  - intros datagram rinfo key code uid pid payload ci client Hauth Hfind Hfresh Hfull.
    rewrite (process_MSGSTATUS_pushed _ rinfo _ _ _ _ _ _ _ _ Hauth Hfind Hfresh).
    eexists. split.
    + apply list_lookup_insert_eq.
      apply connected_lookup in Hfind. by eapply lookup_lt_Some.
    + cbn [receivedMessageIDsFIFO with_receivedMessageIDsFIFO]. cbv zeta.
      unfold RECV_MSG_FIFO_MAX_LEN in *.
      rewrite decide_True by (rewrite length_app, Hfull; cbn [length]; lia).
      destruct (receivedMessageIDsFIFO client) as [|p0 fifo]; [discriminate Hfull|].
      reflexivity.
Qed.

(** ** Further properties of the codec *)

Lemma to_int32_mod (v : Z) : (to_int32 v `mod` 65536 = v `mod` 65536)%Z.
Proof.
  unfold to_int32.
  pose proof (Z.div_mod (v + 2 ^ 31) (2 ^ 32) ltac:(lia)) as Hdiv.
  replace ((v + 2 ^ 31) `mod` 2 ^ 32 - 2 ^ 31)%Z
    with (v + (- (65536 * ((v + 2 ^ 31) `div` 2 ^ 32))) * 65536)%Z by lia.
  apply Z.mod_add. lia.
Qed.

(** X1: [getU16BE(setU16BE(value))] is [value mod 65536] for every integer:
    the two bytes written are the big-endian bytes of the low 16 bits, so the
    round trip is the identity exactly on [0, 65535]. *)
Theorem U16BE_roundtrip (value : Z) :
  Forall is_byte (setU16BE value)
  ∧ length (setU16BE value) = 2
  ∧ getU16BE (setU16BE value) = (value `mod` 65536)%Z
  ∧ (getU16BE (setU16BE value) = value ↔ (0 ≤ value ≤ 65535)%Z).
Proof.
  assert (getU16BE (setU16BE value) = (value `mod` 65536)%Z) as Hround.
  { unfold setU16BE, Buffer_from, js_sar, js_and. cbn [fmap list_fmap].
    rewrite getU16BE_bytes by apply to_uint8_is_byte.
    set (w := to_int32 value).
    rewrite Z.shiftr_div_pow2 by lia. change (2 ^ 8)%Z with 256%Z.
    change (to_int32 255) with (Z.ones 8). rewrite Z.land_ones by lia.
    change (2 ^ 8)%Z with 256%Z. unfold to_uint8.
    rewrite Z.mod_mod by lia.
    rewrite <- (to_int32_mod value). fold w.
    change 65536%Z with (256 * 256)%Z.
    rewrite Z.rem_mul_r by lia. lia. }
  split; [apply setU16BE_is_bytes|]. split; [reflexivity|]. split; [exact Hround|].
  rewrite Hround. split.
  - intros Heq. pose proof (Z.mod_pos_bound value 65536). lia.
  - intros Hrange. apply Z.mod_small. lia.
Qed.

(** X2: [bufferContainsValues(buffer, offset, array)] is true exactly when
    the elements of [array] stand in [buffer] from [offset] on. An empty
    [array] is contained at any offset, and a non-empty one that reaches
    beyond the end of the buffer is not contained. *)
Theorem bufferContainsValues_iff (buffer array : list Z) (offset : nat) :
  (bufferContainsValues buffer offset array = true
   ↔ take (length array) (drop offset buffer) = array)
  ∧ bufferContainsValues buffer offset [] = true
  ∧ (array ≠ [] → length buffer < offset + length array →
     bufferContainsValues buffer offset array = false).
Proof.
  split; [apply bufferContainsValues_spec|]. split; [reflexivity|].
  intros Hne Hshort.
  destruct (bufferContainsValues buffer offset array) eqn:Hb; [|done].
  apply bufferContainsValues_spec in Hb.
  apply (f_equal length) in Hb.
  rewrite length_take, length_drop in Hb.
  destruct array; [done|]. cbn [length] in *. lia.
Qed.

(** X3: [parsePacketGatewayUID] returns [null] exactly for the datagrams
    [isSSGSCP] refuses (shorter than 26 bytes, or not starting with
    "SSGSCP"); otherwise it returns the 4 bytes at offsets 14 to 17. Whenever
    [parseSSGSCP] authenticates a datagram, the [gatewayUID] it reports is
    the one [parsePacketGatewayUID] extracts without a key. *)
Theorem parsePacketGatewayUID_agrees (datagram : list Z) :
  (parsePacketGatewayUID datagram = None
   ↔ length datagram < 26 ∨ take 6 datagram ≠ [83; 83; 71; 83; 67; 80]%Z)
  ∧ (∀ uid, parsePacketGatewayUID datagram = Some uid →
       length uid = 4 ∧ uid = take 4 (drop 14 datagram))
  ∧ (∀ key rt ptype code uid pid payload,
       (parseSSGSCP datagram key rt).1
       = Normal (Some (Parsed ptype code uid pid payload)) →
       parsePacketGatewayUID datagram = Some uid).
Proof.
  assert (isSSGSCP datagram = true
          ↔ ¬ (length datagram < 26 ∨ take 6 datagram ≠ [83; 83; 71; 83; 67; 80]%Z))
    as Hwell.
  { rewrite isSSGSCP_spec. change PACKET_IDENTIFIER with [83; 83; 71; 83; 67; 80]%Z.
    split.
    - intros [Hlen Hmagic] [Hshort|Hbad]; [lia|done].
    - intros Hnot. split; [lia|].
      destruct (decide (take 6 datagram = [83; 83; 71; 83; 67; 80]%Z)) as [|Hbad];
        [done|]. exfalso. apply Hnot. by right. }
  split_and!.
  - unfold parsePacketGatewayUID.
    destruct (isSSGSCP datagram) eqn:Hmagic; cbn [negb].
    + split; [discriminate|]. intros Hbad. by apply Hwell in Hbad.
    + split; [intros _|done].
      destruct (decide (length datagram < 26
                        ∨ take 6 datagram ≠ [83; 83; 71; 83; 67; 80]%Z)) as [|Hnot];
        [done|]. apply Hwell in Hnot. discriminate.
  - intros uid Huid.
    apply parsePacketGatewayUID_Some in Huid as [Hmagic ->].
    apply isSSGSCP_spec in Hmagic as [Hlen _].
    split; [rewrite subarray_length; lia|].
    apply (subarray_take_drop datagram 14 4).
  - intros key rt ptype code uid pid payload Hparse.
    apply parseSSGSCP_Some_inv in Hparse as (Hmagic & _ & Hparsed).
    unfold parsePacketGatewayUID. rewrite Hmagic. cbn [negb].
    unfold parsed_of in Hparsed.
    destruct (bufferContainsValues _ 0 [0; 1; 2; 3]%Z); [|discriminate].
    by injection Hparsed as _ _ <- _ _.
Qed.

(** The ways [packSSGSCP] ends. *)
Lemma packSSGSCP_cases (packet : Packet) (key : list Z) (rt : Runtime) :
  let rejected :=
    (packetType packet < 0 ∨ packetType packet > 255)%Z
    ∨ (∃ uid, gatewayUID packet = Some uid ∧ length uid ≠ 4)
    ∨ (packetID packet < 0 ∨ packetID packet > 65535)%Z in
  (rejected → packSSGSCP packet key rt = (Normal None, rt))
  ∧ (¬ rejected → length key ≠ 32 →
     packSSGSCP packet key rt = (Thrown InvalidKeyLength, drawn 8 rt))
  ∧ (¬ rejected → length key = 32 → gatewayUID packet = None →
     packSSGSCP packet key rt = (Thrown TypeError, drawn 8 rt))
  ∧ (¬ rejected → length key = 32 → ∀ uid, gatewayUID packet = Some uid →
     ∃ datagram, packSSGSCP packet key rt = (Normal (Some datagram), drawn 8 rt)).
Proof.
  intros rejected.
  assert (rejected → packSSGSCP packet key rt = (Normal None, rt)) as Hrejected.
  { intros [Htype|[(uid & Huid & Hlen)|Hid]]; unfold packSSGSCP.
    - by rewrite decide_True.
    - case_decide; [done|]. by rewrite Huid, bool_decide_eq_true_2.
    - case_decide; [done|].
      destruct (match gatewayUID packet with
                | Some uid => bool_decide (length uid ≠ 4)
                | None => false
                end); [done|].
      by rewrite decide_True. }
  assert (¬ rejected →
          packSSGSCP packet key rt
          = (let payload := default (Buffer_alloc 0) (payload packet) in
             let* iv := ret (iv_at (randomBytesDrawn rt) ++ Buffer_alloc 8) in
             let* cipher := createCipheriv key iv in
             let encryptedPortion := cipher_update cipher (plaintext_of packet) in
             let* packedPacket :=
               match gatewayUID packet with
               | Some uid =>
                   ret (PACKET_IDENTIFIER ++ iv_at (randomBytesDrawn rt)
                          ++ (to_uint8 <$> uid) ++ encryptedPortion)
               | None => throw TypeError
               end in
             ret (Some packedPacket)) (drawn 8 rt)) as Hsteps.
  { intros Hok. unfold packSSGSCP.
    rewrite decide_False by (intros ?; apply Hok; by left).
    assert (match gatewayUID packet with
            | Some uid => bool_decide (length uid ≠ 4)
            | None => false
            end = false) as ->.
    { destruct (gatewayUID packet) as [uid|] eqn:Huid; [|done].
      apply bool_decide_eq_false_2. intros Hlen. apply Hok. right. left. eauto. }
    rewrite decide_False by (intros ?; apply Hok; by right; right).
    cbv zeta.
    set (pl := default (Buffer_alloc 0) (payload packet)).
    set (pad := 4 - (8 + length pl) `mod` 4).
    assert (length (setU16BE (packetID packet)) = 2) as Hid2 by reflexivity.
    do 5 (rewrite bind_Buffer_set by (rewrite ?Hid2; list_length); cbv beta).
    rewrite (plaintext_writes _ _ _ pl pad Hid2).
    rewrite (to_uint8_bytes _ (setU16BE_is_bytes _)).
    change ([to_uint8 (packetType packet); 0; 1; 2; 3]%Z ++ _)
      with (plaintext_of packet).
    rewrite bind_randomBytes. fold (iv_at (randomBytesDrawn rt)).
    set (iv8 := iv_at (randomBytesDrawn rt)).
    assert (length iv8 = 8) as Hiv8 by reflexivity.
    rewrite bind_Buffer_set by (rewrite Hiv8; list_length). cbv beta.
    rewrite iv16_of_iv8, (to_uint8_bytes iv8) by (done || apply iv_at_is_bytes).
    rewrite bind_ret.
    unfold createCipheriv.
    destruct (decide (length key ≠ 32)) as [Hkey|Hkey]; [done|].
    rewrite decide_False
      by (intros Hiv; apply Hiv; rewrite length_app, Hiv8; reflexivity).
    rewrite !bind_ret, !Buffer_concat_final.
    set (enc := cipher_update _ (plaintext_of packet)).
    assert (length enc = 8 + length pl + pad) as Henc.
    { unfold enc. rewrite cipher_update_length. apply plaintext_of_length. }
    assert (length PACKET_IDENTIFIER = 6) as Hmagic by reflexivity.
    assert (length (iv8 ++ Buffer_alloc 8) = 16) as Hiv16
      by (rewrite length_app, Hiv8; reflexivity).
    do 2 (rewrite bind_Buffer_set
            by (list_length; rewrite ?Hiv16, ?Henc, ?Hmagic; cbn [length]; lia);
          cbv beta).
    destruct (gatewayUID packet) as [uid|] eqn:Huid; [|done].
    assert (length uid = 4) as Hlen.
    { destruct (decide (length uid = 4)) as [|Hne]; [done|].
      exfalso. apply Hok. right. left. eauto. }
    do 2 (rewrite bind_Buffer_set
            by (list_length; rewrite ?Hiv16, ?Hlen, ?Henc, ?Hmagic; cbn [length]; lia);
          cbv beta).
    rewrite !bind_ret.
    pose proof (packet_writes iv8 uid enc Hiv8 Hlen) as Hwrites. cbv zeta in Hwrites.
    rewrite iv16_of_iv8, (to_uint8_bytes iv8) in Hwrites
      by (done || apply iv_at_is_bytes).
    rewrite Hwrites by lia.
    rewrite (to_uint8_bytes iv8) by apply iv_at_is_bytes.
    rewrite (to_uint8_bytes enc)
      by (apply cipher_update_is_bytes;
          [intros i; apply byte_val_is_byte|apply plaintext_of_is_bytes]).
    reflexivity. }
  split_and!.
  - exact Hrejected.
  - intros Hok Hkey. rewrite (Hsteps Hok). cbv zeta. rewrite bind_ret.
    unfold createCipheriv. by rewrite decide_True.
  - intros Hok Hkey Huid. rewrite (Hsteps Hok). cbv zeta.
    rewrite bind_ret, bind_createCipheriv, Huid
      by (done || rewrite length_app, iv_at_length; reflexivity).
    reflexivity.
  - intros Hok Hkey uid Huid. rewrite (Hsteps Hok). cbv zeta.
    rewrite bind_ret, bind_createCipheriv, Huid
      by (done || rewrite length_app, iv_at_length; reflexivity).
    eexists. reflexivity.
Qed.

(** X4: the four ways [packSSGSCP] ends. A [packetType] outside [0, 255], a
    [gatewayUID] that is present and not 4 bytes long, or a [packetID]
    outside [0, 65535] gives [null] and leaves the state untouched (no random
    byte is drawn). With valid fields, a key that is not 32 bytes long makes
    [createCipheriv] throw after the IV has been drawn, an absent
    [gatewayUID] makes the final copy throw, and otherwise a datagram is
    returned. *)
Theorem packSSGSCP_outcomes (packet : Packet) (key : list Z) (rt : Runtime) :
  let rejected :=
    (packetType packet < 0 ∨ packetType packet > 255)%Z
    ∨ (∃ uid, gatewayUID packet = Some uid ∧ length uid ≠ 4)
    ∨ (packetID packet < 0 ∨ packetID packet > 65535)%Z in
  (rejected → packSSGSCP packet key rt = (Normal None, rt))
  ∧ (¬ rejected → length key ≠ 32 →
     packSSGSCP packet key rt = (Thrown InvalidKeyLength, drawn 8 rt))
  ∧ (¬ rejected → length key = 32 → gatewayUID packet = None →
     packSSGSCP packet key rt = (Thrown TypeError, drawn 8 rt))
  ∧ (¬ rejected → length key = 32 → ∀ uid, gatewayUID packet = Some uid →
     ∃ datagram, packSSGSCP packet key rt = (Normal (Some datagram), drawn 8 rt)).
Proof. apply packSSGSCP_cases. Qed.

(** X5: every datagram [packSSGSCP] returns is a buffer of bytes that
    [isSSGSCP] accepts; its bytes 6 to 13 are the 8 random bytes drawn by
    this call (and no other random byte is drawn), its bytes 14 to 17 are the
    [gatewayUID], and its encrypted portion has a length that is a multiple
    of 4 and at least 12. *)
Theorem packSSGSCP_wellformed (packet : Packet) (key datagram : list Z)
    (rt rt' : Runtime) :
  packSSGSCP packet key rt = (Normal (Some datagram), rt') →
  rt' = drawn 8 rt
  ∧ Forall is_byte datagram
  ∧ isSSGSCP datagram = true
  ∧ subarray datagram 6 14 = iv_at (randomBytesDrawn rt)
  ∧ (∃ uid, gatewayUID packet = Some uid
            ∧ parsePacketGatewayUID datagram = Some (to_uint8 <$> uid))
  ∧ length (drop 18 datagram) `mod` 4 = 0
  ∧ 12 ≤ length (drop 18 datagram).
Proof.
  intros Hpack.
  pose proof (packSSGSCP_cases packet key rt) as (Hrej & Hkey & Hnone & Hsome).
  cbv zeta in *.
  set (rejected := _ ∨ _ ∨ _) in *.
  assert (¬ rejected) as Hok.
  { intros Hbad. rewrite (Hrej Hbad) in Hpack. discriminate. }
  assert (length key = 32) as Hlen.
  { destruct (decide (length key = 32)) as [|Hne]; [done|].
    rewrite (Hkey Hok Hne) in Hpack. discriminate. }
  destruct (gatewayUID packet) as [uid|] eqn:Huid;
    [|rewrite (Hnone Hok Hlen eq_refl) in Hpack; discriminate].
  assert (valid_fields packet uid) as Hvalid.
  { unfold valid_fields. split_and!; try done.
    - destruct (decide (0 ≤ packetType packet ≤ 255)%Z) as [|Hne]; [lia|].
      exfalso. apply Hok. left. lia.
    - destruct (decide (0 ≤ packetType packet ≤ 255)%Z) as [|Hne]; [lia|].
      exfalso. apply Hok. left. lia.
    - destruct (decide (length uid = 4)) as [|Hne]; [done|].
      exfalso. apply Hok. right. left. eauto.
    - destruct (decide (0 ≤ packetID packet ≤ 65535)%Z) as [|Hne]; [lia|].
      exfalso. apply Hok. right. right. lia.
    - destruct (decide (0 ≤ packetID packet ≤ 65535)%Z) as [|Hne]; [lia|].
      exfalso. apply Hok. right. right. lia. }
  rewrite (packSSGSCP_run packet uid key rt Hvalid Hlen) in Hpack.
  injection Hpack as <- <-.
  pose proof Hvalid as (_ & _ & Huidlen & _).
  set (iv8 := iv_at (randomBytesDrawn rt)).
  assert (drop 18 (wire_of packet uid key iv8)
          = cipher_update (stream_of key iv8) (plaintext_of packet)) as Hdrop.
  { unfold wire_of. rewrite !app_assoc.
    apply drop_app_length'. rewrite !length_app, length_fmap, Huidlen. reflexivity. }
  split_and!.
  - reflexivity.
  - unfold wire_of. repeat apply Forall_app_2.
    + by apply is_bytes_check.
    + apply iv_at_is_bytes.
    + apply Forall_fmap, Forall_forall. intros v _. apply to_uint8_is_byte.
    + apply cipher_update_is_bytes;
        [intros i; apply stream_of_is_byte|apply plaintext_of_is_bytes].
  - by apply wire_of_isSSGSCP.
  - unfold wire_of. by apply subarray_app_mid.
  - exists uid. split; [done|]. unfold parsePacketGatewayUID.
    rewrite wire_of_isSSGSCP by done. cbn [negb].
    by rewrite wire_of_gatewayUID.
  - rewrite Hdrop, cipher_update_length, plaintext_of_length.
    set (n := 8 + length (default [] (payload packet))).
    pose proof (Nat.div_mod_eq n 4) as Hdiv.
    pose proof (Nat.mod_upper_bound n 4 ltac:(lia)) as Hmod.
    replace (n + (4 - n `mod` 4)) with ((n `div` 4 + 1) * 4) by lia.
    apply Nat.Div0.mod_mul.
  - rewrite Hdrop, cipher_update_length, plaintext_of_length.
    set (n := 8 + length (default [] (payload packet))).
    pose proof (Nat.div_mod_eq n 4) as Hdiv.
    pose proof (Nat.mod_upper_bound n 4 ltac:(lia)) as Hmod.
    assert (2 ≤ n `div` 4) by (apply Nat.div_le_lower_bound; lia).
    lia.
Qed.

(** ** What the authentication code covers *)

Lemma cipher_update_lookup (stream : nat → Z) (data : list Z) (i : nat) :
  cipher_update stream data !! i = (λ b, Z.lxor b (stream i)) <$> data !! i.
Proof. unfold cipher_update. apply list_lookup_imap. Qed.

Lemma lxor_inj_r (a b k : Z) : Z.lxor a k = Z.lxor b k → a = b.
Proof.
  intros Heq. rewrite <- (lxor_cancel a k), Heq. apply lxor_cancel.
Qed.

Lemma decrypted_tag_eq (stream : nat → Z) (x y : list Z) :
  5 ≤ length x → 5 ≤ length y →
  (subarray (cipher_update stream x) 1 5 = subarray (cipher_update stream y) 1 5
   ↔ subarray x 1 5 = subarray y 1 5).
Proof.
  intros Hx Hy. unfold subarray.
  split; intros Heq; apply list_eq; intros i;
    apply (f_equal (λ l, l !! i)) in Heq;
    rewrite !lookup_drop in Heq; rewrite !lookup_drop;
    destruct (decide (1 + i < 5)) as [Hin|Hout];
    try (rewrite !lookup_take_ge by lia; done);
    rewrite !lookup_take_lt in Heq by lia; rewrite !lookup_take_lt by lia.
  - rewrite !cipher_update_lookup in Heq.
    destruct (x !! (1 + i)) as [a|] eqn:Ha, (y !! (1 + i)) as [b|] eqn:Hb;
      cbn in Heq; try done.
    injection Heq as Heq. f_equal. by eapply lxor_inj_r.
  - rewrite !cipher_update_lookup. by rewrite Heq.
Qed.

(** X6: the authentication code protects four bytes only. Let a datagram
    authenticate under a key, and let another datagram that [isSSGSCP]
    accepts carry the same IV. The other datagram authenticates under that
    key exactly when its bytes 19 to 22 are those of the first one: changing
    one of these bytes is always detected, and changing the encrypted
    [packetType], [packetID], payload length or payload never is. *)
Theorem authentication_covers_tag_only (datagram other key : list Z) (rt : Runtime)
    (parsed : ParsedSSGSCPPacket) :
  (parseSSGSCP datagram key rt).1 = Normal (Some parsed) →
  authSuccess parsed = true →
  isSSGSCP other = true →
  subarray other 6 14 = subarray datagram 6 14 →
  ∃ parsed',
    (parseSSGSCP other key rt).1 = Normal (Some parsed')
    ∧ (authSuccess parsed' = true ↔ subarray other 19 23 = subarray datagram 19 23).
Proof.
  intros Hparse Hauth Hmagic' Hiv.
  apply parseSSGSCP_Some_inv in Hparse as (Hmagic & Hkey & <-).
  exists (parsed_of other key).
  split; [by rewrite parseSSGSCP_run|].
  pose proof (proj1 (isSSGSCP_spec _) Hmagic) as [Hlen _].
  pose proof (proj1 (isSSGSCP_spec _) Hmagic') as [Hlen' _].
  assert (∀ d, 26 ≤ length d →
            (authSuccess (parsed_of d key) = true
             ↔ subarray (decryptedPortion_of d key) 1 5 = [0; 1; 2; 3]%Z)) as Htag.
  { intros d Hd. unfold parsed_of.
    pose proof (bufferContainsValues_spec
                  (subarray (decryptedPortion_of d key) 1 5) [0; 1; 2; 3]%Z 0) as Hspec.
    rewrite drop_0, take_ge in Hspec
      by (rewrite subarray_length;
          [cbn; lia|unfold decryptedPortion_of;
                    rewrite cipher_update_length, length_drop; lia]).
    destruct (bufferContainsValues _ 0 [0; 1; 2; 3]%Z); cbn [authSuccess].
    - split; [intros _; by apply Hspec|done].
    - split; [done|]. intros Heq. by apply Hspec in Heq. }
  apply Htag in Hauth; [|done].
  rewrite (Htag other Hlen'), <- Hauth.
  unfold decryptedPortion_of. rewrite Hiv.
  rewrite decrypted_tag_eq by (rewrite length_drop; lia).
  unfold subarray. rewrite !take_drop_commute, !drop_drop.
  cbn [Nat.add]. done.
Qed.


(** ** The table of authorized gateways *)

Lemma lookups_take (u1 u2 : list Z) (n : nat) :
  (∀ i, i < n → u1 !! i = u2 !! i) ↔ take n u1 = take n u2.
Proof.
  split.
  - intros Hsame. apply list_eq. intros i.
    destruct (decide (i < n)) as [Hlt|Hge].
    + rewrite !lookup_take_lt by done. by apply Hsame.
    + rewrite !lookup_take_ge by lia. reflexivity.
  - intros Htake i Hlt.
    rewrite <- (lookup_take_lt u1 n i), <- (lookup_take_lt u2 n i) by done.
    by rewrite Htake.
Qed.

Lemma gatewayUIDsMatch_lookups (gatewayUID1 gatewayUID2 : list Z) :
  gatewayUIDsMatch gatewayUID1 gatewayUID2 = true
  ↔ (length gatewayUID1 = 4 ∨ length gatewayUID2 = 4)
    ∧ ∀ i, i < 4 → gatewayUID1 !! i = gatewayUID2 !! i.
Proof.
  unfold gatewayUIDsMatch. case_decide as Hlen.
  - split; [discriminate|]. intros [? _]. lia.
  - rewrite forallb_forall. split.
    + intros Hall. split; [lia|]. intros i Hi.
      eapply bool_decide_eq_true_1, Hall, in_seq. lia.
    + intros [_ Hall] i Hi%in_seq. apply bool_decide_eq_true_2, Hall. lia.
Qed.

(** X7: [gatewayUIDsMatch] answers true exactly when one of the two buffers
    has 4 bytes and both have the same first four entries. On two 4-byte
    buffers it is equality, and it is symmetric; since the length test
    rejects only when both lengths differ from 4, a 4-byte UID also matches
    every longer buffer that starts with it. *)
Theorem gatewayUIDsMatch_spec (gatewayUID1 gatewayUID2 : list Z) :
  (gatewayUIDsMatch gatewayUID1 gatewayUID2 = true
   ↔ (length gatewayUID1 = 4 ∨ length gatewayUID2 = 4)
     ∧ take 4 gatewayUID1 = take 4 gatewayUID2)
  ∧ (length gatewayUID1 = 4 → length gatewayUID2 = 4 →
     (gatewayUIDsMatch gatewayUID1 gatewayUID2 = true ↔ gatewayUID1 = gatewayUID2))
  ∧ gatewayUIDsMatch gatewayUID1 gatewayUID2 = gatewayUIDsMatch gatewayUID2 gatewayUID1
  ∧ (length gatewayUID1 = 4 → ∀ more,
     gatewayUIDsMatch gatewayUID1 (gatewayUID1 ++ more) = true).
Proof.
  assert (∀ u1 u2, gatewayUIDsMatch u1 u2 = true
                   ↔ (length u1 = 4 ∨ length u2 = 4) ∧ take 4 u1 = take 4 u2) as Hspec.
  { intros u1 u2. by rewrite gatewayUIDsMatch_lookups, lookups_take. }
  split_and!.
  - apply Hspec.
  - intros Hlen1 Hlen2. rewrite Hspec, !take_ge by lia.
    split; [by intros [_ ?]|intros Heq; split; [by left|done]].
  - apply eq_true_iff_eq. rewrite !Hspec.
    split; intros [[?|?] ?]; split; auto.
  - intros Hlen1 more. apply Hspec. split; [by left|].
    rewrite take_app_le, !take_ge by lia. reflexivity.
Qed.

Lemma isAuthorizedGateway_foldl (gateways : list AuthorizedGateway) (gatewayUID : list Z)
    (matchingUIDFound : bool) :
  foldl (λ matchingUIDFound authorizedGateway,
           if gatewayUIDsMatch (ag_gatewayUID authorizedGateway) gatewayUID
           then true else matchingUIDFound)
        matchingUIDFound gateways
  = matchingUIDFound
    || existsb (λ g, gatewayUIDsMatch (ag_gatewayUID g) gatewayUID) gateways.
Proof.
  revert matchingUIDFound.
  induction gateways as [|g gateways IH]; intros found; cbn [foldl existsb].
  - by rewrite orb_false_r.
  - rewrite IH. destruct (gatewayUIDsMatch (ag_gatewayUID g) gatewayUID); cbn.
    + by rewrite orb_true_r.
    + reflexivity.
Qed.

(** X8: the two lookups in the table agree: [isAuthorizedGateway] is true
    exactly when [getGatewayKey] returns a key, so the null test on the key
    in [process] never fires for an authorized UID. The key returned is that
    of the first entry whose UID matches. *)
Theorem isAuthorizedGateway_getGatewayKey (gateways : list AuthorizedGateway)
    (gatewayUID : list Z) :
  (isAuthorizedGateway gateways gatewayUID = true
   ↔ ∃ key, getGatewayKey gateways gatewayUID = Some key)
  ∧ (∀ key, getGatewayKey gateways gatewayUID = Some key →
       ∃ i authorizedGateway,
         gateways !! i = Some authorizedGateway
         ∧ ag_key authorizedGateway = key
         ∧ gatewayUIDsMatch (ag_gatewayUID authorizedGateway) gatewayUID = true
         ∧ ∀ j earlier, j < i → gateways !! j = Some earlier →
             gatewayUIDsMatch (ag_gatewayUID earlier) gatewayUID = false).
Proof.
  split.
  - unfold isAuthorizedGateway. rewrite isAuthorizedGateway_foldl. cbn [orb].
    induction gateways as [|g gateways IH]; cbn [existsb getGatewayKey].
    + split; [discriminate|]. by intros [? ?].
    + destruct (gatewayUIDsMatch (ag_gatewayUID g) gatewayUID); cbn [orb]; [|done].
      split; [eauto|done].
  - induction gateways as [|g gateways IH]; intros key; cbn [getGatewayKey];
      [discriminate|].
    destruct (gatewayUIDsMatch (ag_gatewayUID g) gatewayUID) eqn:Hmatch.
    + intros [= <-]. exists 0, g. split_and!; try done. intros j earlier Hj. lia.
    + intros Hkey. destruct (IH key Hkey) as (i & ag & Hlookup & Hagkey & Hag & Hfirst).
      exists (S i), ag. split_and!; try done.
      intros [|j] earlier Hj Hlookup'; cbn in Hlookup'.
      * by injection Hlookup' as <-.
      * eapply Hfirst; [|done]. lia.
Qed.


(** ** Loading the configuration *)

Lemma loadGateways_run (entries : list GatewayConfig) (rt : Runtime) :
  ∃ n,
    n ≤ length entries
    ∧ (loadGateways entries rt).2
      = with_authorizedGateways
          (authorizedGateways rt ++ take n (decoded <$> entries)) rt
    ∧ Forall well_sized (take n (decoded <$> entries))
    ∧ match (loadGateways entries rt).1 with
      | None => n = length entries
      | Some error =>
          ∃ bad, (decoded <$> entries) !! n = Some bad
                 ∧ ¬ well_sized bad
                 ∧ (error = UidLengthMustBe4 ↔ length (ag_gatewayUID bad) ≠ 4)
      end.
Proof.
  revert rt. induction entries as [|gateway entries IH]; intros rt.
  - exists 0. cbn. rewrite app_nil_r. split_and!; try done. by destruct rt.
  - cbn [loadGateways]. cbv zeta.
    destruct (decide (length (Buffer_from_hex (remove_whitespace (cfg_uid gateway))) ≠ 4))
      as [Huid|Huid].
    { exists 0. cbn. rewrite app_nil_r. split_and!; [lia|by destruct rt|done|].
      exists (decoded gateway). split_and!; [done|by intros [? _]|done]. }
    destruct (decide (length (Buffer_from_hex (remove_whitespace (cfg_key gateway))) ≠ 32))
      as [Hkey|Hkey].
    { exists 0. cbn. rewrite app_nil_r. split_and!; [lia|by destruct rt|done|].
      exists (decoded gateway). split_and!; [done|by intros [_ ?]|].
      split; [discriminate|]. intros Hbad. by destruct Huid. }
    change {| ag_gatewayUID := Buffer_from_hex (remove_whitespace (cfg_uid gateway));
              ag_key := Buffer_from_hex (remove_whitespace (cfg_key gateway)) |}
      with (decoded gateway).
    destruct (IH (with_authorizedGateways
                    (authorizedGateways rt ++ [decoded gateway]) rt))
      as (n & Hn & Hstate & Hsized & Hresult).
    exists (S n). split_and!.
    + cbn. lia.
    + rewrite Hstate. cbn. by rewrite <- app_assoc.
    + cbn. apply Forall_cons_2; [|done]. split; cbn; lia.
    + destruct (loadGateways entries _).1 as [error|]; [|cbn; lia].
      destruct Hresult as (bad & Hbad & Hnot & Hwhich). by exists bad.
Qed.

(** X9: [loadConfig] replaces the table by the decoded entries of the
    file, in the order of the file, and succeeds exactly when every decoded
    UID has 4 bytes and every decoded key 32. When it throws, the table holds
    the entries before the first bad one (all of the right sizes) and the
    error tells which field of that entry was wrong, the UID being checked
    first. Clients and effects are not touched. *)
Theorem loadConfig_spec (authorized_gateways : list GatewayConfig) (rt : Runtime) :
  let table := decoded <$> authorized_gateways in
  let result := loadConfig authorized_gateways rt in
  (result.1 = None ↔ Forall well_sized table)
  ∧ (result.1 = None → authorizedGateways result.2 = table)
  ∧ (∀ error, result.1 = Some error →
       ∃ n bad,
         table !! n = Some bad
         ∧ ¬ well_sized bad
         ∧ (error = UidLengthMustBe4 ↔ length (ag_gatewayUID bad) ≠ 4)
         ∧ authorizedGateways result.2 = take n table)
  ∧ Forall well_sized (authorizedGateways result.2)
  ∧ connectedClients result.2 = connectedClients rt
  ∧ effects result.2 = effects rt.
Proof.
  intros table result. subst result. unfold loadConfig.
  destruct (loadGateways_run authorized_gateways (with_authorizedGateways [] rt))
    as (n & Hn & Hstate & Hsized & Hresult).
  fold table in Hstate, Hsized, Hresult.
  rewrite Hstate. cbn [authorizedGateways with_authorizedGateways app
                       connectedClients effects].
  destruct (loadGateways authorized_gateways (with_authorizedGateways [] rt)).1
    as [error|].
  - destruct Hresult as (bad & Hbad & Hnot & Hwhich).
    split_and!; try done.
    + split; [discriminate|]. intros Hall. destruct Hnot.
      by eapply Forall_lookup_1.
    + intros error' [= <-]. by exists n, bad.
  - subst n. assert (take (length authorized_gateways) table = table) as Hall.
    { apply take_ge. unfold table. by rewrite length_fmap. }
    rewrite Hall in *. split_and!; try done.
Qed.

(** ** The printed form of a UID *)

Lemma hex_digit_code (d : Z) :
  (0 ≤ d < 16)%Z →
  Z.of_nat (nat_of_ascii (hex_digit d)) = (if decide (d < 10)%Z then d + 48 else d + 87)%Z.
Proof.
  intros Hd.
  assert (d = 0 ∨ d = 1 ∨ d = 2 ∨ d = 3 ∨ d = 4 ∨ d = 5 ∨ d = 6 ∨ d = 7 ∨ d = 8
          ∨ d = 9 ∨ d = 10 ∨ d = 11 ∨ d = 12 ∨ d = 13 ∨ d = 14 ∨ d = 15)%Z
    as Hcases by lia.
  repeat (destruct Hcases as [->|Hcases]; [reflexivity|]).
  by subst d.
Qed.

Lemma hex_digit_inj (d d' : Z) :
  (0 ≤ d < 16)%Z → (0 ≤ d' < 16)%Z → hex_digit d = hex_digit d' → d = d'.
Proof.
  intros Hd Hd' Heq.
  pose proof (hex_digit_code d Hd) as Hcode.
  pose proof (hex_digit_code d' Hd') as Hcode'.
  rewrite Heq in Hcode. rewrite Hcode in Hcode'.
  repeat case_decide; lia.
Qed.

Lemma padStart_toString16 (v : Z) :
  is_byte v →
  padStart 2 "0" (toString16 v)
  = String (hex_digit (v / 16)) (String (hex_digit (v mod 16)) EmptyString).
Proof.
  intros Hv. unfold is_byte in Hv. unfold toString16, padStart.
  case_decide as Hsmall; cbn.
  - rewrite Z.div_small, Z.mod_small by lia. reflexivity.
  - reflexivity.
Qed.

Lemma uidToString_bytes (a b c d : Z) :
  is_byte a → is_byte b → is_byte c → is_byte d →
  uidToString [a; b; c; d]
  = String "[" (String (hex_digit (a / 16)) (String (hex_digit (a mod 16))
      (String " " (String (hex_digit (b / 16)) (String (hex_digit (b mod 16))
      (String " " (String (hex_digit (c / 16)) (String (hex_digit (c mod 16))
      (String " " (String (hex_digit (d / 16)) (String (hex_digit (d mod 16))
      (String "]" EmptyString)))))))))))).
Proof.
  intros Ha Hb Hc Hd. unfold uidToString. rewrite decide_False by (cbn; lia).
  cbn [uidString_of]. rewrite !padStart_toString16 by done. reflexivity.
Qed.

Lemma byte_of_digits (v v' : Z) :
  is_byte v → is_byte v' →
  hex_digit (v / 16) = hex_digit (v' / 16) →
  hex_digit (v mod 16) = hex_digit (v' mod 16) → v = v'.
Proof.
  unfold is_byte. intros Hv Hv' Hhi Hlo.
  apply hex_digit_inj in Hhi;
    [|split; [apply Z.div_pos; lia|apply Z.div_lt_upper_bound; lia]..].
  apply hex_digit_inj in Hlo; [|apply Z.mod_pos_bound; lia..].
  rewrite (Z.div_mod v 16), (Z.div_mod v' 16) by lia. lia.
Qed.

(** X10: [uidToString] answers 'Invalid UID' exactly for the buffers that
    do not have 4 bytes. For a 4-byte buffer the string has 13 characters,
    an opening bracket, four groups of two lower-case hexadecimal digits
    separated by one space, and a closing bracket, and two different UIDs
    never print alike. *)
Theorem uidToString_spec (uid : list Z) :
  (uidToString uid = "Invalid UID"%string ↔ length uid ≠ 4)
  ∧ (length uid = 4 → Forall is_byte uid →
     String.length (uidToString uid) = 13
     ∧ ∀ uid', length uid' = 4 → Forall is_byte uid' →
         uidToString uid = uidToString uid' → uid = uid')
  ∧ (∀ a b c d, uid = [a; b; c; d] → Forall is_byte uid →
     uidToString uid
     = String "[" (String (hex_digit (a / 16)) (String (hex_digit (a mod 16))
         (String " " (String (hex_digit (b / 16)) (String (hex_digit (b mod 16))
         (String " " (String (hex_digit (c / 16)) (String (hex_digit (c mod 16))
         (String " " (String (hex_digit (d / 16)) (String (hex_digit (d mod 16))
         (String "]" EmptyString))))))))))))).
Proof.
  split_and!.
  - unfold uidToString. case_decide as Hlen; [done|].
    split; [|done]. cbn. discriminate.
  - intros Hlen Hbytes.
    destruct uid as [|a [|b [|c [|d [|]]]]]; try discriminate Hlen.
    apply Forall_cons in Hbytes as [Ha Hbytes].
    apply Forall_cons in Hbytes as [Hb Hbytes].
    apply Forall_cons in Hbytes as [Hc Hbytes].
    apply Forall_cons in Hbytes as [Hd _].
    rewrite uidToString_bytes by done. split; [reflexivity|].
    intros uid' Hlen' Hbytes'.
    destruct uid' as [|a' [|b' [|c' [|d' [|]]]]]; try discriminate Hlen'.
    apply Forall_cons in Hbytes' as [Ha' Hbytes'].
    apply Forall_cons in Hbytes' as [Hb' Hbytes'].
    apply Forall_cons in Hbytes' as [Hc' Hbytes'].
    apply Forall_cons in Hbytes' as [Hd' _].
    rewrite uidToString_bytes by done.
    intros [= Ha1 Ha2 Hb1 Hb2 Hc1 Hc2 Hd1 Hd2].
    by rewrite (byte_of_digits a a'), (byte_of_digits b b'),
               (byte_of_digits c c'), (byte_of_digits d d').
  - intros a b c d -> Hbytes.
    apply Forall_cons in Hbytes as [Ha Hbytes].
    apply Forall_cons in Hbytes as [Hb Hbytes].
    apply Forall_cons in Hbytes as [Hc Hbytes].
    apply Forall_cons in Hbytes as [Hd _].
    by apply uidToString_bytes.
Qed.


(** ** Datagrams of a gateway that is not connected *)

Lemma not_connected_find (rt : Runtime) (uid : list Z) :
  (∀ ci client, ¬ connected rt uid ci client) →
  list_find (λ c, Is_true (gatewayUIDsMatch (c_gatewayUID c) uid)) (connectedClients rt)
  = None.
Proof.
  intros Hnone. unfold connected in Hnone.
  destruct (list_find _ (connectedClients rt)) as [[ci client]|] eqn:Hfind; [|done].
  by destruct (Hnone ci client).
Qed.

Lemma gatewayUIDsMatch_refl (uid : list Z) :
  length uid = 4 → gatewayUIDsMatch uid uid = true.
Proof. intros Hlen. apply gatewayUIDsMatch_lookups. by split; [left|]. Qed.

(** X11: the first CONN of an authorized gateway, arriving from a source
    port in 1..65535, is answered by one CONNACPT, encrypted with the
    gateway's key and sent to the source of the datagram. A client object is
    appended to [connectedClients] with the UID of the packet, the source
    endpoint, the current time, packet identifier 0, a timeout of 2000 ms,
    empty queues and the gateway's key; [onconnection] is called with it,
    and from then on it is the client [process] finds for that UID. When
    the source port is 0, [socket.send] refuses the port: [process] throws
    before the client is created, and [onconnection] is not called. *)
Theorem process_handshake (datagram : list Z) (rinfo : RemoteInfo) (rt : Runtime)
    (key code uid : list Z) (pid : Z) (payload : list Z) :
  authenticated rt datagram key (Parsed CONN code uid pid payload) →
  (∀ ci client, ¬ connected rt uid ci client) →
  (valid_port (port rinfo) →
   ∃ rt' reply,
     let client_1 :=
       {| c_gatewayUID := uid;
          sourcePort := port rinfo;
          remoteAddress := address rinfo;
          lastSeen := clock (dateNowCalls rt);
          sendPacketID := 0;
          retransmissionTimeout := 2000;
          sentMessages := [];
          receivedMessageIDsFIFO := [];
          key := key |} in
     process datagram rinfo rt = (Normal tt, rt')
     ∧ connectedClients rt' = connectedClients rt ++ [client_1]
     ∧ authorizedGateways rt' = authorizedGateways rt
     ∧ effects rt'
       = effects rt ++ [SocketSend reply (port rinfo) (address rinfo);
                        CallOnConnection (length (connectedClients rt))]
     ∧ (parseSSGSCP reply key rt').1
       = Normal (Some (Parsed CONNACPT [0; 1; 2; 3]%Z uid 0 []))
     ∧ connected rt' uid (length (connectedClients rt)) client_1
     ∧ client_ok client_1
     ∧ reachable client_1)
  ∧ (¬ valid_port (port rinfo) →
     ∃ rt',
       process datagram rinfo rt = (Thrown SocketBadPort, rt')
       ∧ connectedClients rt' = connectedClients rt
       ∧ authorizedGateways rt' = authorizedGateways rt
       ∧ effects rt' = effects rt).
Proof.
  intros Hauth Hnone.
  pose proof (authenticated_inv _ _ _ _ _ _ _ _ Hauth)
    as (Hmagic & Hkey & Hparsed & Hlen & Hbytes & Hpid).
  pose proof (not_connected_find _ _ Hnone) as Hfind.
  destruct Hauth as (_ & gw & Hgw & Hyes & Hgetkey & _).
  split; intros Hport.
  - eexists. eexists. cbv zeta.
    split.
    { unfold process. rewrite Hgw, bind_gets, Hyes. cbn [negb]. rewrite Hgetkey.
      rewrite bind_parseSSGSCP, Hparsed by done.
      rewrite bind_gets, Hfind, decide_True by done.
      unfold bind at 1. rewrite sendCONNACPT_run by done.
      rewrite bind_Date_now. reflexivity. }
    cbn [connectedClients with_clients emitted drawn ticked effects authorizedGateways
         dateNowCalls].
    split; [reflexivity|]. split; [reflexivity|].
    split; [by rewrite <- app_assoc|].
    split; [apply parse_sent_fields; unfold CONNACPT; try done; lia|].
    split; [|split; [|exact Hport]].
    + unfold connected. cbn [connectedClients with_clients emitted].
      apply list_find_Some. split_and!.
      * by rewrite lookup_app_r, Nat.sub_diag.
      * cbn. rewrite gatewayUIDsMatch_refl by done. done.
      * intros j c Hj Hlt. rewrite lookup_app_l in Hj by done.
        apply list_find_None in Hfind.
        by apply (Forall_lookup_1 _ _ _ _ Hfind Hj).
    + unfold client_ok. cbn. split_and!; try done; lia.
  - eexists. split.
    { unfold process. rewrite Hgw, bind_gets, Hyes. cbn [negb]. rewrite Hgetkey.
      rewrite bind_parseSSGSCP, Hparsed by done.
      rewrite bind_gets, Hfind, decide_True by done.
      unfold bind at 1. rewrite sendCONNACPT_bad_port by done. reflexivity. }
    split_and!; reflexivity.
Qed.

(** X12: an authenticated packet of any type other than CONN from a gateway
    that has no client object, arriving from a source port in 1..65535, is
    answered by one CONNFAIL, sent to the source and packed with the key of
    32 zero bytes. When the source port is 0, [socket.send] refuses the
    port: [process] throws and nothing is sent. In both cases no client is
    created, so nothing is delivered to the application. *)
Theorem process_before_handshake (datagram : list Z) (rinfo : RemoteInfo)
    (rt : Runtime) (key : list Z) (ptype : Z) (code uid : list Z) (pid : Z)
    (payload : list Z) :
  authenticated rt datagram key (Parsed ptype code uid pid payload) →
  ptype ≠ CONN →
  (∀ ci client, ¬ connected rt uid ci client) →
  (valid_port (port rinfo) →
   ∃ rt' reply,
     process datagram rinfo rt = (Normal tt, rt')
     ∧ connectedClients rt' = connectedClients rt
     ∧ authorizedGateways rt' = authorizedGateways rt
     ∧ effects rt' = effects rt ++ [SocketSend reply (port rinfo) (address rinfo)]
     ∧ (parseSSGSCP reply (Buffer_alloc 32) rt').1
       = Normal (Some (Parsed CONNFAIL [0; 1; 2; 3]%Z uid 0 [])))
  ∧ (¬ valid_port (port rinfo) →
     ∃ rt',
       process datagram rinfo rt = (Thrown SocketBadPort, rt')
       ∧ connectedClients rt' = connectedClients rt
       ∧ authorizedGateways rt' = authorizedGateways rt
       ∧ effects rt' = effects rt).
Proof.
  intros Hauth Htype Hnone.
  pose proof (authenticated_inv _ _ _ _ _ _ _ _ Hauth)
    as (Hmagic & Hkey & Hparsed & Hlen & Hbytes & Hpid).
  pose proof (not_connected_find _ _ Hnone) as Hfind.
  destruct Hauth as (_ & gw & Hgw & Hyes & Hgetkey & _).
  assert (process datagram rinfo rt = sendCONNFAIL rinfo uid rt) as ->.
  { unfold process. rewrite Hgw, bind_gets, Hyes. cbn [negb]. rewrite Hgetkey.
    rewrite bind_parseSSGSCP, Hparsed by done.
    by rewrite bind_gets, Hfind, decide_False by done. }
  split; intros Hport.
  - eexists. eexists.
    split; [by apply sendCONNFAIL_run|].
    split; [reflexivity|]. split; [reflexivity|]. split; [reflexivity|].
    apply parse_sent_fields; unfold CONNFAIL; try done; lia.
  - eexists. split; [by apply sendCONNFAIL_bad_port|].
    split_and!; reflexivity.
Qed.

(** ** Acknowledgements of the gateway *)

Lemma list_find_first (pid : Z) (before after : list SentMessage) (m : SentMessage) :
  sm_packetID m = pid → pid ∉ sm_packetID <$> before →
  list_find (λ m, sm_packetID m = pid) (before ++ m :: after) = Some (length before, m).
Proof.
  intros Hm Hbefore. apply list_find_Some. split_and!.
  - by rewrite lookup_app_r, Nat.sub_diag.
  - done.
  - intros j y Hj Hlt Hy. rewrite lookup_app_l in Hj by done.
    apply Hbefore. rewrite <- Hy. apply list_elem_of_fmap. exists y.
    split; [done|]. by eapply list_elem_of_lookup_2.
Qed.

Lemma filter_all {A} (P : A → Prop) `{∀ x, Decision (P x)} (l : list A) :
  Forall P l → filter P l = l.
Proof.
  induction 1 as [|x l Hx _ IH]; [done|].
  by rewrite filter_cons_True, IH.
Qed.

Lemma not_in_fmap_Forall (pid : Z) (messages : list SentMessage) :
  pid ∉ sm_packetID <$> messages → Forall (λ m, sm_packetID m ≠ pid) messages.
Proof.
  intros Hnot. apply Forall_forall. intros m Hm Heq. apply Hnot.
  rewrite <- Heq. apply list_elem_of_fmap. by exists m.
Qed.

Lemma filter_first (pid : Z) (before after : list SentMessage) (m : SentMessage) :
  sm_packetID m = pid →
  NoDup (sm_packetID <$> before ++ m :: after) →
  filter (λ m, sm_packetID m ≠ pid) (before ++ m :: after) = before ++ after.
Proof.
  intros Hm Hdistinct.
  rewrite fmap_app, fmap_cons, Hm in Hdistinct.
  apply NoDup_app in Hdistinct as (_ & Hbefore & Hafter).
  apply NoDup_cons in Hafter as [Hafter _].
  rewrite filter_app, filter_cons_False by (intros Hne; by apply Hne).
  rewrite !filter_all; [done|by apply not_in_fmap_Forall|].
  apply not_in_fmap_Forall. intros Hin. apply (Hbefore pid Hin). by left.
Qed.

(** X13: an RCPTOK of a connected gateway is not answered. It removes from
    [sentMessages] the oldest message that carries its packet identifier and
    leaves the others in their order; when no pending message carries it,
    the list stays as it is. While the pending identifiers are distinct, no
    message with the acknowledged identifier is left. Apart from that only
    [lastSeen] is written. *)
Theorem process_RCPTOK (datagram : list Z) (rinfo : RemoteInfo) (rt : Runtime)
    (key code uid : list Z) (pid : Z) (payload : list Z) (ci : nat) (client : Client) :
  authenticated rt datagram key (Parsed RCPTOK code uid pid payload) →
  connected rt uid ci client →
  ∃ rt' pending,
    process datagram rinfo rt = (Normal tt, rt')
    ∧ effects rt' = effects rt
    ∧ authorizedGateways rt' = authorizedGateways rt
    ∧ connectedClients rt'
      = <[ci := with_sentMessages (with_lastSeen client (clock (dateNowCalls rt))) pending]>
          (connectedClients rt)
    ∧ (pid ∉ sm_packetID <$> sentMessages client → pending = sentMessages client)
    ∧ (∀ before m after,
         sentMessages client = before ++ m :: after →
         sm_packetID m = pid → pid ∉ sm_packetID <$> before →
         pending = before ++ after)
    ∧ (NoDup (sm_packetID <$> sentMessages client) →
       pending = filter (λ m, sm_packetID m ≠ pid) (sentMessages client)).
Proof.
  intros Hauth Hfind.
  rewrite (process_connected _ rinfo _ _ _ _ _ _ _ _ _ Hauth Hfind). cbv zeta.
  unfold dispatch.
  rewrite decide_False by (unfold RCPTOK, CONN; lia).
  rewrite decide_True by done.
  cbn [sentMessages with_lastSeen].
  destruct (list_find (λ m, sm_packetID m = pid) (sentMessages client))
    as [[index found]|] eqn:Hfirst.
  - apply list_find_Some in Hfirst as (Hlookup & Hfound & Hearlier).
    pose proof (take_drop_middle _ _ _ Hlookup) as Hsplit.
    assert (pid ∉ sm_packetID <$> take index (sentMessages client)) as Hbefore.
    { intros Hin. apply list_elem_of_fmap in Hin as (y & Hy & Hin).
      apply list_elem_of_lookup in Hin as (j & Hj).
      pose proof (lookup_lt_Some _ _ _ Hj) as Hlt.
      rewrite length_take in Hlt.
      rewrite lookup_take_lt in Hj by lia.
      apply (Hearlier j y Hj); [lia|done]. }
    assert (index = length (take index (sentMessages client))) as Hindex.
    { apply lookup_lt_Some in Hlookup. rewrite length_take. lia. }
    eexists. exists (delete index (sentMessages client)).
    split; [reflexivity|].
    cbn [connectedClients with_clients emitted drawn ticked effects authorizedGateways].
    rewrite list_insert_insert_eq.
    split; [reflexivity|]. split; [reflexivity|]. split; [reflexivity|].
    split_and!.
    + intros Hnot. destruct Hnot. rewrite <- Hfound. apply list_elem_of_fmap.
      exists found. split; [done|]. by eapply list_elem_of_lookup_2.
    + intros before m after Hpending Hm Hnotin.
      pose proof (list_find_first pid before after m Hm Hnotin) as Hagain.
      rewrite <- Hpending in Hagain.
      apply list_find_Some in Hagain as (Hlookup' & _ & Hearlier').
      assert (index = length before) as ->.
      { destruct (Nat.lt_trichotomy index (length before)) as [Hlt|[Heq|Hgt]];
          [|done|].
        - by destruct (Hearlier' index found Hlookup Hlt).
        - by destruct (Hearlier (length before) m Hlookup' Hgt). }
      rewrite Hpending. apply delete_middle.
    + intros Hdistinct. rewrite <- Hsplit.
      rewrite <- Hsplit in Hdistinct.
      rewrite (filter_first pid _ _ found Hfound Hdistinct).
      rewrite Hindex at 1. by rewrite delete_middle.
  - apply list_find_None in Hfirst.
    eexists. exists (sentMessages client).
    split; [reflexivity|].
    cbn [connectedClients with_clients emitted drawn ticked effects authorizedGateways].
    split; [reflexivity|]. split; [reflexivity|].
    split; [by destruct client|].
    split_and!.
    + done.
    + intros before m after Hpending Hm _. rewrite Hpending in Hfirst.
      apply Forall_app in Hfirst as [_ Hfirst].
      apply Forall_cons in Hfirst as [Hne _]. by destruct Hne.
    + intros _. by rewrite filter_all.
Qed.

(** X14: a packet of a connected gateway whose type is none of CONN, RCPTOK
    and MSGSTATUS is dropped: nothing is sent and nothing is delivered, only
    [lastSeen] is written. For MSGCONF, CONNACPT and CONNFAIL that is all;
    for any other type the assertion of the default clause fails, which is
    logged and does not throw. *)
Theorem process_other_types (datagram : list Z) (rinfo : RemoteInfo) (rt : Runtime)
    (key : list Z) (ptype : Z) (code uid : list Z) (pid : Z) (payload : list Z)
    (ci : nat) (client : Client) :
  authenticated rt datagram key (Parsed ptype code uid pid payload) →
  connected rt uid ci client →
  ptype ≠ CONN → ptype ≠ RCPTOK → ptype ≠ MSGSTATUS →
  let seen :=
    with_clients (<[ci := with_lastSeen client (clock (dateNowCalls rt))]>
                    (connectedClients rt)) (ticked rt) in
  process datagram rinfo rt
  = (Normal tt,
     if decide (ptype = MSGCONF ∨ ptype = CONNACPT ∨ ptype = CONNFAIL) then seen
     else emitted AssertionFailed seen).
Proof.
  intros Hauth Hfind Hconn Hrcptok Hmsgstatus seen.
  rewrite (process_connected _ rinfo _ _ _ _ _ _ _ _ _ Hauth Hfind). cbv zeta.
  unfold dispatch. fold seen.
  repeat case_decide; try reflexivity; exfalso;
    unfold CONN, RCPTOK, MSGSTATUS, MSGCONF, CONNACPT, CONNFAIL in *; lia.
Qed.


(** ** [process] returns *)

Lemma getGatewayKey_elem (gateways : list AuthorizedGateway) (gatewayUID key : list Z) :
  getGatewayKey gateways gatewayUID = Some key →
  ∃ authorizedGateway,
    authorizedGateway ∈ gateways ∧ ag_key authorizedGateway = key.
Proof.
  induction gateways as [|g gateways IH]; cbn [getGatewayKey]; [discriminate|].
  destruct (gatewayUIDsMatch (ag_gatewayUID g) gatewayUID).
  - intros [= <-]. exists g. split; [by left|done].
  - intros Hkey. destruct (IH Hkey) as (ag & Hin & Hag).
    exists ag. split; [by right|done].
Qed.

Lemma dispatch_returns (ci : nat) (client : Client) (rinfo : RemoteInfo)
    (key : list Z) (ptype : Z) (uid : list Z) (pid : Z) (payload : list Z)
    (rt : Runtime) :
  length uid = 4 → length key = 32 → (0 ≤ pid ≤ 65535)%Z → valid_port (port rinfo) →
  (dispatch ci client rinfo key ptype uid pid payload rt).1 = Normal tt.
Proof.
  intros Huid Hkey Hpid Hport. unfold dispatch.
  case_decide.
  { cbv zeta. rewrite bind_store_client. unfold bind at 1.
    by rewrite sendCONNACPT_run. }
  case_decide.
  { by destruct (list_find _ (sentMessages client)) as [[index m]|]. }
  case_decide.
  { case_bool_decide; [by rewrite sendRCPTOK_run|].
    cbv zeta. rewrite bind_store_client. unfold bind at 1.
    by rewrite sendRCPTOK_run. }
  by repeat case_decide.
Qed.

Lemma process_Normal (datagram : list Z) (rinfo : RemoteInfo) (rt : Runtime) :
  Forall is_byte datagram →
  Forall (λ g, length (ag_key g) = 32) (authorizedGateways rt) →
  valid_port (port rinfo) →
  (process datagram rinfo rt).1 = Normal tt.
Proof.
  intros Hbytes Hkeys Hport. unfold process.
  destruct (parsePacketGatewayUID datagram) as [gw|] eqn:Hgw; [|done].
  pose proof (parsePacketGatewayUID_Some _ _ Hgw) as [Hmagic Hsub].
  assert (length gw = 4) as Hgwlen.
  { apply isSSGSCP_spec in Hmagic as [? _]. rewrite Hsub, subarray_length; lia. }
  rewrite bind_gets.
  destruct (isAuthorizedGateway (authorizedGateways rt) gw); cbn [negb]; [|done].
  destruct (getGatewayKey (authorizedGateways rt) gw) as [key|] eqn:Hgetkey; [|done].
  assert (length key = 32) as Hkey.
  { apply getGatewayKey_elem in Hgetkey as (ag & Hin & <-).
    by apply (proj1 (Forall_forall _ _) Hkeys). }
  rewrite bind_parseSSGSCP by done.
  destruct (parsed_of datagram key) as [|ptype code uid pid payload] eqn:Hparsed;
    [by rewrite sendCONNFAIL_run|].
  pose proof (parsed_of_inv _ _ _ _ _ _ _ Hmagic Hbytes Hparsed)
    as (_ & Huid & _ & Hpid).
  rewrite bind_gets.
  destruct (list_find _ (connectedClients rt)) as [[ci client]|].
  - rewrite bind_Date_now, bind_store_client. by apply dispatch_returns.
  - case_decide; [|by rewrite sendCONNFAIL_run].
    unfold bind at 1. rewrite sendCONNACPT_run by done.
    by rewrite bind_Date_now.
Qed.

Lemma getGatewayKey_authorized (gateways : list AuthorizedGateway)
    (gatewayUID key : list Z) :
  getGatewayKey gateways gatewayUID = Some key →
  isAuthorizedGateway gateways gatewayUID = true.
Proof.
  intros Hgetkey. unfold isAuthorizedGateway. rewrite isAuthorizedGateway_foldl.
  cbn [orb]. induction gateways as [|g gateways IH];
    cbn [getGatewayKey existsb] in *; [discriminate|].
  destruct (gatewayUIDsMatch (ag_gatewayUID g) gatewayUID); [done|]. by apply IH.
Qed.

(** X15: [process] returns for every datagram that comes from a source port
    in 1..65535, as long as every key of the table has 32 bytes, which is
    what [loadConfig] checks: no such input from the network makes the
    handler throw (the application's callbacks and [SSProtocols.parse] are
    taken to return). Both conditions are needed: a datagram that carries
    the magic bytes and the UID of an entry whose key has another length
    makes the cipher throw, and a datagram from source port 0 that carries
    the UID of an authorized gateway and fails the authentication check
    makes [socket.send] throw when the CONNFAIL is sent. *)
Theorem process_returns (datagram : list Z) (rinfo : RemoteInfo) (rt : Runtime) :
  Forall is_byte datagram →
  (Forall (λ g, length (ag_key g) = 32) (authorizedGateways rt) →
   valid_port (port rinfo) →
   (process datagram rinfo rt).1 = Normal tt)
  ∧ (∀ gw key,
       parsePacketGatewayUID datagram = Some gw →
       getGatewayKey (authorizedGateways rt) gw = Some key →
       length key ≠ 32 →
       (process datagram rinfo rt).1 = Thrown InvalidKeyLength)
  ∧ (∀ gw key,
       parsePacketGatewayUID datagram = Some gw →
       getGatewayKey (authorizedGateways rt) gw = Some key →
       (parseSSGSCP datagram key rt).1 = Normal (Some AuthFailed) →
       ¬ valid_port (port rinfo) →
       (process datagram rinfo rt).1 = Thrown SocketBadPort).
Proof.
  intros Hbytes. split_and!.
  - intros Hkeys Hport. by apply process_Normal.
  - intros gw key Hgw Hgetkey Hkey. unfold process. rewrite Hgw, bind_gets.
    pose proof (parsePacketGatewayUID_Some _ _ Hgw) as [Hmagic _].
    rewrite (getGatewayKey_authorized _ _ _ Hgetkey).
    cbn [negb]. rewrite Hgetkey. unfold bind at 1.
    pose proof (parseSSGSCP_bad_key datagram key rt Hmagic Hkey) as Hthrown.
    destruct (parseSSGSCP datagram key rt) as [[parsed|e] rt1]; cbn in Hthrown;
      [discriminate|].
    by injection Hthrown as ->.
  - intros gw key Hgw Hgetkey Hparse Hport.
    pose proof (parsePacketGatewayUID_Some _ _ Hgw) as [Hmagic Hsub].
    assert (length gw = 4) as Hgwlen.
    { apply isSSGSCP_spec in Hmagic as [? _]. rewrite Hsub, subarray_length; lia. }
    apply parseSSGSCP_Some_inv in Hparse as (_ & Hkey & Hparsed).
    unfold process. rewrite Hgw, bind_gets.
    rewrite (getGatewayKey_authorized _ _ _ Hgetkey).
    cbn [negb]. rewrite Hgetkey.
    rewrite bind_parseSSGSCP, Hparsed by done.
    by rewrite sendCONNFAIL_bad_port.
Qed.


(** ** The server over time *)

Lemma gateways_bind {A B} (m : M A) (k : A → M B) :
  keeps_gateways m → (∀ a, keeps_gateways (k a)) → keeps_gateways (bind m k).
Proof.
  intros Hm Hk rt. unfold bind. specialize (Hm rt).
  destruct (m rt) as [[a|e] rt1]; cbn in *; [by rewrite Hk|done].
Qed.

Lemma gateways_createCipheriv (key iv : list Z) : keeps_gateways (createCipheriv key iv).
Proof. unfold createCipheriv. by repeat case_decide. Qed.

Lemma gateways_orRangeError {A} (o : option A) : keeps_gateways (orRangeError o).
Proof. by destruct o. Qed.

Lemma gateways_socket_send (msg : option (list Z)) (p : Z) (a : string) :
  keeps_gateways (socket_send msg p a).
Proof. destruct msg; [|done]. unfold socket_send. by case_decide. Qed.

Ltac gateways_step :=
  repeat first
    [ apply gateways_orRangeError | apply gateways_socket_send
    | apply gateways_createCipheriv
    | apply gateways_bind; [|intros ?]
    | by intros ? ].

Lemma gateways_packSSGSCP (packet : Packet) (key : list Z) :
  keeps_gateways (packSSGSCP packet key).
Proof.
  unfold packSSGSCP.
  case_decide; [gateways_step|].
  destruct (match gatewayUID packet with
            | Some uid => bool_decide (length uid ≠ 4)
            | None => false
            end); [gateways_step|].
  case_decide; [gateways_step|].
  cbv zeta. gateways_step. destruct (gatewayUID packet); gateways_step.
Qed.

Lemma gateways_sendCONNFAIL (rinfo : RemoteInfo) (uid : list Z) :
  keeps_gateways (sendCONNFAIL rinfo uid).
Proof.
  unfold sendCONNFAIL. cbv zeta.
  apply gateways_bind; [apply gateways_packSSGSCP|intros ?; apply gateways_socket_send].
Qed.

Lemma gateways_sendCONNACPT (rinfo : RemoteInfo) (key uid : list Z) :
  keeps_gateways (sendCONNACPT rinfo key uid).
Proof.
  unfold sendCONNACPT. cbv zeta.
  apply gateways_bind; [apply gateways_packSSGSCP|intros ?; apply gateways_socket_send].
Qed.

Lemma gateways_sendRCPTOK (pid : Z) (rinfo : RemoteInfo) (key uid : list Z) :
  keeps_gateways (sendRCPTOK pid rinfo key uid).
Proof.
  unfold sendRCPTOK. cbv zeta.
  apply gateways_bind; [apply gateways_packSSGSCP|intros ?; apply gateways_socket_send].
Qed.

Lemma evolved_refl (client : Client) : evolved client client.
Proof. by split_and!. Qed.

Lemma evolved_trans (c1 c2 c3 : Client) : evolved c1 c2 → evolved c2 c3 → evolved c1 c3.
Proof.
  intros (Huid & Hkey & Hid) (Huid' & Hkey' & Hid').
  split_and!; [congruence|congruence|auto].
Qed.

Lemma evolved_all_refl (clients : list Client) : Forall2 evolved clients clients.
Proof. induction clients; constructor; [apply evolved_refl|done]. Qed.

Lemma evolved_insert (clients : list Client) (ci : nat) (client client' : Client) :
  clients !! ci = Some client → evolved client client' →
  Forall2 evolved clients (<[ci := client']> clients).
Proof.
  revert ci. induction clients as [|c clients IH]; intros [|ci] Hlookup Hev;
    cbn in *; try done.
  - injection Hlookup as ->. constructor; [done|apply evolved_all_refl].
  - constructor; [apply evolved_refl|by apply IH].
Qed.

Lemma updated_refl (rt : Runtime) : updated rt rt.
Proof. split; [done|apply evolved_all_refl]. Qed.

Lemma updated_trans (rt1 rt2 rt3 : Runtime) :
  updated rt1 rt2 → updated rt2 rt3 → updated rt1 rt3.
Proof.
  intros [Htable Hclients] [Htable' Hclients']. split; [congruence|].
  eapply Forall2_trans; [apply evolved_trans|done..].
Qed.

Lemma updated_kept {A} (m : M A) (rt : Runtime) :
  keeps_clients m → keeps_gateways m → updated rt (m rt).2.
Proof.
  intros Hclients Htable. split; [apply Htable|].
  rewrite Hclients. apply evolved_all_refl.
Qed.

Lemma updated_store (rt : Runtime) (ci : nat) (client client' : Client) :
  connectedClients rt !! ci = Some client → evolved client client' →
  updated rt (with_clients (<[ci := client']> (connectedClients rt)) rt).
Proof. intros Hlookup Hev. split; [done|]. by eapply evolved_insert. Qed.

Lemma updated_grown (rt rt' : Runtime) : updated rt rt' → grown rt rt'.
Proof.
  intros [Htable Hclients]. split; [done|].
  exists (connectedClients rt'), []. by rewrite app_nil_r.
Qed.

Lemma grown_trans (rt1 rt2 rt3 : Runtime) : grown rt1 rt2 → grown rt2 rt3 → grown rt1 rt3.
Proof.
  intros (Htable & clients2 & added2 & Heq2 & Hall2)
         (Htable' & clients3 & added3 & Heq3 & Hall3).
  split; [congruence|].
  rewrite Heq2 in Hall3.
  apply Forall2_app_inv_l in Hall3 as (kept & newer & Hkept & Hnewer & ->).
  exists kept, (newer ++ added3). split; [by rewrite Heq3, app_assoc|].
  eapply Forall2_trans; [apply evolved_trans|done..].
Qed.

Lemma enqueue_sent_evolved (client : Client) (sentMessage : SentMessage) :
  evolved client (enqueue_sent client sentMessage).
Proof.
  split_and!; [done|done|]. cbn. intros Hid.
  pose proof (Z.rem_bound_pos (sendPacketID client + 1) 65536). lia.
Qed.

Lemma updated_same (rt rt' : Runtime) :
  authorizedGateways rt' = authorizedGateways rt →
  connectedClients rt' = connectedClients rt → updated rt rt'.
Proof. intros Htable Hclients. split; [done|]. rewrite Hclients. apply evolved_all_refl. Qed.

Lemma sendMSG_updated (ci : nat) (ptype : Z) (payload : option (list Z)) (rt : Runtime) :
  updated rt (sendMSG ci ptype payload rt).2.
Proof.
  unfold sendMSG. rewrite bind_gets.
  destruct (connectedClients rt !! ci) as [client|] eqn:Hlookup;
    [|apply updated_refl].
  cbv zeta. unfold bind at 1.
  set (packet := Build_Packet _ _ _ _).
  pose proof (keeps_packSSGSCP packet (key client) rt) as Hclients.
  pose proof (gateways_packSSGSCP packet (key client) rt) as Htable.
  destruct (packSSGSCP packet (key client) rt) as [[[bytes|]|e] rt1];
    cbn [snd] in *; [|by apply updated_same..].
  destruct (decide (valid_port (sourcePort client))) as [Hport|Hport];
    [|rewrite bind_socket_send_bad_port by done; by apply updated_same].
  rewrite bind_socket_send, bind_Date_now by done.
  apply (updated_trans _ rt1); [by apply updated_same|].
  split; [done|]. cbn.
  apply evolved_insert with client; [by rewrite Hclients|].
  apply enqueue_sent_evolved.
Qed.

Lemma gateways_tickSentMessages (ci : nat) (client : Client) (now : Z) (j : nat)
    (messages : list SentMessage) (retransmittedCount : nat) :
  keeps_gateways (tickSentMessages ci client now j messages retransmittedCount).
Proof.
  revert j retransmittedCount.
  induction messages as [|m messages IH]; intros j count; cbn [tickSentMessages];
    [done|].
  case_decide; [|apply IH].
  apply gateways_bind; [apply gateways_socket_send|intros _].
  apply gateways_bind; [done|intros stamp].
  apply gateways_bind; [done|intros _]. apply IH.
Qed.

Lemma gateways_tickClients : keeps_gateways tickClients.
Proof.
  unfold tickClients.
  apply gateways_bind; [done|intros now].
  apply gateways_bind; [done|intros clients].
  generalize 0.
  induction clients as [|client clients IH]; intros ci; cbn [tickEach]; [done|].
  apply gateways_bind; [apply gateways_tickSentMessages|intros _; apply IH].
Qed.

Lemma tickClients_updated (rt : Runtime) : updated rt (tickClients rt).2.
Proof.
  split; [apply gateways_tickClients|].
  eapply Forall2_impl; [apply restamps_tickClients|].
  intros client client' (-> & _). by split_and!.
Qed.

Lemma dispatch_updated (ci : nat) (client : Client) (rinfo : RemoteInfo)
    (key : list Z) (ptype : Z) (uid : list Z) (pid : Z) (payload : list Z)
    (rt : Runtime) :
  connectedClients rt !! ci = Some client →
  updated rt (dispatch ci client rinfo key ptype uid pid payload rt).2.
Proof.
  intros Hlookup. unfold dispatch.
  case_decide.
  { cbv zeta. rewrite bind_store_client.
    eapply updated_trans.
    - apply (updated_store rt ci client (restarted client rinfo) Hlookup).
      by split_and!.
    - apply updated_kept.
      + keeps.
      + apply gateways_bind; [apply gateways_sendCONNACPT|by intros ? ?]. }
  case_decide.
  { destruct (list_find _ (sentMessages client)) as [[index m]|];
      [|apply updated_refl].
    eapply (updated_store rt ci client); [done|]. by split_and!. }
  case_decide.
  { case_bool_decide.
    - apply updated_kept; [keeps|apply gateways_sendRCPTOK].
    - cbv zeta. rewrite bind_store_client.
      eapply updated_trans.
      + eapply (updated_store rt ci client (with_receivedMessageIDsFIFO client _));
          [done|]. by split_and!.
      + apply updated_kept.
        * keeps.
        * apply gateways_bind; [apply gateways_sendRCPTOK|by intros ? ?]. }
  repeat case_decide; by apply updated_same.
Qed.

Lemma bind_sendCONNACPT {B} (rinfo : RemoteInfo) (key uid : list Z) (k : unit → M B)
    (rt : Runtime) :
  length uid = 4 → length key = 32 → valid_port (port rinfo) →
  bind (sendCONNACPT rinfo key uid) k rt
  = k tt (emitted (SocketSend (wire_of (fields_of CONNACPT uid 0) uid key
                                       (iv_at (randomBytesDrawn rt)))
                              (port rinfo) (address rinfo))
                  (drawn 8 rt)).
Proof. intros Huid Hkey Hport. unfold bind at 1. by rewrite sendCONNACPT_run. Qed.

(** What [process] does to the state: it updates the clients, or it appends
    the client of a handshake. *)
Lemma process_grows (datagram : list Z) (rinfo : RemoteInfo) (rt : Runtime) :
  updated rt (process datagram rinfo rt).2
  ∨ ∃ gatewayKey now,
      isSSGSCP datagram = true
      ∧ valid_port (port rinfo)
      ∧ length gatewayKey = 32
      ∧ list_find (λ c, Is_true (gatewayUIDsMatch (c_gatewayUID c)
                                                   (subarray datagram 14 18)))
                  (connectedClients rt) = None
      ∧ authorizedGateways (process datagram rinfo rt).2 = authorizedGateways rt
      ∧ connectedClients (process datagram rinfo rt).2
        = connectedClients rt
            ++ [{| c_gatewayUID := subarray datagram 14 18;
                   sourcePort := port rinfo;
                   remoteAddress := address rinfo;
                   lastSeen := now;
                   sendPacketID := 0;
                   retransmissionTimeout := 2000;
                   sentMessages := [];
                   receivedMessageIDsFIFO := [];
                   key := gatewayKey |}].
Proof.
  unfold process.
  destruct (parsePacketGatewayUID datagram) as [gw|] eqn:Hgw;
    [|left; apply updated_refl].
  pose proof (parsePacketGatewayUID_Some _ _ Hgw) as [Hmagic Hsub].
  rewrite bind_gets.
  destruct (isAuthorizedGateway (authorizedGateways rt) gw); cbn [negb];
    [|left; apply updated_refl].
  destruct (getGatewayKey (authorizedGateways rt) gw) as [key|];
    [|left; apply updated_refl].
  destruct (decide (length key = 32)) as [Hkey|Hkey].
  2:{ left. unfold bind at 1.
      pose proof (parseSSGSCP_bad_key datagram key rt Hmagic Hkey) as Hthrown.
      pose proof (parseSSGSCP_keeps_state datagram key rt) as Hsame.
      destruct (parseSSGSCP datagram key rt) as [[parsed|e] rt1];
        cbn in Hthrown, Hsame; [discriminate|].
      subst rt1. apply updated_refl. }
  rewrite bind_parseSSGSCP by done.
  destruct (parsed_of datagram key) as [|ptype code uid pid payload] eqn:Hparsed.
  { left. apply updated_kept; [apply keeps_sendCONNFAIL|apply gateways_sendCONNFAIL]. }
  assert (uid = subarray datagram 14 18) as ->.
  { unfold parsed_of in Hparsed.
    destruct (bufferContainsValues _ 0 [0; 1; 2; 3]%Z); [|discriminate].
    by injection Hparsed as _ _ <- _ _. }
  rewrite bind_gets.
  destruct (list_find _ (connectedClients rt)) as [[ci client]|] eqn:Hfind.
  - left. rewrite bind_Date_now, bind_store_client.
    apply list_find_Some in Hfind as (Hlookup & _).
    eapply updated_trans; [|apply dispatch_updated].
    + apply (updated_trans _ (ticked rt)); [by apply updated_same|].
      eapply (updated_store (ticked rt) ci client (with_lastSeen client _)); [done|].
      by split_and!.
    + cbn. apply list_lookup_insert_eq. by eapply lookup_lt_Some.
  - case_decide.
    2:{ left. apply updated_kept; [apply keeps_sendCONNFAIL|apply gateways_sendCONNFAIL]. }
    assert (length (subarray datagram 14 18) = 4) as Huid.
    { apply isSSGSCP_spec in Hmagic as [? _]. rewrite subarray_length; lia. }
    destruct (decide (valid_port (port rinfo))) as [Hport|Hport].
    + right. exists key, (clock (dateNowCalls rt)).
      rewrite !bind_sendCONNACPT, !bind_Date_now by done. split_and!; done.
    + left. unfold bind at 1. rewrite sendCONNACPT_bad_port by done.
      by apply updated_same.
Qed.

Lemma react_grown (op : Operation) (rt : Runtime) : grown rt (react op rt).2.
Proof.
  destruct op as [ci payload|datagram rinfo|]; cbn [react].
  - apply updated_grown, sendMSG_updated.
  - destruct (process_grows datagram rinfo rt)
      as [Hupdated|(gatewayKey & now & _ & _ & _ & _ & Htable & Hclients)];
      [by apply updated_grown|].
    split; [done|]. eexists. eexists. split; [done|apply evolved_all_refl].
  - apply updated_grown, tickClients_updated.
Qed.

Lemma run_operations_grown (ops : list Operation) (rt : Runtime) :
  grown rt (run_operations ops rt).
Proof.
  revert rt. induction ops as [|op ops IH]; intros rt; cbn [run_operations].
  - apply updated_grown, updated_refl.
  - eapply grown_trans; [apply react_grown|apply IH].
Qed.

(** X16: whatever events the server handles, the table of authorized
    gateways stays as it was loaded and no client object is ever removed or
    replaced: a client keeps its position, its UID and its key (the server
    has no disconnection, [lastSeen] is only written). *)
Theorem server_state_grows (ops : list Operation) (rt : Runtime) :
  authorizedGateways (run_operations ops rt) = authorizedGateways rt
  ∧ length (connectedClients rt) ≤ length (connectedClients (run_operations ops rt))
  ∧ ∀ ci client,
      connectedClients rt !! ci = Some client →
      ∃ client',
        connectedClients (run_operations ops rt) !! ci = Some client'
        ∧ c_gatewayUID client' = c_gatewayUID client
        ∧ key client' = key client.
Proof.
  destruct (run_operations_grown ops rt) as (Htable & clients' & added & Heq & Hall).
  split; [done|]. rewrite Heq. split.
  - rewrite length_app, <- (Forall2_length _ _ _ Hall). lia.
  - intros ci client Hlookup.
    destruct (Forall2_lookup_l _ _ _ _ _ Hall Hlookup) as (client' & Hlookup' & Huid & Hkey & _).
    exists client'. split; [|done].
    by apply lookup_app_l_Some.
Qed.

Lemma evolved_gatewayUIDs (clients clients' : list Client) :
  Forall2 evolved clients clients' →
  c_gatewayUID <$> clients' = c_gatewayUID <$> clients.
Proof.
  induction 1 as [|c c' clients clients' (Huid & _) _ IH]; [done|].
  cbn. by rewrite Huid, IH.
Qed.

Lemma updated_consistent (rt rt' : Runtime) :
  updated rt rt' → consistent rt → consistent rt'.
Proof.
  intros [_ Hall] [Hok Hdistinct]. split.
  - eapply Forall2_Forall_r; [done|].
    eapply Forall_impl; [done|].
    intros c (Hlen & Hbytes & Hkey & Hid) c' (Huid' & Hkey' & Hid').
    unfold client_ok. rewrite Huid', Hkey'. split_and!; try done; by apply Hid'.
  - by rewrite (evolved_gatewayUIDs _ _ Hall).
Qed.

Lemma react_consistent (op : Operation) (rt : Runtime) :
  from_socket op → consistent rt → consistent (react op rt).2.
Proof.
  intros Hop Hrt.
  destruct op as [ci payload|datagram rinfo|]; cbn [react].
  - eapply updated_consistent; [apply sendMSG_updated|done].
  - destruct (process_grows datagram rinfo rt)
      as [Hupdated|(gatewayKey & now & Hmagic & _ & Hkey & Hnone & _ & Hclients)];
      [by eapply updated_consistent|].
    cbn in Hop. destruct Hrt as [Hok Hdistinct].
    assert (length (subarray datagram 14 18) = 4) as Huid.
    { apply isSSGSCP_spec in Hmagic as [? _]. rewrite subarray_length; lia. }
    unfold consistent. rewrite Hclients. split.
    + apply Forall_app. split; [done|].
      apply Forall_cons_2; [|apply Forall_nil_2].
      unfold client_ok. cbn.
      split_and!; [done|by apply subarray_is_bytes|done|lia|lia].
    + rewrite fmap_app. apply NoDup_app. split_and!.
      * done.
      * intros uid Hin Hnew. apply list_elem_of_singleton in Hnew. subst uid.
        apply list_elem_of_fmap in Hin as (c & Hc & Hin).
        apply list_find_None in Hnone.
        apply (proj1 (Forall_forall _ _) Hnone c Hin).
        rewrite <- Hc, gatewayUIDsMatch_refl by done. done.
      * apply NoDup_singleton.
  - eapply updated_consistent; [apply tickClients_updated|done].
Qed.

Lemma run_operations_consistent (ops : list Operation) (rt : Runtime) :
  Forall from_socket ops → consistent rt → consistent (run_operations ops rt).
Proof.
  intros Hops. revert rt.
  induction Hops as [|op ops Hop _ IH]; intros rt Hrt; cbn [run_operations]; [done|].
  by apply IH, react_consistent.
Qed.

(** X17: a server whose clients are well formed and have distinct UIDs
    stays so whatever it handles, the datagrams being buffers: there is at
    most one client object per gateway, and it is the one [process] finds
    for the gateway's UID. *)
Theorem server_stays_consistent (ops : list Operation) (rt : Runtime) :
  Forall from_socket ops → consistent rt →
  consistent (run_operations ops rt)
  ∧ ∀ ci client,
      connectedClients (run_operations ops rt) !! ci = Some client →
      connected (run_operations ops rt) (c_gatewayUID client) ci client.
Proof.
  intros Hops Hrt.
  pose proof (run_operations_consistent ops rt Hops Hrt) as Hlater.
  split; [done|]. destruct Hlater as [Hok Hdistinct].
  intros ci client Hlookup. apply list_find_Some. split_and!.
  - done.
  - rewrite gatewayUIDsMatch_refl; [done|].
    by apply (Forall_lookup_1 _ _ _ _ Hok Hlookup).
  - intros j other Hj Hlt Hmatch.
    pose proof (Forall_lookup_1 _ _ _ _ Hok Hlookup) as (Hlen & _).
    pose proof (Forall_lookup_1 _ _ _ _ Hok Hj) as (Hlen' & _).
    apply Is_true_true, gatewayUIDsMatch_lookups in Hmatch as [_ Hsame].
    apply lookups_take in Hsame. rewrite !take_ge in Hsame by lia.
    assert (j = ci); [|lia].
    eapply NoDup_lookup; [done|..].
    + by rewrite list_lookup_fmap, Hj.
    + by rewrite list_lookup_fmap, Hlookup, Hsame.
Qed.

Lemma reachable_keeps {A} (m : M A) : keeps_clients m → stays_reachable m.
Proof. intros Hm rt Hall. by rewrite Hm. Qed.

Lemma reachable_bind {A B} (m : M A) (k : A → M B) :
  stays_reachable m → (∀ a, stays_reachable (k a)) → stays_reachable (bind m k).
Proof.
  intros Hm Hk rt Hall. unfold bind. specialize (Hm rt Hall).
  destruct (m rt) as [[a|e] rt1]; cbn in *; [by apply Hk|done].
Qed.

Lemma reachable_store_client (ci : nat) (client : Client) :
  reachable client → stays_reachable (store_client ci client).
Proof. intros Hc rt Hall. by apply Forall_insert. Qed.

Lemma dispatch_reachable (ci : nat) (client : Client) (rinfo : RemoteInfo)
    (key : list Z) (ptype : Z) (uid : list Z) (pid : Z) (payload : list Z) :
  reachable client → valid_port (port rinfo) →
  stays_reachable (dispatch ci client rinfo key ptype uid pid payload).
Proof.
  intros Hclient Hport. unfold dispatch.
  case_decide.
  { cbv zeta. apply reachable_bind.
    - by apply reachable_store_client.
    - intros _. apply reachable_keeps. keeps. }
  case_decide.
  { destruct (list_find _ (sentMessages client)) as [[index m]|];
      [|apply reachable_keeps; keeps].
    by apply reachable_store_client. }
  case_decide.
  { case_bool_decide; [apply reachable_keeps; keeps|].
    cbv zeta. apply reachable_bind.
    - by apply reachable_store_client.
    - intros _. apply reachable_keeps. keeps. }
  repeat case_decide; apply reachable_keeps; keeps.
Qed.

Lemma process_reachable (datagram : list Z) (rinfo : RemoteInfo) :
  valid_port (port rinfo) → stays_reachable (process datagram rinfo).
Proof.
  intros Hport rt Hall. unfold process.
  destruct (parsePacketGatewayUID datagram) as [gw|]; [|done].
  rewrite bind_gets.
  destruct (isAuthorizedGateway (authorizedGateways rt) gw); cbn [negb]; [|done].
  destruct (getGatewayKey (authorizedGateways rt) gw) as [key|]; [|done].
  unfold bind at 1.
  pose proof (parseSSGSCP_keeps_state datagram key rt) as Hsame.
  destruct (parseSSGSCP datagram key rt) as [[parsed|e] rt1]; cbn in Hsame; subst rt1;
    [|done].
  destruct parsed as [[|ptype code uid pid payload]|];
    [by apply (reachable_keeps _ (keeps_sendCONNFAIL _ _))|
    |by apply (reachable_keeps _ (keeps_sendCONNFAIL _ _))].
  rewrite bind_gets.
  destruct (list_find _ (connectedClients rt)) as [[ci client]|] eqn:Hfind.
  - rewrite bind_Date_now, bind_store_client.
    apply list_find_Some in Hfind as (Hlookup & _).
    assert (reachable client) as Hclient by by eapply Forall_lookup_1.
    apply dispatch_reachable; [done|done|].
    by apply Forall_insert.
  - case_decide; [|by apply (reachable_keeps _ (keeps_sendCONNFAIL _ _))].
    unfold bind at 1.
    pose proof (keeps_sendCONNACPT rinfo (Buffer_copy key) uid rt) as Hkeeps.
    destruct (sendCONNACPT rinfo (Buffer_copy key) uid rt) as [[[]|e] rt1];
      cbn [snd] in Hkeeps; [|change (Forall reachable (connectedClients rt1));
                                by rewrite Hkeeps].
    rewrite bind_Date_now. cbv zeta.
    unfold bind at 1. cbn [set_connectedClients perform snd connectedClients
                           with_clients emitted ticked].
    apply Forall_app. split; [done|].
    apply Forall_cons_2; [done|apply Forall_nil_2].
Qed.

Lemma sendMSG_reachable (ci : nat) (ptype : Z) (payload : option (list Z)) :
  stays_reachable (sendMSG ci ptype payload).
Proof.
  intros rt Hall. unfold sendMSG. rewrite bind_gets.
  destruct (connectedClients rt !! ci) as [client|] eqn:Hlookup; [|done].
  assert (reachable client) as Hclient by by eapply Forall_lookup_1.
  cbv zeta. clear Hlookup. revert rt Hall.
  apply reachable_bind; [apply reachable_keeps; keeps|].
  intros [bytes|]; [|apply reachable_keeps; keeps].
  apply reachable_bind; [apply reachable_keeps; keeps|intros _].
  apply reachable_bind; [apply reachable_keeps; keeps|intros now].
  by apply reachable_store_client.
Qed.

Lemma tickClients_reachable : stays_reachable tickClients.
Proof.
  intros rt Hall. pose proof (restamps_tickClients rt) as Hrestamped.
  induction Hrestamped as [|client client' clients clients' (-> & _) _ IH]; [done|].
  apply Forall_cons in Hall as [Hclient Hrest].
  apply Forall_cons_2; [done|by apply IH].
Qed.

Lemma react_reachable (op : Operation) : answerable op → stays_reachable (react op).
Proof.
  destruct op as [ci payload|datagram rinfo|]; intros Hop.
  - apply sendMSG_reachable.
  - destruct Hop as [_ Hport]. by apply process_reachable.
  - apply tickClients_reachable.
Qed.

Lemma run_operations_reachable (ops : list Operation) (rt : Runtime) :
  Forall answerable ops → Forall reachable (connectedClients rt) →
  Forall reachable (connectedClients (run_operations ops rt)).
Proof.
  intros Hops. revert rt.
  induction Hops as [|op ops Hop _ IH]; intros rt Hrt; cbn [run_operations]; [done|].
  by apply IH, react_reachable.
Qed.

Lemma answerable_from_socket (op : Operation) : answerable op → from_socket op.
Proof. destruct op; [done|by intros [? _]|done]. Qed.

(** X18: once [loadConfig] has succeeded, no event that the socket can
    answer makes a handler throw: as long as every datagram comes from a
    source port in 1..65535, after any sequence of events [process] returns
    for every such datagram, [tickClients] returns, and [client.send]
    returns for every client that exists (the application's callbacks and
    [SSProtocols.parse] are taken to return). *)
Theorem configured_server_runs (authorized_gateways : list GatewayConfig)
    (rt0 : Runtime) (ops : list Operation) (op : Operation) :
  let rt := (loadConfig authorized_gateways rt0).2 in
  (loadConfig authorized_gateways rt0).1 = None →
  consistent rt0 →
  Forall reachable (connectedClients rt0) →
  Forall answerable ops → answerable op →
  (∀ ci payload, op = Send ci payload →
     ci < length (connectedClients (run_operations ops rt))) →
  (react op (run_operations ops rt)).1 = Normal tt.
Proof.
  intros rt Hloaded Hrt0 Hports0 Hops Hop Hexists.
  destruct (loadGateways_run authorized_gateways (with_authorizedGateways [] rt0))
    as (n & _ & Hstate & Hsized & _).
  assert (consistent rt) as Hrt.
  { subst rt. unfold loadConfig. by rewrite Hstate. }
  assert (Forall reachable (connectedClients rt)) as Hports.
  { subst rt. unfold loadConfig. by rewrite Hstate. }
  assert (Forall (λ g, length (ag_key g) = 32) (authorizedGateways rt)) as Hkeys.
  { subst rt. unfold loadConfig. rewrite Hstate. cbn.
    eapply Forall_impl; [done|]. by intros g [_ ?]. }
  assert (Forall from_socket ops) as Hbytes.
  { eapply Forall_impl; [done|]. apply answerable_from_socket. }
  pose proof (run_operations_consistent ops rt Hbytes Hrt) as [Hok _].
  pose proof (run_operations_reachable ops rt Hops Hports) as Hlater.
  destruct (run_operations_grown ops rt) as (Htable & _).
  rewrite <- Htable in Hkeys.
  destruct op as [ci payload|datagram rinfo|]; cbn [react].
  - destruct (lookup_lt_is_Some_2 _ _ (Hexists ci payload eq_refl)) as [client Hlookup].
    unfold client_send.
    rewrite (sendMSG_run ci MSGCONF payload _ client Hlookup
               (Forall_lookup_1 _ _ _ _ Hok Hlookup)
               (Forall_lookup_1 _ _ _ _ Hlater Hlookup))
      by (unfold MSGCONF; lia).
    reflexivity.
  - destruct Hop as [Hdatagram Hport]. by apply process_Normal.
  - by destruct (tickClients_run (run_operations ops rt) Hlater) as (rt' & -> & _).
Qed.


(** ** A message and its acknowledgement *)

(** X19: a message sent to a client (one the socket can send to) and the
    gateway's RCPTOK for it cancel out: when the RCPTOK with the identifier
    of the message has been processed, [sentMessages] is what it was before
    the send (so the message is not retransmitted any more), while the next
    identifier has advanced by one modulo 65536. The RCPTOK itself is not
    answered, so it may come from any port. *)
Theorem send_then_RCPTOK (ci : nat) (payload : option (list Z)) (rt : Runtime)
    (client : Client) (datagram : list Z) (rinfo : RemoteInfo)
    (gatewayKey code acknowledged : list Z) :
  connected rt (c_gatewayUID client) ci client →
  client_ok client →
  reachable client →
  sendPacketID client ∉ sm_packetID <$> sentMessages client →
  length (sentMessages client) < SENT_MSG_LIST_MAX_LEN →
  let rt1 := (client_send ci payload rt).2 in
  authenticated rt1 datagram gatewayKey
    (Parsed RCPTOK code (c_gatewayUID client) (sendPacketID client) acknowledged) →
  ∃ rt2 client',
    process datagram rinfo rt1 = (Normal tt, rt2)
    ∧ connectedClients rt2 !! ci = Some client'
    ∧ sentMessages client' = sentMessages client
    ∧ sendPacketID client' = ((sendPacketID client + 1) `mod` 65536)%Z
    ∧ effects rt2 = effects rt1.
Proof.
  intros Hfind Hok Hport Hfresh Hroom rt1 Hauth.
  pose proof (connected_lookup _ _ _ _ Hfind) as Hlookup.
  assert (ci < length (connectedClients rt)) as Hci by by eapply lookup_lt_Some.
  pose proof (sendMSG_run ci MSGCONF payload rt client Hlookup Hok Hport) as Hsend.
  cbv zeta in Hsend.
  set (sentMessage := Build_SentMessage _ _ _) in Hsend.
  assert (rt1 = with_clients (<[ci := enqueue_sent client sentMessage]> (connectedClients rt))
                  (ticked (emitted (SocketSend (packet sentMessage) (sourcePort client)
                                               (remoteAddress client))
                                   (drawn 8 rt)))) as Hrt1.
  { subst rt1. unfold client_send. rewrite Hsend by (unfold MSGCONF; lia). reflexivity. }
  assert (connected rt1 (c_gatewayUID client) ci (enqueue_sent client sentMessage))
    as Hfind1.
  { eapply connected_insert; [exact Hfind|reflexivity|by rewrite Hrt1]. }
  rewrite (process_connected _ rinfo _ _ _ _ _ _ _ _ _ Hauth Hfind1). cbv zeta.
  unfold dispatch.
  rewrite decide_False by (unfold RCPTOK, CONN; lia).
  rewrite decide_True by done.
  cbn [sentMessages with_lastSeen enqueue_sent].
  rewrite decide_False by (rewrite length_app; cbn [length]; lia).
  rewrite (list_find_first (sendPacketID client) (sentMessages client) [] sentMessage)
    by done.
  rewrite delete_middle, app_nil_r.
  eexists. eexists. split; [reflexivity|].
  cbn [connectedClients with_clients emitted drawn ticked effects].
  split.
  { apply list_lookup_insert_eq. rewrite length_insert, Hrt1. cbn.
    by rewrite length_insert. }
  split; [reflexivity|].
  split; [|reflexivity].
  cbn. destruct Hok as (_ & _ & _ & Hid).
  rewrite Z.rem_mod_nonneg by lia. reflexivity.
Qed.

End Model.


(** ** The properties on the sample inputs *)

(** [packSSGSCP_length] on a CONN packet without payload: 12 encrypted
    bytes. *)
Lemma packSSGSCP_length_witness :
  valid_fields (sample_packet CONN 0 None) sample_uid
  ∧ length sample_key = 32
  ∧ ∃ datagram,
      (packSSGSCP sample_keystream sample_entropy (sample_packet CONN 0 None)
                  sample_key sample_start).1 = Normal (Some datagram)
      ∧ length (drop 18 datagram) = 12.
Proof.
  assert (valid_fields (sample_packet CONN 0 None) sample_uid) as Hvalid.
  { unfold valid_fields, sample_packet, CONN. cbn. repeat split; lia. }
  split; [exact Hvalid|]. split; [reflexivity|].
  destruct (packSSGSCP_length sample_keystream sample_entropy
              (sample_packet CONN 0 None) sample_uid sample_key sample_start
              Hvalid eq_refl) as (datagram & Hpack & _ & _ & _ & Hempty).
  exists datagram. split; [exact Hpack|]. apply Hempty. reflexivity.
Defined.

(** The CONN packet without payload, evaluated: the datagram has 30 bytes,
    not [18 + ceil(8 / 4) * 4 = 26], and its encrypted portion has 12 bytes,
    not 8. *)
Lemma packSSGSCP_empty_payload_length :
  ∃ datagram,
    (packSSGSCP sample_keystream sample_entropy (sample_packet CONN 0 None)
                sample_key sample_start).1 = Normal (Some datagram)
    ∧ length (default [] (payload (sample_packet CONN 0 None))) = 0
    ∧ length datagram = 30
    ∧ length datagram ≠ 18 + ((8 + 0 + 3) `div` 4) * 4
    ∧ length (drop 18 datagram) ≠ 8.
Proof.
  eexists. split; [vm_compute; reflexivity|].
  split; [reflexivity|]. split; [reflexivity|].
  split; vm_compute; discriminate.
Qed.

(** [codec_roundtrip] on a MSGSTATUS packet with a 3-byte payload. *)
Lemma codec_roundtrip_witness :
  ∃ datagram parsed,
    (packSSGSCP sample_keystream sample_entropy
                (sample_packet MSGSTATUS 7 (Some [1; 2; 3]%Z))
                sample_key sample_start).1 = Normal (Some datagram)
    ∧ (parseSSGSCP sample_keystream datagram sample_key sample_start).1
      = Normal (Some parsed)
    ∧ authSuccess parsed = true
    ∧ parsed = Parsed MSGSTATUS [0; 1; 2; 3]%Z sample_uid 7 [1; 2; 3]%Z.
Proof.
  apply (codec_roundtrip sample_keystream sample_entropy
           (sample_packet MSGSTATUS 7 (Some [1; 2; 3]%Z)) sample_uid sample_key
           sample_start sample_start).
  - unfold valid_fields, sample_packet, MSGSTATUS. cbn. repeat split; lia.
  - unfold sample_uid. repeat (apply Forall_cons_2; [unfold is_byte; lia|]).
    apply Forall_nil_2.
  - cbn. repeat (apply Forall_cons_2; [unfold is_byte; lia|]). apply Forall_nil_2.
  - cbn. lia.
  - reflexivity.
Defined.

(** [parseSSGSCP_outcomes] on the datagram of a MSGSTATUS with a 3-byte
    payload, and on the same datagram read with another key. *)
Lemma parseSSGSCP_outcomes_witness :
  let datagram :=
    wire_of sample_keystream (sample_packet MSGSTATUS 7 (Some [1; 2; 3]%Z)) sample_uid
            sample_key (iv_at sample_entropy 0) in
  (parseSSGSCP sample_keystream datagram sample_key sample_start).1
  = Normal (Some (Parsed MSGSTATUS [0; 1; 2; 3]%Z sample_uid 7 [1; 2; 3]%Z))
  ∧ (parseSSGSCP sample_keystream datagram (replicate 32 99%Z) sample_start).1
    = Normal (Some AuthFailed)
  ∧ (parseSSGSCP sample_keystream (take 25 datagram) sample_key sample_start).1
    = Normal None.
Proof.
  intros datagram.
  assert (¬ (length datagram < 26 ∨ take 6 datagram ≠ [83; 83; 71; 83; 67; 80]%Z))
    as Hwell.
  { intros [Hshort|Hmagic]; [vm_compute in Hshort; lia|by apply Hmagic]. }
  split; [|split].
  - destruct (parseSSGSCP_outcomes sample_keystream datagram sample_key sample_start
                eq_refl) as (_ & _ & Hfields).
    rewrite (Hfields Hwell); [vm_compute; reflexivity|vm_compute; reflexivity].
  - destruct (parseSSGSCP_outcomes sample_keystream datagram (replicate 32 99%Z)
                sample_start eq_refl) as (_ & Hfailed & _).
    apply (Hfailed Hwell). vm_compute. discriminate.
  - apply (parseSSGSCP_outcomes sample_keystream (take 25 datagram) sample_key
             sample_start eq_refl).
    left. vm_compute. lia.
Defined.

(** [packSSGSCP_long_payload] on a payload of 300 bytes: 44 bytes come back. *)
Lemma packSSGSCP_long_payload_witness :
  ∃ datagram,
    (packSSGSCP sample_keystream sample_entropy
                (sample_packet MSGCONF 0 (Some (replicate 300 9%Z)))
                sample_key sample_start).1 = Normal (Some datagram)
    ∧ byteAt (decryptedPortion_of sample_keystream datagram sample_key) 7 = 44%Z
    ∧ (parseSSGSCP sample_keystream datagram sample_key sample_start).1
      = Normal (Some (Parsed MSGCONF [0; 1; 2; 3]%Z sample_uid 0 (replicate 44 9%Z)))
    ∧ replicate 44 9%Z ≠ replicate 300 9%Z.
Proof.
  apply (packSSGSCP_long_payload sample_keystream sample_entropy
           (sample_packet MSGCONF 0 (Some (replicate 300 9%Z))) sample_uid sample_key
           (replicate 300 9%Z) sample_start sample_start).
  - unfold valid_fields, sample_packet, MSGCONF. cbn. repeat split; lia.
  - unfold sample_uid. repeat (apply Forall_cons_2; [unfold is_byte; lia|]).
    apply Forall_nil_2.
  - reflexivity.
  - apply Forall_replicate. unfold is_byte. lia.
  - rewrite length_replicate. lia.
  - reflexivity.
Defined.







(** [duplicate_MSGSTATUS]: after the handshake, MSGSTATUS 7 is delivered
    twice in a row. *)
Lemma duplicate_MSGSTATUS_witness :
  let conn :=
    wire_of sample_keystream (fields_of CONN sample_uid 0) sample_uid sample_key
            (iv_at sample_entropy 0) in
  let status :=
    wire_of sample_keystream (sample_packet MSGSTATUS 7 (Some [9; 9]%Z)) sample_uid
            sample_key (iv_at sample_entropy 40) in
  let rt := (process sample_keystream sample_entropy sample_clock sample_parse
                     conn sample_rinfo sample_start).2 in
  let later := (process sample_keystream sample_entropy sample_clock sample_parse
                        status sample_rinfo rt).2 in
  ∃ ack1 rt2 ack2,
    effects later
    = effects rt ++ [SocketSend ack1 40000 "10.0.0.2";
                     CallOnMessage 0 (make_update sample_parse sample_uid [9; 9]%Z)]
    ∧ process sample_keystream sample_entropy sample_clock sample_parse
              status sample_rinfo later = (Normal tt, rt2)
    ∧ effects rt2 = effects later ++ [SocketSend ack2 40000 "10.0.0.2"].
Proof.
  intros conn status rt later.
  destruct (duplicate_MSGSTATUS sample_keystream sample_entropy sample_clock sample_parse
              status sample_rinfo sample_rinfo rt later sample_key [0; 1; 2; 3]%Z
              sample_uid 7 [9; 9]%Z 0 0 (first_client rt) (first_client later))
    as (rt1 & ack1 & client1 & rt2 & ack2 & Hrun1 & Heff1 & _ & _ & _ & _
        & Hrun2 & Heff2 & _).
  - split; [apply is_bytes_check; vm_compute; reflexivity|].
    exists sample_uid. split_and!; vm_compute; reflexivity.
  - vm_compute. reflexivity.
  - vm_compute. intros Hin. apply elem_of_nil in Hin. exact Hin.
  - split; [apply is_bytes_check; vm_compute; reflexivity|].
    exists sample_uid. split_and!; vm_compute; reflexivity.
  - vm_compute. reflexivity.
  - vm_compute. apply list_elem_of_here.
  - unfold valid_port. cbn. lia.
  - unfold valid_port. cbn. lia.
  - exists ack1, rt2, ack2.
    assert (later = rt1) as Hlater by (unfold later; by rewrite Hrun1).
    split_and!; [by rewrite Hlater|done|done].
Defined.

(** C4 as stated fails when the [packetID] is already in the FIFO before the
    first delivery. After the handshake and a MSGSTATUS 7, another MSGSTATUS
    datagram with the same identifier 7 and a new payload is authenticated
    and is delivered twice: both deliveries are acknowledged, and [onmessage]
    is called zero times, not once. *)
Lemma duplicate_MSGSTATUS_counterexample :
  let conn :=
    wire_of sample_keystream (fields_of CONN sample_uid 0) sample_uid sample_key
            (iv_at sample_entropy 0) in
  let status :=
    wire_of sample_keystream (sample_packet MSGSTATUS 7 (Some [9; 9]%Z)) sample_uid
            sample_key (iv_at sample_entropy 40) in
  let other :=
    wire_of sample_keystream (sample_packet MSGSTATUS 7 (Some [5]%Z)) sample_uid
            sample_key (iv_at sample_entropy 80) in
  let run datagram rt :=
    (process sample_keystream sample_entropy sample_clock sample_parse
             datagram sample_rinfo rt).2 in
  let rt := run status (run conn sample_start) in
  let rt1 := run other rt in
  let rt2 := run other rt1 in
  authenticated sample_keystream rt other sample_key
                (Parsed MSGSTATUS [0; 1; 2; 3]%Z sample_uid 7 [5]%Z)
  ∧ connected rt sample_uid 0 (first_client rt)
  ∧ 7%Z ∈ receivedMessageIDsFIFO (first_client rt1)
  ∧ (∃ ack1 ack2,
       effects rt2 = effects rt ++ [SocketSend ack1 40000 "10.0.0.2";
                                    SocketSend ack2 40000 "10.0.0.2"])
  ∧ onmessage_calls (drop (length (effects rt)) (effects rt2)) = 0
  ∧ onmessage_calls (drop (length (effects rt)) (effects rt2)) ≠ 1.
Proof.
  intros conn status other run rt rt1 rt2.
  split.
  { split; [apply is_bytes_check; vm_compute; reflexivity|].
    exists sample_uid. split_and!; vm_compute; reflexivity. }
  split; [vm_compute; reflexivity|].
  split; [vm_compute; apply list_elem_of_here|].
  split.
  { let sent := eval vm_compute in (drop (length (effects rt)) (effects rt2)) in
    assert (drop (length (effects rt)) (effects rt2) = sent) as Hsent
      by (vm_compute; reflexivity).
    rewrite <- (take_drop (length (effects rt)) (effects rt2)), Hsent.
    assert (take (length (effects rt)) (effects rt2) = effects rt) as ->
      by (vm_compute; reflexivity).
    eexists. eexists. reflexivity. }
  split; [vm_compute; reflexivity|vm_compute; discriminate].
Qed.







(** [queues_stay_bounded]: from the start, a handshake, a send, a tick and a
    MSGSTATUS leave the queues bounded; a send to a client with 100 pending
    messages drops the oldest one, and a new MSGSTATUS for a client with 100
    recorded identifiers drops the oldest identifier. *)
Lemma queues_stay_bounded_witness :
  let conn :=
    wire_of sample_keystream (fields_of CONN sample_uid 0) sample_uid sample_key
            (iv_at sample_entropy 0) in
  let status :=
    wire_of sample_keystream (sample_packet MSGSTATUS 7 (Some [9; 9]%Z)) sample_uid
            sample_key (iv_at sample_entropy 40) in
  let pending := {| sm_packetID := 4; timestamp := 5000; packet := conn |} in
  let busy := sample_client 5 (replicate 100 pending) in
  let listening :=
    {| c_gatewayUID := sample_uid; sourcePort := 40000; remoteAddress := "10.0.0.2";
       lastSeen := 5000; sendPacketID := 0; retransmissionTimeout := 2000;
       sentMessages := []; receivedMessageIDsFIFO := Z.of_nat <$> seq 100 100;
       key := sample_key |} in
  (bounded sample_start
   ∧ bounded (run_operations sample_keystream sample_entropy sample_clock sample_parse
                [Receive conn sample_rinfo; Send 0 (Some [1]%Z); Tick;
                 Receive status sample_rinfo]
                sample_start))
  ∧ (∃ client' sentMessage,
       connectedClients
         (client_send sample_keystream sample_entropy sample_clock 0 None
                      (sample_serving busy 1)).2 !! 0 = Some client'
       ∧ sm_packetID sentMessage = 5%Z
       ∧ sentMessages client' = replicate 99 pending ++ [sentMessage])
  ∧ (∃ client',
       connectedClients
         (process sample_keystream sample_entropy sample_clock sample_parse
                  status sample_rinfo (sample_serving listening 1)).2 !! 0 = Some client'
       ∧ receivedMessageIDsFIFO client' = (Z.of_nat <$> seq 101 99) ++ [7%Z]).
Proof.
  intros conn status pending busy listening.
  assert (bounded sample_start) as Hstart by apply Forall_nil_2.
  split; [|split].
  - split; [exact Hstart|].
    apply (queues_stay_bounded sample_keystream sample_entropy sample_clock sample_parse
             _ sample_start Hstart).
  - assert (bounded (sample_serving busy 1)) as Hbusy.
    { apply Forall_cons_2; [|apply Forall_nil_2].
      split; vm_compute; lia. }
    destruct (queues_stay_bounded sample_keystream sample_entropy sample_clock
                sample_parse [] (sample_serving busy 1) Hbusy) as (_ & Hsend & _).
    apply (Hsend 0 None busy).
    + reflexivity.
    + unfold client_ok. split_and!; [reflexivity| |reflexivity|cbn; lia|cbn; lia].
      apply is_bytes_check. vm_compute. reflexivity.
    + unfold reachable, valid_port. cbn. lia.
    + apply length_replicate.
  - assert (bounded (sample_serving listening 1)) as Hlistening.
    { apply Forall_cons_2; [|apply Forall_nil_2].
      split; vm_compute; lia. }
    destruct (queues_stay_bounded sample_keystream sample_entropy sample_clock
                sample_parse [] (sample_serving listening 1) Hlistening)
      as (_ & _ & Hreceive).
    apply (Hreceive status sample_rinfo sample_key [0; 1; 2; 3]%Z sample_uid 7%Z
                    [9; 9]%Z 0 listening).
    + split; [apply is_bytes_check; vm_compute; reflexivity|].
      exists sample_uid. split_and!; vm_compute; reflexivity.
    + vm_compute. reflexivity.
    + intros Hin. apply list_elem_of_fmap in Hin as (n & Hn & Hseq).
      apply elem_of_seq in Hseq. lia.
    + reflexivity.
Defined.


(** [bufferContainsValues_iff]: [3, 4] is not contained at offset 2 of
    [1, 2, 3]. *)
Lemma bufferContainsValues_iff_witness :
  bufferContainsValues [1; 2; 3]%Z 2 [3; 4]%Z = false.
Proof.
  apply (bufferContainsValues_iff [1; 2; 3]%Z [3; 4]%Z 2).
  - discriminate.
  - cbn. lia.
Defined.

(** [parsePacketGatewayUID_agrees] on the datagram of a MSGSTATUS. *)
Lemma parsePacketGatewayUID_agrees_witness :
  let datagram :=
    wire_of sample_keystream (sample_packet MSGSTATUS 7 (Some [1; 2; 3]%Z)) sample_uid
            sample_key (iv_at sample_entropy 0) in
  parsePacketGatewayUID datagram = Some sample_uid
  ∧ parsePacketGatewayUID (take 20 datagram) = None.
Proof.
  intros datagram. split.
  - destruct (parsePacketGatewayUID_agrees sample_keystream datagram) as (_ & _ & Hagree).
    apply (Hagree sample_key sample_start MSGSTATUS [0; 1; 2; 3]%Z sample_uid 7%Z
                  [1; 2; 3]%Z).
    vm_compute. reflexivity.
  - apply (parsePacketGatewayUID_agrees sample_keystream (take 20 datagram)).
    left. vm_compute. lia.
Defined.

(** [packSSGSCP_outcomes]: a [packetID] of 65536 is refused, and a 16-byte
    key makes the cipher throw. *)
Lemma packSSGSCP_outcomes_witness :
  packSSGSCP sample_keystream sample_entropy (sample_packet MSGCONF 65536 None)
             sample_key sample_start = (Normal None, sample_start)
  ∧ packSSGSCP sample_keystream sample_entropy (sample_packet MSGCONF 0 None)
               (replicate 16 17%Z) sample_start
    = (Thrown InvalidKeyLength, drawn 8 sample_start).
Proof.
  split.
  - apply (packSSGSCP_outcomes sample_keystream sample_entropy
             (sample_packet MSGCONF 65536 None) sample_key sample_start).
    right. right. right. cbn. lia.
  - apply (packSSGSCP_outcomes sample_keystream sample_entropy
             (sample_packet MSGCONF 0 None) (replicate 16 17%Z) sample_start).
    + intros [Htype|[Huid|Hid]].
      * unfold MSGCONF in Htype. cbn in Htype. lia.
      * destruct Huid as (uid & Huid & Hlen). cbn in Huid.
        injection Huid as <-. by apply Hlen.
      * cbn in Hid. lia.
    + rewrite length_replicate. lia.
Defined.

(** [packSSGSCP_wellformed] on a CONN packet. *)
Lemma packSSGSCP_wellformed_witness :
  let datagram :=
    wire_of sample_keystream (sample_packet CONN 0 None) sample_uid sample_key
            (iv_at sample_entropy 0) in
  Forall is_byte datagram
  ∧ isSSGSCP datagram = true
  ∧ subarray datagram 6 14 = iv_at sample_entropy 0
  ∧ length (drop 18 datagram) `mod` 4 = 0.
Proof.
  intros datagram.
  destruct (packSSGSCP_wellformed sample_keystream sample_entropy
              (sample_packet CONN 0 None) sample_key datagram sample_start
              (drawn 8 sample_start))
    as (_ & Hbytes & Hmagic & Hiv & _ & Hmod & _).
  - vm_compute. reflexivity.
  - split_and!; done.
Defined.

(** [authentication_covers_tag_only]: a MSGSTATUS whose first encrypted byte
    (the packet type) is changed still authenticates; one whose byte 19 is
    changed does not. *)
Lemma authentication_covers_tag_only_witness :
  let datagram :=
    wire_of sample_keystream (sample_packet MSGSTATUS 7 (Some [1; 2; 3]%Z)) sample_uid
            sample_key (iv_at sample_entropy 0) in
  let retyped := <[18 := Z.lxor (byteAt datagram 18) 1]> datagram in
  let forged := <[19 := Z.lxor (byteAt datagram 19) 1]> datagram in
  (∃ parsed',
     (parseSSGSCP sample_keystream retyped sample_key sample_start).1
     = Normal (Some parsed')
     ∧ authSuccess parsed' = true)
  ∧ (∃ parsed',
       (parseSSGSCP sample_keystream forged sample_key sample_start).1
       = Normal (Some parsed')
       ∧ authSuccess parsed' ≠ true).
Proof.
  intros datagram retyped forged.
  assert ((parseSSGSCP sample_keystream datagram sample_key sample_start).1
          = Normal (Some (Parsed MSGSTATUS [0; 1; 2; 3]%Z sample_uid 7 [1; 2; 3]%Z)))
    as Hparse by (vm_compute; reflexivity).
  split.
  - destruct (authentication_covers_tag_only sample_keystream datagram retyped
                sample_key sample_start _ Hparse eq_refl)
      as (parsed' & Hparsed' & Hiff).
    + vm_compute. reflexivity.
    + vm_compute. reflexivity.
    + exists parsed'. split; [done|]. apply Hiff. vm_compute. reflexivity.
  - destruct (authentication_covers_tag_only sample_keystream datagram forged
                sample_key sample_start _ Hparse eq_refl)
      as (parsed' & Hparsed' & Hiff).
    + vm_compute. reflexivity.
    + vm_compute. reflexivity.
    + exists parsed'. split; [done|]. intros Hauth. apply Hiff in Hauth.
      vm_compute in Hauth. discriminate.
Defined.


(** [gatewayUIDsMatch_spec]: the sample UID matches itself and also the
    5-byte buffer that starts with it. *)
Lemma gatewayUIDsMatch_spec_witness :
  (gatewayUIDsMatch sample_uid sample_uid = true ↔ sample_uid = sample_uid)
  ∧ gatewayUIDsMatch sample_uid (sample_uid ++ [0]%Z) = true.
Proof.
  destruct (gatewayUIDsMatch_spec sample_uid sample_uid) as (_ & Heq & _ & Hlonger).
  split; [apply Heq; reflexivity|apply Hlonger; reflexivity].
Defined.

(** [isAuthorizedGateway_getGatewayKey] on the sample table. *)
Lemma isAuthorizedGateway_getGatewayKey_witness :
  isAuthorizedGateway sample_gateways sample_uid = true
  ∧ ∃ i authorizedGateway,
      sample_gateways !! i = Some authorizedGateway
      ∧ ag_key authorizedGateway = sample_key.
Proof.
  destruct (isAuthorizedGateway_getGatewayKey sample_gateways sample_uid)
    as [Hiff Hfirst].
  split.
  - apply Hiff. exists sample_key. reflexivity.
  - destruct (Hfirst sample_key eq_refl) as (i & g & Hi & Hkey & _). by exists i, g.
Defined.

(** [loadConfig_spec]: the sample file gives the sample table. *)
Lemma loadConfig_spec_witness :
  let result :=
    loadConfig sample_remove_whitespace sample_Buffer_from_hex sample_config
               (with_authorizedGateways [] sample_start) in
  result.1 = None ∧ authorizedGateways result.2 = sample_gateways.
Proof.
  intros result.
  destruct (loadConfig_spec sample_remove_whitespace sample_Buffer_from_hex
              sample_config (with_authorizedGateways [] sample_start))
    as (_ & Htable & _).
  assert (result.1 = None) as Hloaded by (vm_compute; reflexivity).
  split; [exact Hloaded|].
  etransitivity; [apply Htable, Hloaded|]. vm_compute. reflexivity.
Defined.

(** [uidToString_spec]: the sample UID prints as 13 characters, a 3-byte
    buffer as 'Invalid UID'. *)
Lemma uidToString_spec_witness :
  String.length (uidToString sample_uid) = 13
  ∧ uidToString [1; 2; 3]%Z = "Invalid UID"%string
  ∧ uidToString sample_uid = "[aa bb cc dd]"%string.
Proof.
  split_and!.
  - apply (uidToString_spec sample_uid); [reflexivity|].
    apply is_bytes_check. vm_compute. reflexivity.
  - apply (uidToString_spec [1; 2; 3]%Z). cbn. lia.
  - destruct (uidToString_spec sample_uid) as (_ & _ & Hformat).
    rewrite (Hformat 170 187 204 221 eq_refl)%Z;
      [reflexivity|apply is_bytes_check; vm_compute; reflexivity].
Defined.

(** [process_handshake]: the first CONN of the sample gateway. *)
Lemma process_handshake_witness :
  let conn :=
    wire_of sample_keystream (fields_of CONN sample_uid 0) sample_uid sample_key
            (iv_at sample_entropy 0) in
  ∃ rt' reply,
    process sample_keystream sample_entropy sample_clock sample_parse
            conn sample_rinfo sample_start = (Normal tt, rt')
    ∧ connectedClients rt'
      = [{| c_gatewayUID := sample_uid; sourcePort := 40000;
            remoteAddress := "10.0.0.2"; lastSeen := 5000; sendPacketID := 0;
            retransmissionTimeout := 2000; sentMessages := [];
            receivedMessageIDsFIFO := []; key := sample_key |}]
    ∧ effects rt' = [SocketSend reply 40000 "10.0.0.2"; CallOnConnection 0].
Proof.
  intros conn.
  destruct (process_handshake sample_keystream sample_entropy sample_clock sample_parse
              conn sample_rinfo sample_start sample_key [0; 1; 2; 3]%Z sample_uid 0 [])
    as (Hvalid & _).
  - split; [apply is_bytes_check; vm_compute; reflexivity|].
    exists sample_uid. split_and!; vm_compute; reflexivity.
  - intros ci client Hfind. vm_compute in Hfind. discriminate.
  - destruct Hvalid as (rt' & reply & Hrun & Hclients & _ & Heffects & _);
      [unfold valid_port; cbn; lia|].
    exists rt', reply. split_and!; done.
Defined.

(** [process_before_handshake]: a MSGSTATUS that arrives before any CONN. *)
Lemma process_before_handshake_witness :
  let status :=
    wire_of sample_keystream (sample_packet MSGSTATUS 7 (Some [9; 9]%Z)) sample_uid
            sample_key (iv_at sample_entropy 0) in
  ∃ rt' reply,
    process sample_keystream sample_entropy sample_clock sample_parse
            status sample_rinfo sample_start = (Normal tt, rt')
    ∧ connectedClients rt' = []
    ∧ effects rt' = [SocketSend reply 40000 "10.0.0.2"]
    ∧ (parseSSGSCP sample_keystream reply (Buffer_alloc 32) rt').1
      = Normal (Some (Parsed CONNFAIL [0; 1; 2; 3]%Z sample_uid 0 [])).
Proof.
  intros status.
  destruct (process_before_handshake sample_keystream sample_entropy sample_clock
              sample_parse status sample_rinfo sample_start sample_key MSGSTATUS
              [0; 1; 2; 3]%Z sample_uid 7 [9; 9]%Z)
    as (Hvalid & _).
  - split; [apply is_bytes_check; vm_compute; reflexivity|].
    exists sample_uid. split_and!; vm_compute; reflexivity.
  - unfold MSGSTATUS, CONN. lia.
  - intros ci client Hfind. vm_compute in Hfind. discriminate.
  - destruct Hvalid as (rt' & reply & Hrun & Hclients & _ & Heffects & Hparse);
      [unfold valid_port; cbn; lia|].
    exists rt', reply. split_and!; done.
Defined.

(** [process_RCPTOK]: of the pending messages 3 and 4, an RCPTOK for 3
    leaves 4. *)
Lemma process_RCPTOK_witness :
  let rcptok :=
    wire_of sample_keystream (fields_of RCPTOK sample_uid 3) sample_uid sample_key
            (iv_at sample_entropy 0) in
  let m3 := {| sm_packetID := 3; timestamp := 4000; packet := [1]%Z |} in
  let m4 := {| sm_packetID := 4; timestamp := 4500; packet := [2]%Z |} in
  let client := sample_client 5 [m3; m4] in
  ∃ rt',
    process sample_keystream sample_entropy sample_clock sample_parse
            rcptok sample_rinfo (sample_serving client 1) = (Normal tt, rt')
    ∧ effects rt' = []
    ∧ connectedClients rt'
      = [with_sentMessages (with_lastSeen client 5001) [m4]].
Proof.
  intros rcptok m3 m4 client.
  destruct (process_RCPTOK sample_keystream sample_entropy sample_clock sample_parse
              rcptok sample_rinfo (sample_serving client 1) sample_key [0; 1; 2; 3]%Z
              sample_uid 3 [] 0 client)
    as (rt' & pending & Hrun & Heffects & _ & Hclients & _ & Hfirst & _).
  - split; [apply is_bytes_check; vm_compute; reflexivity|].
    exists sample_uid. split_and!; vm_compute; reflexivity.
  - vm_compute. reflexivity.
  - exists rt'. split_and!; [done|done|].
    rewrite Hclients, (Hfirst [] m3 [m4]); [reflexivity|reflexivity|reflexivity|].
    apply not_elem_of_nil.
Defined.

(** [process_other_types]: a MSGCONF and a packet of type 99 from the
    connected sample gateway. *)
Lemma process_other_types_witness :
  let msgconf :=
    wire_of sample_keystream (fields_of MSGCONF sample_uid 0) sample_uid sample_key
            (iv_at sample_entropy 0) in
  let unknown :=
    wire_of sample_keystream (fields_of 99 sample_uid 0) sample_uid sample_key
            (iv_at sample_entropy 0) in
  let client := sample_client 5 [] in
  let seen :=
    with_clients [with_lastSeen client 5001]
      {| authorizedGateways := sample_gateways; connectedClients := [client];
         dateNowCalls := 2; randomBytesDrawn := 8; effects := [] |} in
  process sample_keystream sample_entropy sample_clock sample_parse
          msgconf sample_rinfo (sample_serving client 1) = (Normal tt, seen)
  ∧ process sample_keystream sample_entropy sample_clock sample_parse
            unknown sample_rinfo (sample_serving client 1)
    = (Normal tt, emitted AssertionFailed seen).
Proof.
  intros msgconf unknown client seen. split.
  - rewrite (process_other_types sample_keystream sample_entropy sample_clock
               sample_parse msgconf sample_rinfo (sample_serving client 1) sample_key
               MSGCONF [0; 1; 2; 3]%Z sample_uid 0 [] 0 client).
    + reflexivity.
    + split; [apply is_bytes_check; vm_compute; reflexivity|].
      exists sample_uid. split_and!; vm_compute; reflexivity.
    + vm_compute. reflexivity.
    + unfold MSGCONF, CONN. lia.
    + unfold MSGCONF, RCPTOK. lia.
    + unfold MSGCONF, MSGSTATUS. lia.
  - rewrite (process_other_types sample_keystream sample_entropy sample_clock
               sample_parse unknown sample_rinfo (sample_serving client 1) sample_key
               99 [0; 1; 2; 3]%Z sample_uid 0 [] 0 client).
    + reflexivity.
    + split; [apply is_bytes_check; vm_compute; reflexivity|].
      exists sample_uid. split_and!; vm_compute; reflexivity.
    + vm_compute. reflexivity.
    + unfold CONN. lia.
    + unfold RCPTOK. lia.
    + unfold MSGSTATUS. lia.
Defined.

(** [process_returns]: 30 zero bytes from port 40000 are handled without a
    throw; with a 16-byte key in the table, a CONN of that gateway makes
    [process] throw; and from port 0, a CONN of the configured gateway that
    was encrypted with another key makes [process] throw. *)
Lemma process_returns_witness :
  let conn :=
    wire_of sample_keystream (fields_of CONN sample_uid 0) sample_uid sample_key
            (iv_at sample_entropy 0) in
  let forged :=
    wire_of sample_keystream (fields_of CONN sample_uid 0) sample_uid
            (replicate 32 99%Z) (iv_at sample_entropy 0) in
  let misconfigured :=
    with_authorizedGateways
      [{| ag_gatewayUID := sample_uid; ag_key := replicate 16 17%Z |}] sample_start in
  (process sample_keystream sample_entropy sample_clock sample_parse
           (replicate 30 0%Z) sample_rinfo sample_start).1 = Normal tt
  ∧ (process sample_keystream sample_entropy sample_clock sample_parse
             conn sample_rinfo misconfigured).1 = Thrown InvalidKeyLength
  ∧ (process sample_keystream sample_entropy sample_clock sample_parse
             forged sample_rinfo0 sample_start).1 = Thrown SocketBadPort.
Proof.
  intros conn forged misconfigured. split_and!.
  - apply (process_returns sample_keystream sample_entropy sample_clock sample_parse
             (replicate 30 0%Z) sample_rinfo sample_start).
    + apply is_bytes_check. vm_compute. reflexivity.
    + apply Forall_cons_2; [reflexivity|apply Forall_nil_2].
    + unfold valid_port. cbn. lia.
  - destruct (process_returns sample_keystream sample_entropy sample_clock sample_parse
                conn sample_rinfo misconfigured) as (_ & Hkey & _).
    + apply is_bytes_check. vm_compute. reflexivity.
    + apply (Hkey sample_uid (replicate 16 17%Z)).
      * vm_compute. reflexivity.
      * vm_compute. reflexivity.
      * rewrite length_replicate. lia.
  - destruct (process_returns sample_keystream sample_entropy sample_clock sample_parse
                forged sample_rinfo0 sample_start) as (_ & _ & Hport).
    + apply is_bytes_check. vm_compute. reflexivity.
    + apply (Hport sample_uid sample_key).
      * vm_compute. reflexivity.
      * vm_compute. reflexivity.
      * vm_compute. reflexivity.
      * unfold valid_port. cbn. lia.
Defined.

(** [server_stays_consistent]: a handshake, a send, a tick and a second CONN
    from another port leave one well-formed client. *)
Lemma server_stays_consistent_witness :
  let conn :=
    wire_of sample_keystream (fields_of CONN sample_uid 0) sample_uid sample_key
            (iv_at sample_entropy 0) in
  consistent
    (run_operations sample_keystream sample_entropy sample_clock sample_parse
       [Receive conn sample_rinfo; Send 0 (Some [1]%Z); Tick; Receive conn sample_rinfo']
       sample_start).
Proof.
  intros conn.
  apply (server_stays_consistent sample_keystream sample_entropy sample_clock
           sample_parse _ sample_start).
  - apply Forall_cons_2; [apply is_bytes_check; vm_compute; reflexivity|].
    apply Forall_cons_2; [exact I|].
    apply Forall_cons_2; [exact I|].
    apply Forall_cons_2; [apply is_bytes_check; vm_compute; reflexivity|].
    apply Forall_nil_2.
  - split; [apply Forall_nil_2|apply NoDup_nil_2].
Defined.

(** [configured_server_runs]: after loading the sample file and a handshake,
    [client.send] returns. *)
Lemma configured_server_runs_witness :
  let conn :=
    wire_of sample_keystream (fields_of CONN sample_uid 0) sample_uid sample_key
            (iv_at sample_entropy 0) in
  let rt :=
    (loadConfig sample_remove_whitespace sample_Buffer_from_hex sample_config
                (with_authorizedGateways [] sample_start)).2 in
  (react sample_keystream sample_entropy sample_clock sample_parse
         (Send 0 (Some [1]%Z))
         (run_operations sample_keystream sample_entropy sample_clock sample_parse
                         [Receive conn sample_rinfo] rt)).1 = Normal tt.
Proof.
  intros conn rt.
  apply (configured_server_runs sample_keystream sample_entropy sample_clock
           sample_parse sample_remove_whitespace sample_Buffer_from_hex
           sample_config (with_authorizedGateways [] sample_start)
           [Receive conn sample_rinfo] (Send 0 (Some [1]%Z))).
  - vm_compute. reflexivity.
  - split; [apply Forall_nil_2|apply NoDup_nil_2].
  - apply Forall_nil_2.
  - apply Forall_cons_2; [|apply Forall_nil_2].
    split; [apply is_bytes_check; vm_compute; reflexivity|].
    unfold valid_port. cbn. lia.
  - exact I.
  - intros ci payload [= <- <-]. vm_compute. lia.
Defined.

(** [send_then_RCPTOK]: message 5 is sent and acknowledged. *)
Lemma send_then_RCPTOK_witness :
  let rcptok :=
    wire_of sample_keystream (fields_of RCPTOK sample_uid 5) sample_uid sample_key
            (iv_at sample_entropy 0) in
  let client := sample_client 5 [] in
  let rt1 :=
    (client_send sample_keystream sample_entropy sample_clock 0 (Some [1; 2]%Z)
                 (sample_serving client 1)).2 in
  ∃ rt2 client',
    process sample_keystream sample_entropy sample_clock sample_parse
            rcptok sample_rinfo rt1 = (Normal tt, rt2)
    ∧ connectedClients rt2 !! 0 = Some client'
    ∧ sentMessages client' = []
    ∧ sendPacketID client' = 6%Z.
Proof.
  intros rcptok client rt1.
  destruct (send_then_RCPTOK sample_keystream sample_entropy sample_clock sample_parse
              0 (Some [1; 2]%Z) (sample_serving client 1) client rcptok sample_rinfo
              sample_key [0; 1; 2; 3]%Z [])
    as (rt2 & client' & Hrun & Hlookup & Hsent & Hid & _).
  - vm_compute. reflexivity.
  - unfold client_ok. split_and!; [reflexivity| |reflexivity|cbn; lia|cbn; lia].
    apply is_bytes_check. vm_compute. reflexivity.
  - unfold reachable, valid_port. cbn. lia.
  - apply not_elem_of_nil.
  - vm_compute. lia.
  - split; [apply is_bytes_check; vm_compute; reflexivity|].
    exists sample_uid. split_and!; vm_compute; reflexivity.
  - exists rt2, client'. split_and!; done.
Defined.


(** [U16BE_roundtrip]: 513 comes back, 65536 comes back as 0. *)
Lemma U16BE_roundtrip_witness :
  getU16BE (setU16BE 513) = 513%Z ∧ getU16BE (setU16BE 65536) = 0%Z.
Proof.
  split.
  - apply (U16BE_roundtrip 513). lia.
  - destruct (U16BE_roundtrip 65536) as (_ & _ & Hround & _). exact Hround.
Defined.

(** [server_state_grows]: after a send, a tick and a CONN from another port,
    the sample client is still the first one, with its UID and key. *)
Lemma server_state_grows_witness :
  let conn :=
    wire_of sample_keystream (fields_of CONN sample_uid 0) sample_uid sample_key
            (iv_at sample_entropy 0) in
  let rt := sample_serving (sample_client 5 []) 1 in
  ∃ client',
    connectedClients
      (run_operations sample_keystream sample_entropy sample_clock sample_parse
         [Send 0 None; Tick; Receive conn sample_rinfo'] rt) !! 0 = Some client'
    ∧ c_gatewayUID client' = sample_uid
    ∧ key client' = sample_key.
Proof.
  intros conn rt.
  destruct (server_state_grows sample_keystream sample_entropy sample_clock sample_parse
              [Send 0 None; Tick; Receive conn sample_rinfo'] rt)
    as (_ & _ & Hkept).
  apply (Hkept 0 (sample_client 5 [])). reflexivity.
Defined.
